(** * PlusLib: NDI tracker driver and OpenIGTLink broadcast server

    A shallow embedding of the parts of
    [src/PlusDataCollection/PolarisTracking/vtkPlusNDITracker.cxx] and
    [src/PlusServer/vtkPlusOpenIGTLinkServer.cxx] that the specification's
    claims are about, and the theorems that settle those claims.

    - C++ [double] is IEEE binary64, embedded as Rocq's primitive [float];
      [pow(x, 2)] is taken to be the correctly rounded square [x * x].
    - C++ [int] is embedded as [Z]; loop counters that only count up from
      zero are [nat].  Vectors are lists read by index; a read outside the
      bounds is made explicit where a claim is about it.
    - The tracker is reached through the vendor library [ndicapi]: a device
      is the history of the commands sent to it together with its behaviour,
      the function that fixes what the library's readers return after any
      history.
    - A client socket is the list of the results its coming [Send] calls
      return; what is handed to the sockets is recorded in the server.
    - Clocks, the channel of the data collector, the message factory and the
      helpers of [vtkPlusCommand] are outside the two files; they are
      parameters of the methods that use them. *)

From Stdlib Require Import ZArith List Bool Floats Lia String Ascii.
From Stdlib Require Import DecimalString.
From stdpp Require Import base list.
Import ListNotations.

Local Open Scope Z_scope.

(** ** Common Plus types *)

(** [PlusStatus], the binary result of every driver and server operation. *)
Inductive PlusStatus : Type := PLUS_FAIL | PLUS_SUCCESS.

(** [ToolStatus], the per-tool validity flag handed to consumers. *)
Inductive ToolStatus : Type :=
  | TOOL_OK
  | TOOL_MISSING
  | TOOL_OUT_OF_VIEW
  | TOOL_OUT_OF_VOLUME.

#[global] Instance PlusStatus_eq_dec : EqDecision PlusStatus.
Proof. solve_decision. Defined.

#[global] Instance ToolStatus_eq_dec : EqDecision ToolStatus.
Proof. solve_decision. Defined.

#[global] Instance ToolStatus_inhabited : Inhabited ToolStatus := populate TOOL_MISSING.

#[global] Instance float_inhabited : Inhabited float := populate 0%float.

(** ** Stray marker matching ([vtkPlusNDITracker::MatchStrays] and helpers) *)

Module Strays.

(** [std::array<double, 3>] *)
Definition Pos3 : Type := (float * float * float)%type.

(** [std::pair<int, double>]: observation index and distance. *)
Definition Candidate : Type := (Z * float)%type.

(** [DBL_MAX] and [INT_MAX], the sentinels [InternalUpdate] passes down. *)
Definition DBL_MAX : float := 0x1.fffffffffffffp+1023%float.
Definition INT_MAX : Z := 2147483647.

(** C++ [a != b] on doubles. *)
Definition fne (a b : float) : bool := negb (PrimFloat.eqb a b).

(** [pow(x, 2)]: the square, rounded once. *)
Definition pow2 (x : float) : float := (x * x)%float.

(** The test of [GetDistanceStrays] on a previous slot position: some
    coordinate differs from zero. *)
Definition isObserved (p : Pos3) : bool :=
  let '(x, y, z) := p in fne x 0 || fne y 0 || fne z 0.

(** [sqrt(pow(p0 - c0, 2) + pow(p1 - c1, 2) + pow(p2 - c2, 2))] *)
Definition distanceTo (p c : Pos3) : float :=
  let '(px, py, pz) := p in
  let '(cx, cy, cz) := c in
  PrimFloat.sqrt (pow2 (px - cx) + pow2 (py - cy) + pow2 (pz - cz))%float.

(** [GetDistanceStrays]: row [j] holds, for every observation [i], the pair
    [(i, distance)], the distance being [maxDistance] when slot [j] has the
    zero position. *)
Definition GetDistanceStrays (MaxNumberOfStrays numberOfStrays : nat)
    (LastStraysPos : list Pos3) (maxDistance : float) (straysPos : list Pos3)
    : list (list Candidate) :=
  (fun j =>
     (fun i =>
        (Z.of_nat i,
         if isObserved (LastStraysPos !!! j)
         then distanceTo (LastStraysPos !!! j) (straysPos !!! i)
         else maxDistance))
     <$> seq 0 numberOfStrays)
  <$> seq 0 MaxNumberOfStrays.

(** [std::sort] with the comparator [left.second < right.second]; elements
    the comparator does not order keep their relative order (the insertion
    sort the library runs on short ranges). *)
Fixpoint insertByDistance (e : Candidate) (l : list Candidate) : list Candidate :=
  match l with
  | [] => [e]
  | h :: t => if PrimFloat.ltb e.2 h.2 then e :: h :: t else h :: insertByDistance e t
  end.

Definition sortRow (row : list Candidate) : list Candidate :=
  fold_left (fun acc e => insertByDistance e acc) row [].

(** [SortDistanceStrays] *)
Definition SortDistanceStrays (distanceToLastMarkers : list (list Candidate))
    : list (list Candidate) :=
  sortRow <$> distanceToLastMarkers.

(** The two vectors [MatchStrays] works on. *)
Record MatchState : Type := mkMatchState {
  minMatchedIndex : list Z;
  minDistance : list float
}.

Definition assign (i : nat) (c : Candidate) (s : MatchState) : MatchState :=
  {| minMatchedIndex := <[i := c.1]> (minMatchedIndex s);
     minDistance := <[i := c.2]> (minDistance s) |}.

Section Matcher.

Variable MaxNumberOfStrays : nat.
Variable numberOfStrays : nat.
Variable noMatchFlag : Z.
Variable maxDistance : float.
Variable distanceToLastMarkers : list (list Candidate).

(** The initial claim of every slot: its nearest candidate, unless that
    one is at [maxDistance]. *)
Definition initialClaims : MatchState :=
  fold_left
    (fun s i =>
       let c := (distanceToLastMarkers !!! i) !!! 0%nat in
       if fne c.2 maxDistance then assign i c s else s)
    (seq 0 MaxNumberOfStrays)
    {| minMatchedIndex := replicate MaxNumberOfStrays noMatchFlag;
       minDistance := replicate MaxNumberOfStrays maxDistance |}.

(** The loop over [k]: another slot holds the candidate's observation at
    a strictly smaller distance. *)
Definition betterMatchAlreadyExist (i : nat) (c : Candidate) (s : MatchState) : bool :=
  existsb
    (fun k =>
       negb (i =? k)%nat
       && (c.1 =? minMatchedIndex s !!! k)
       && PrimFloat.ltb (minDistance s !!! k) c.2)
    (seq 0 MaxNumberOfStrays).

(** The loop over [j] for slot [i]; the boolean is [checkFromTheTop]. *)
Fixpoint scanSlot (js : list nat) (i : nat) (s : MatchState) : MatchState * bool :=
  match js with
  | [] => (s, false)
  | j :: js' =>
      if minMatchedIndex s !!! i =? noMatchFlag then (s, false)
      else
        let c := (distanceToLastMarkers !!! i) !!! j in
        if PrimFloat.eqb c.2 maxDistance
        then (assign i (noMatchFlag, maxDistance) s, false)
        else if betterMatchAlreadyExist i c s
        then
          scanSlot js' i
            (if Z.of_nat j =? Z.of_nat numberOfStrays - 1
             then assign i (noMatchFlag, maxDistance) s
             else s)
        else if negb (minMatchedIndex s !!! i =? c.1)
        then (assign i c s, true)
        else (s, false)
  end.

(** The loop over [i], left as soon as [checkFromTheTop] is set. *)
Fixpoint scanSlots (slots : list nat) (s : MatchState) : MatchState * bool :=
  match slots with
  | [] => (s, false)
  | i :: slots' =>
      let '(s', checkFromTheTop) := scanSlot (seq 0 numberOfStrays) i s in
      if checkFromTheTop then (s', true) else scanSlots slots' s'
  end.

(** The [while (checkFromTheTop)] loop; [fuel] bounds the number of
    passes, [None] means the bound was reached. *)
Fixpoint resolveConflicts (fuel : nat) (s : MatchState) : option MatchState :=
  match fuel with
  | O => None
  | S fuel' =>
      let '(s', checkFromTheTop) := scanSlots (seq 0 MaxNumberOfStrays) s in
      if checkFromTheTop then resolveConflicts fuel' s' else Some s'
  end.

(** [MatchStrays] *)
Definition MatchStrays (fuel : nat) : option (list Z) :=
  minMatchedIndex <$> resolveConflicts fuel initialClaims.

End Matcher.

(** The first loop of [UpdateLastStraysData]: observations no slot claims. *)
Definition unusedStraysOf (numberOfStrays : nat) (minMatchedIndex : list Z) : list Z :=
  filter (fun i => negb (existsb (fun val => i =? val) minMatchedIndex) = true)
         (Z.of_nat <$> seq 0 numberOfStrays).

(** What the second loop carries from slot to slot. *)
Record SlotTable : Type := mkSlotTable {
  LastStraysPos : list Pos3;
  LastStraysStatus : list ToolStatus;
  unusedStrays : list Z
}.

(** One iteration of the second loop of [UpdateLastStraysData]. *)
Definition updateSlot (noMatchFlag : Z) (minMatchedIndex : list Z)
    (straysPos : list Pos3) (t : SlotTable) (i : nat) : SlotTable :=
  let status := <[i := TOOL_MISSING]> (LastStraysStatus t) in
  if negb (minMatchedIndex !!! i =? noMatchFlag)
  then {| LastStraysPos := <[i := straysPos !!! Z.to_nat (minMatchedIndex !!! i)]> (LastStraysPos t);
          LastStraysStatus := <[i := TOOL_OK]> status;
          unusedStrays := unusedStrays t |}
  else
    match unusedStrays t with
    | u :: rest =>
        {| LastStraysPos := <[i := straysPos !!! Z.to_nat u]> (LastStraysPos t);
           LastStraysStatus := <[i := TOOL_OK]> status;
           unusedStrays := rest |}
    | [] =>
        {| LastStraysPos := LastStraysPos t;
           LastStraysStatus := status;
           unusedStrays := [] |}
    end.

(** [UpdateLastStraysData] *)
Definition UpdateLastStraysData (MaxNumberOfStrays numberOfStrays : nat)
    (noMatchFlag : Z) (minMatchedIndex : list Z) (straysPos : list Pos3)
    (pos : list Pos3) (status : list ToolStatus) : SlotTable :=
  fold_left (updateSlot noMatchFlag minMatchedIndex straysPos)
            (seq 0 MaxNumberOfStrays)
            {| LastStraysPos := pos;
               LastStraysStatus := status;
               unusedStrays := unusedStraysOf numberOfStrays minMatchedIndex |}.

(** The stray block of [InternalUpdate], entered when [MaxNumberOfStrays > 0]:
    [straysPos] are the passive positions the tracker reported, and nothing
    changes when there is none. *)
Definition updateStrays (fuel : nat) (MaxNumberOfStrays : nat)
    (straysPos : list Pos3) (pos : list Pos3) (status : list ToolStatus)
    : option (list Pos3 * list ToolStatus) :=
  let numberOfStrays := length straysPos in
  if (0 <? numberOfStrays)%nat then
    let maxDistance := DBL_MAX in
    let noMatchFlag := INT_MAX in
    let distanceToLastMarkers :=
      SortDistanceStrays
        (GetDistanceStrays MaxNumberOfStrays numberOfStrays pos maxDistance straysPos) in
    match MatchStrays MaxNumberOfStrays numberOfStrays noMatchFlag maxDistance
                      distanceToLastMarkers fuel with
    | Some minMatchedIndex =>
        let t := UpdateLastStraysData MaxNumberOfStrays numberOfStrays noMatchFlag
                                      minMatchedIndex straysPos pos status in
        Some (LastStraysPos t, LastStraysStatus t)
    | None => None
    end
  else Some (pos, status).

End Strays.

(** ** The vocabulary of the stray matcher's properties *)

Module StraysSpec.
Import Strays.

(** The place of an observation among the candidates of a row. *)
Fixpoint indexOfObservation (o : Z) (candidates : list Candidate) : nat :=
  match candidates with
  | [] => 0
  | c :: candidates' => if c.1 =? o then 0 else S (indexOfObservation o candidates')
  end.

Section Table.

Variable M N : nat.
Variable noMatchFlag : Z.
Variable maxDistance : float.
Variable rows : list (list Candidate).

(** [distanceToLastMarkers[i][j]] *)
Definition candidateAt (i j : nat) : Candidate := (rows !!! i) !!! j.

(** A row all of whose distances are the sentinel, and a row none of whose
    distances is. *)
Definition dead (i : nat) : Prop :=
  forall j, (j < N)%nat -> PrimFloat.eqb (candidateAt i j).2 maxDistance = true.

Definition live (i : nat) : Prop :=
  forall j, (j < N)%nat -> PrimFloat.eqb (candidateAt i j).2 maxDistance = false.

(** What every round of conflict resolution keeps: a slot with a dead row
    has no claim; a slot with a live row and no claim has every candidate
    blocked (another slot holds it at a smaller distance); a slot with a claim
    holds a candidate of its row, and every candidate before that one is
    blocked. *)
Record Inv (s : MatchState) : Prop := mkInv {
  inv_indices : length (minMatchedIndex s) = M;
  inv_distances : length (minDistance s) = M;
  inv_dead :
    forall k, (k < M)%nat -> dead k -> minMatchedIndex s !!! k = noMatchFlag;
  inv_exhausted :
    forall k, (k < M)%nat -> minMatchedIndex s !!! k = noMatchFlag -> live k ->
              forall j, (j < N)%nat -> betterMatchAlreadyExist M k (candidateAt k j) s = true;
  inv_holding :
    forall k, (k < M)%nat -> minMatchedIndex s !!! k <> noMatchFlag ->
              exists j, (j < N)%nat
                        /\ candidateAt k j = (minMatchedIndex s !!! k, minDistance s !!! k)
                        /\ forall j', (j' < j)%nat ->
                                      betterMatchAlreadyExist M k (candidateAt k j') s = true
}.

(** How the scan of a slot ends: the slot keeps what it has, or it holds a
    claim and gives it up because every candidate is blocked, or it holds a
    claim and moves on to the first candidate that is not blocked. *)
Inductive Outcome (i : nat) (s : MatchState) : MatchState * bool -> Prop :=
  | KeepsClaim : Outcome i s (s, false)
  | GivesUp :
      minMatchedIndex s !!! i <> noMatchFlag ->
      (forall j, (j < N)%nat -> betterMatchAlreadyExist M i (candidateAt i j) s = true) ->
      Outcome i s (assign i (noMatchFlag, maxDistance) s, false)
  | MovesOn (j : nat) :
      minMatchedIndex s !!! i <> noMatchFlag ->
      (j < N)%nat ->
      (forall j', (j' < j)%nat -> betterMatchAlreadyExist M i (candidateAt i j') s = true) ->
      betterMatchAlreadyExist M i (candidateAt i j) s = false ->
      minMatchedIndex s !!! i <> (candidateAt i j).1 ->
      Outcome i s (assign i (candidateAt i j) s, true).

(** The initial claim of one slot. *)
Definition claimNearest (s : MatchState) (i : nat) : MatchState :=
  if fne (candidateAt i 0).2 maxDistance then assign i (candidateAt i 0) s else s.

(** How far a slot has gone down its row: the place of its claim, or the
    length of the row once it has no claim; and the sum over the slots. *)
Definition slotRank (s : MatchState) (k : nat) : nat :=
  if minMatchedIndex s !!! k =? noMatchFlag then N
  else indexOfObservation (minMatchedIndex s !!! k) (rows !!! k).

Definition rank (s : MatchState) : nat := sum_list_with (slotRank s) (seq 0 M).

End Table.

Section Distances.

Variable M N : nat.
Variable maxDistance : float.
Variable P C : list Pos3.

(** The distance of slot [i] to observation [j], as [GetDistanceStrays]
    fills it in. *)
Definition distanceAt (i j : nat) : float :=
  if isObserved (P !!! i) then distanceTo (P !!! i) (C !!! j) else maxDistance.

Definition unsortedRow (i : nat) : list Candidate :=
  (fun j => (Z.of_nat j, distanceAt i j)) <$> seq 0 N.

(** The table [MatchStrays] is given. *)
Definition sortedRows : list (list Candidate) :=
  SortDistanceStrays (GetDistanceStrays M N P maxDistance C).

End Distances.

(** The slots of a list that ended without a match. *)
Definition unmatchedAmong (noMatchFlag : Z) (matched : list Z) (slots : list nat) : list nat :=
  filter (fun i => matched !!! i = noMatchFlag) slots.

(** The empty slots, in order: those whose position is the zero vector. *)
Definition emptySlots (pos : list Pos3) : list nat :=
  filter (fun i => isObserved (pos !!! i) = false) (seq 0 (length pos)).

(** No distance between an observed slot and an observation is the
    sentinel [DBL_MAX]. *)
Definition noSentinelDistance (pos straysPos : list Pos3) : Prop :=
  forall i j, (i < length pos)%nat -> (j < length straysPos)%nat ->
              isObserved (pos !!! i) = true ->
              PrimFloat.eqb (distanceTo (pos !!! i) (straysPos !!! j)) DBL_MAX = false.

(** The still-unused observations: the indices of the observations that no
    slot is matched to, in the order of the indices. *)
Definition unusedObservations (numberOfStrays : nat) (matched : list Z) : list Z :=
  filter (fun o => o ∉ matched) (Z.of_nat <$> seq 0 numberOfStrays).

(** The unused observations paired with the first empty slots, in order:
    the first unused observation with the first empty slot, and so on, for
    as long as there are both. *)
Definition leftovers (pos : list Pos3) (numberOfStrays : nat) (matched : list Z)
    : list (nat * Z) :=
  zip (emptySlots pos) (unusedObservations numberOfStrays matched).

End StraysSpec.

(** The order [SortDistanceStrays] leaves a row in. *)
Module StraysOrder.
Import Strays.

(** No candidate is followed by one at a strictly smaller distance. *)
Fixpoint ascending (l : list Candidate) : Prop :=
  match l with
  | a :: (b :: _) as rest => PrimFloat.ltb b.2 a.2 = false /\ ascending rest
  | _ => True
  end.

End StraysOrder.

Module StraysScenario.
Import Strays.

Definition previous : list Pos3 :=
  [(0, 0, 10); (10, 0, 10); (0, 10, 10)]%float.

Definition observed : list Pos3 :=
  [(0x1.999999999999ap-4, 0, 10); (0, 0x1.4666666666666p+3, 10)]%float.

Definition table : list (list Candidate) :=
  SortDistanceStrays (GetDistanceStrays 3 2 previous DBL_MAX observed).

(** One observed slot and two empty ones; the first observation is the
    marker of slot 1, the second is new. *)
Definition sparse : list Pos3 := [(0, 0, 10); (0, 0, 0); (0, 0, 0)]%float.

Definition sparseObserved : list Pos3 := [(0, 0, 10.5); (5, 5, 5)]%float.

(** Two slots at the same distance from the only observation. *)
Definition mirrored : list Pos3 := [(1, 0, 0); (-1, 0, 0)]%float.

Definition between : list Pos3 := [(0, 0, 0)]%float.

End StraysScenario.


(** ** The NDI tracker driver ([vtkPlusNDITracker]) *)

Module NDI.

(** Port-status bits, system-status bits, reply codes and LED states of the
    vendor header [ndicapi.h], which the driver includes. *)
Definition NDI_TOOL_IN_PORT : Z := 0x0001.
Definition NDI_INITIALIZED : Z := 0x0010.
Definition NDI_ENABLED : Z := 0x0020.
Definition NDI_OUT_OF_VOLUME : Z := 0x0040.
Definition NDI_PORT_OCCUPIED : Z := 0x0040.
Definition NDI_OKAY : Z := 0.
Definition NDI_BLANK : ascii := "B"%char.
Definition NDI_FLASH : ascii := "F"%char.
Definition NDI_SOLID : ascii := "S"%char.

(** [VIRTUAL_SROM_SIZE], the size of a tool definition image. *)
Definition VIRTUAL_SROM_SIZE : nat := 1024.

(** The value of a plain [char] as an [int]. Plain [char] is signed on the
    platforms the driver is built for, so a byte above 127 is a negative
    value. *)
Definition charCode (c : ascii) : Z :=
  let byte := Z.of_nat (nat_of_ascii c) in
  if byte <? 128 then byte else byte - 256.

(** The conversions between the integer types of the frame numbers and of
    the LED number. An [int] has 32 bits; an [unsigned long], the type of
    [LastFrameNumber], of what [ndiGetTXFrame] returns and of the frame number
    [ToolTimeStampedUpdate] takes, has 64 bits on the platform modelled.
    [toInt] is the value an [int] holds after a conversion or an addition
    that wraps around (the addition of two [int]s is undefined when it
    overflows; the wrapped value is what the build platforms give). *)
Definition toInt (n : Z) : Z := (n + 2 ^ 31) mod 2 ^ 32 - 2 ^ 31.

Definition toUnsignedLong (n : Z) : Z := n mod 2 ^ 64.

(** [s[n]] on a [std::string] or a character buffer; the terminating zero
    is read past the last character. *)
Definition charAt (s : list ascii) (n : nat) : ascii := nth n s zero.

(** The commands the driver formats and sends with [ndiCommand]. *)
Inductive NdiCmd : Type :=
  | CmdTX (reply_option : Z)            (* "TX:1801", "TX:0801" *)
  | CmdTSTART                           (* "TSTART:" *)
  | CmdTSTOP                            (* "TSTOP:" *)
  | CmdPHSR (mode : Z)                  (* "PHSR:0m" *)
  | CmdPHF (portHandle : Z)             (* "PHF:%02X" *)
  | CmdPHRQ                             (* "PHRQ:*********1****" *)
  | CmdPINIT (portHandle : Z)           (* "PINIT:%02X" *)
  | CmdPENA (portHandle : Z) (mode : ascii)   (* "PENA:%02X%c" *)
  | CmdPHINF (portHandle : Z) (flags : Z)     (* "PHINF:%02X00ff" *)
  | CmdVER0                             (* " VER 0" *)
  | CmdPVWR (portHandle : Z) (offset : nat) (block : list ascii)  (* "PVWR:%02X%04X%.128s" *)
  | CmdBEEP (n : Z)                     (* "BEEP:%i" *)
  | CmdLED (portHandle : Z) (led : Z) (state : ascii).  (* "LED:%02X%d%c" *)

(** What the [ndiGet...] readers of the vendor library return once the
    device has answered: one field per reader the driver calls. *)
Record Reply : Type := mkReply {
  replyError : Z;                          (* ndiGetError *)
  replyPHSRNumberOfHandles : Z;            (* ndiGetPHSRNumberOfHandles *)
  replyPHSRHandle : Z -> Z;                (* ndiGetPHSRHandle(i) *)
  replyPHSRInformation : Z -> Z;           (* ndiGetPHSRInformation(i) *)
  replyPHRQHandle : Z;                     (* ndiGetPHRQHandle *)
  replyPHINFToolInfo : list ascii;         (* ndiGetPHINFToolInfo *)
  replyPHINFPartNumber : list ascii;       (* ndiGetPHINFPartNumber *)
  replyPHINFPortStatus : Z;                (* ndiGetPHINFPortStatus *)
  replyPHINFPortLocation : list ascii;     (* ndiGetPHINFPortLocation *)
  replyTXPassiveStrays : list (Z * Strays.Pos3);  (* ndiGetTXNumberOfPassiveStrays, ndiGetTXPassiveStray(i) *)
  replyTXTransform : Z -> list float -> Z * list float;
                                           (* ndiGetTXTransform(portHandle, transform): the
                                              result and the caller's array after the call *)
  replyTXPortStatus : Z -> Z;              (* ndiGetTXPortStatus(portHandle) *)
  replyTXFrame : Z -> Z;                   (* ndiGetTXFrame(portHandle) *)
  replyTXSystemStatus : Z                  (* ndiGetTXSystemStatus *)
}.

(** The device handle: the commands sent so far, and the device's
    behaviour, which fixes what the readers return after any sequence of
    commands. *)
Record NdiDevice : Type := mkNdiDevice {
  behaviour : list NdiCmd -> Reply;
  history : list NdiCmd
}.

Definition ndiCommand (d : NdiDevice) (c : NdiCmd) : NdiDevice :=
  {| behaviour := behaviour d; history := history d ++ [c] |}.

Definition readers (d : NdiDevice) : Reply := behaviour d (history d).

Definition ndiGetError (d : NdiDevice) : Z := replyError (readers d).

(** [NdiToolDescriptor] *)
Record NdiToolDescriptor : Type := mkNdiToolDescriptor {
  WiredPortNumber : Z;
  VirtualSROM : option (list ascii);   (* NULL, or the 1024-byte image *)
  PortEnabled : bool;
  PortHandle : Z
}.

Definition setPortHandle (h : Z) (td : NdiToolDescriptor) : NdiToolDescriptor :=
  {| WiredPortNumber := WiredPortNumber td; VirtualSROM := VirtualSROM td;
     PortEnabled := PortEnabled td; PortHandle := h |}.

Definition setPortEnabled (b : bool) (td : NdiToolDescriptor) : NdiToolDescriptor :=
  {| WiredPortNumber := WiredPortNumber td; VirtualSROM := VirtualSROM td;
     PortEnabled := b; PortHandle := PortHandle td |}.

(** The kinds of [vtkPlusDataSource] the driver tells apart. *)
Inductive DataSourceType : Type :=
  | DATA_SOURCE_TYPE_TOOL
  | DATA_SOURCE_TYPE_STRAYMARKER
  | DATA_SOURCE_TYPE_OTHER.

(** A [vtkPlusDataSource] as far as the driver uses it. *)
Record DataSource : Type := mkDataSource {
  sourceType : DataSourceType;
  customProperties : list (string * string)
}.

(** A [std::map<std::string, V>]: the entries in key order. *)
Definition StringMap (V : Type) : Type := list (string * V).

Fixpoint mapFind {V : Type} (key : string) (m : StringMap V) : option V :=
  match m with
  | [] => None
  | (k, v) :: m' => if String.eqb k key then Some v else mapFind key m'
  end.

Fixpoint mapSet {V : Type} (key : string) (v : V) (m : StringMap V) : StringMap V :=
  match m with
  | [] => []
  | (k, w) :: m' => if String.eqb k key then (k, v) :: m' else (k, w) :: mapSet key v m'
  end.

(** The matrix handed to [ToolTimeStampedUpdate]: the identity, or the
    transpose of what [ndiTransformToMatrixd] makes of an 8-tuple. *)
Inductive ToolMatrix : Type :=
  | IdentityMatrix
  | FromNdiTransform (ndiTransform : list float).

(** One call of [ToolTimeStampedUpdate]. *)
Record ToolUpdate : Type := mkToolUpdate {
  updateId : string;
  updateMatrix : ToolMatrix;
  updateFlags : ToolStatus;
  updateFrameNumber : Z;
  updateTimestamp : float
}.

(** The members of [vtkPlusNDITracker] (and of its base class) the modelled
    methods read or write. *)
Record Tracker : Type := mkTracker {
  Device : NdiDevice;
  Recording : bool;
  IsDeviceTracking : bool;
  MaxNumberOfStrays : Z;
  LastStraysPos : list Strays.Pos3;
  LastStraysStatus : list ToolStatus;
  LastFrameNumber : Z;
  NdiToolDescriptors : StringMap NdiToolDescriptor;
  Tools : StringMap DataSource;
  Published : list ToolUpdate
}.

Definition withDevice (d : NdiDevice) (t : Tracker) : Tracker :=
  {| Device := d; Recording := Recording t; IsDeviceTracking := IsDeviceTracking t;
     MaxNumberOfStrays := MaxNumberOfStrays t; LastStraysPos := LastStraysPos t;
     LastStraysStatus := LastStraysStatus t; LastFrameNumber := LastFrameNumber t;
     NdiToolDescriptors := NdiToolDescriptors t; Tools := Tools t;
     Published := Published t |}.

Definition withDescriptors (m : StringMap NdiToolDescriptor) (t : Tracker) : Tracker :=
  {| Device := Device t; Recording := Recording t; IsDeviceTracking := IsDeviceTracking t;
     MaxNumberOfStrays := MaxNumberOfStrays t; LastStraysPos := LastStraysPos t;
     LastStraysStatus := LastStraysStatus t; LastFrameNumber := LastFrameNumber t;
     NdiToolDescriptors := m; Tools := Tools t; Published := Published t |}.

Definition withTools (m : StringMap DataSource) (t : Tracker) : Tracker :=
  {| Device := Device t; Recording := Recording t; IsDeviceTracking := IsDeviceTracking t;
     MaxNumberOfStrays := MaxNumberOfStrays t; LastStraysPos := LastStraysPos t;
     LastStraysStatus := LastStraysStatus t; LastFrameNumber := LastFrameNumber t;
     NdiToolDescriptors := NdiToolDescriptors t; Tools := m; Published := Published t |}.

Definition withStrays (pos : list Strays.Pos3) (status : list ToolStatus) (t : Tracker) : Tracker :=
  {| Device := Device t; Recording := Recording t; IsDeviceTracking := IsDeviceTracking t;
     MaxNumberOfStrays := MaxNumberOfStrays t; LastStraysPos := pos;
     LastStraysStatus := status; LastFrameNumber := LastFrameNumber t;
     NdiToolDescriptors := NdiToolDescriptors t; Tools := Tools t;
     Published := Published t |}.

Definition withLastFrameNumber (n : Z) (t : Tracker) : Tracker :=
  {| Device := Device t; Recording := Recording t; IsDeviceTracking := IsDeviceTracking t;
     MaxNumberOfStrays := MaxNumberOfStrays t; LastStraysPos := LastStraysPos t;
     LastStraysStatus := LastStraysStatus t; LastFrameNumber := n;
     NdiToolDescriptors := NdiToolDescriptors t; Tools := Tools t;
     Published := Published t |}.

(** [ToolTimeStampedUpdate]: the sample goes to the tool's buffer. *)
Definition ToolTimeStampedUpdate (u : ToolUpdate) (t : Tracker) : Tracker :=
  {| Device := Device t; Recording := Recording t; IsDeviceTracking := IsDeviceTracking t;
     MaxNumberOfStrays := MaxNumberOfStrays t; LastStraysPos := LastStraysPos t;
     LastStraysStatus := LastStraysStatus t; LastFrameNumber := LastFrameNumber t;
     NdiToolDescriptors := NdiToolDescriptors t; Tools := Tools t;
     Published := Published t ++ [u] |}.

(** [ndiCommand(this->Device, ...)] *)
Definition command (c : NdiCmd) (t : Tracker) : Tracker :=
  withDevice (ndiCommand (Device t) c) t.

(** [ndiGetError(this->Device)] is non-zero. *)
Definition failed (t : Tracker) : bool := negb (ndiGetError (Device t) =? 0).

(** The result of a method that may read a vector outside its bounds (the
    behaviour of the program is then undefined) or contain a loop whose
    number of rounds the device decides ([fuel] bounds them). *)
Inductive Result (A : Type) : Type :=
  | Ok (a : A)
  | OutOfRange
  | OutOfFuel.
Arguments Ok {A} a.
Arguments OutOfRange {A}.
Arguments OutOfFuel {A}.

(** [v[i]] on a [std::vector] with an [int] index. *)
Definition vectorAt {A : Type} (v : list A) (i : Z) : option A :=
  if i <? 0 then None else v !! Z.to_nat i.

(** *** [UpdatePortHandle] *)

(** The search of a wired tool's port among the handles [PHSR:00] listed;
    the last component is [ndiToolIndex] when the loop is left. *)
Fixpoint findWiredPortHandle (remaining : nat) (ndiToolIndex : Z)
    (td : NdiToolDescriptor) (d : NdiDevice) : NdiDevice * NdiToolDescriptor * Z :=
  match remaining with
  | O => (d, td, ndiToolIndex)
  | S remaining' =>
      if negb (Z.land (replyPHSRInformation (readers d) ndiToolIndex) NDI_TOOL_IN_PORT =? 0)
      then
        let portHandle := replyPHSRHandle (readers d) ndiToolIndex in
        let d1 := ndiCommand d (CmdPHINF portHandle 0x0021) in
        let location := replyPHINFPortLocation (readers d1) in
        let foundWiredPortNumber :=
          (charCode (charAt location 10) - 48) * 10 + (charCode (charAt location 11) - 48) - 1 in
        let foundWiredPortChannel :=
          (charCode (charAt location 12) - 48) * 10 + (charCode (charAt location 13) - 48) in
        let combinedPortAndChannelNumber := foundWiredPortChannel * 100 + foundWiredPortNumber in
        if WiredPortNumber td =? combinedPortAndChannelNumber
        then (d1, setPortHandle portHandle td, ndiToolIndex)
        else findWiredPortHandle remaining' (ndiToolIndex + 1) td d1
      else findWiredPortHandle remaining' (ndiToolIndex + 1) td d
  end.

Definition UpdatePortHandle (td : NdiToolDescriptor) (d : NdiDevice)
    : NdiDevice * NdiToolDescriptor * PlusStatus :=
  if 0 <=? WiredPortNumber td then
    let d1 := ndiCommand d (CmdPHSR 0) in
    let ntools := replyPHSRNumberOfHandles (readers d1) in
    let '(d2, td2, ndiToolIndex) := findWiredPortHandle (Z.to_nat ntools) 0 td d1 in
    if ndiToolIndex =? ntools then (d2, td2, PLUS_FAIL)
    else if negb (ndiGetError d2 =? 0) then (d2, td2, PLUS_FAIL)
    else (d2, td2, PLUS_SUCCESS)
  else
    let d1 := ndiCommand d CmdPHRQ in
    let td1 := setPortHandle (replyPHRQHandle (readers d1)) td in
    if negb (ndiGetError d1 =? 0) then (d1, td1, PLUS_FAIL)
    else (d1, td1, PLUS_SUCCESS).

(** *** [SendSromToTracker] *)

Definition TRANSFER_BLOCK_SIZE : nat := 64.

Definition SendSromToTracker (td : NdiToolDescriptor) (d : NdiDevice)
    : NdiDevice * PlusStatus :=
  match VirtualSROM td with
  | None => (d, PLUS_SUCCESS)
  | Some srom =>
      let d1 :=
        fold_left
          (fun d0 block =>
             let i := (block * TRANSFER_BLOCK_SIZE)%nat in
             ndiCommand (ndiCommand d0 CmdVER0)
                        (CmdPVWR (PortHandle td) i (take TRANSFER_BLOCK_SIZE (drop i srom))))
          (seq 0 (VIRTUAL_SROM_SIZE / TRANSFER_BLOCK_SIZE)%nat)
          d in
      if negb (ndiGetError d1 =? 0) then (d1, PLUS_FAIL) else (d1, PLUS_SUCCESS)
  end.

(** *** [EnableToolPorts] *)

(** "free ports that are waiting to be freed" and the body of "initialize
    ports waiting to be initialized": one command per listed handle; the
    last component is [errnum] after the loop. *)
Fixpoint commandEachHandle (cmd : Z -> NdiCmd) (remaining : nat) (ndiToolIndex : Z)
    (d : NdiDevice) (status : PlusStatus) (errnum : Z) : NdiDevice * PlusStatus * Z :=
  match remaining with
  | O => (d, status, errnum)
  | S remaining' =>
      let portHandle := replyPHSRHandle (readers d) ndiToolIndex in
      let d1 := ndiCommand d (cmd portHandle) in
      let errnum1 := ndiGetError d1 in
      commandEachHandle cmd remaining' (ndiToolIndex + 1) d1
        (if negb (errnum1 =? 0) then PLUS_FAIL else status) errnum1
  end.

(** The two loops over the descriptors that resolve port handles and upload
    ROM images; the first failure ends [EnableToolPorts]. *)
Fixpoint resolvePortHandles (select : NdiToolDescriptor -> bool)
    (m : StringMap NdiToolDescriptor) (d : NdiDevice)
    : StringMap NdiToolDescriptor * NdiDevice * PlusStatus :=
  match m with
  | [] => ([], d, PLUS_SUCCESS)
  | (id, td) :: m' =>
      if select td then
        let '(d1, td1, updated) := UpdatePortHandle td d in
        match updated with
        | PLUS_FAIL => ((id, td1) :: m', d1, PLUS_FAIL)
        | PLUS_SUCCESS =>
            let '(d2, sent) := SendSromToTracker td1 d1 in
            match sent with
            | PLUS_FAIL => ((id, td1) :: m', d2, PLUS_FAIL)
            | PLUS_SUCCESS =>
                let '(m'', d3, status) := resolvePortHandles select m' d2 in
                ((id, td1) :: m'', d3, status)
            end
        end
      else
        let '(m'', d1, status) := resolvePortHandles select m' d in
        ((id, td) :: m'', d1, status)
  end.

(** "initialize ports waiting to be initialized": the [do ... while]. *)
Fixpoint initializePorts (fuel : nat) (d : NdiDevice) (status : PlusStatus) (errnum : Z)
    : Result (NdiDevice * PlusStatus) :=
  match fuel with
  | O => OutOfFuel
  | S fuel' =>
      let d1 := ndiCommand d (CmdPHSR 2) in
      let ntools := replyPHSRNumberOfHandles (readers d1) in
      let '(d2, status2, errnum2) :=
        commandEachHandle CmdPINIT (Z.to_nat ntools) 0 d1 status errnum in
      if (0 <? ntools) && (errnum2 =? 0)
      then initializePorts fuel' d2 status2 errnum2
      else Ok (d2, status2)
  end.

(** "enable initialized tools" *)
Fixpoint enablePorts (remaining : nat) (ndiToolIndex : Z) (d : NdiDevice)
    (status : PlusStatus) : NdiDevice * PlusStatus :=
  match remaining with
  | O => (d, status)
  | S remaining' =>
      let portHandle := replyPHSRHandle (readers d) ndiToolIndex in
      let d1 := ndiCommand d (CmdPHINF portHandle 0x0001) in
      let identity := replyPHINFToolInfo (readers d1) in
      let mode :=
        if charCode (charAt identity 1) =? 0x03 then "B"%char
        else if charCode (charAt identity 1) =? 0x01 then "S"%char
        else "D"%char in
      let d2 := ndiCommand d1 (CmdPENA portHandle mode) in
      enablePorts remaining' (ndiToolIndex + 1) d2
        (if negb (ndiGetError d2 =? 0) then PLUS_FAIL else status)
  end.

(** The characters of a C string: those before the first zero. *)
Fixpoint upToZero (buffer : list ascii) : list ascii :=
  match buffer with
  | [] => []
  | c :: rest => if Ascii.eqb c zero then [] else c :: upToZero rest
  end.

(** [std::string s(&buffer[from])] once [buffer[upto]] has been set to zero. *)
Definition cstringAt (buffer : list ascii) (from upto : nat) : list ascii :=
  upToZero (take (upto - from) (drop from buffer)).

(** Modelled from the spec: [PlusCommon::Trim] is not in the sources at
    hand; the identity fields are recorded "trimmed", white space removed at
    both ends. *)
Definition isSpace (c : ascii) : bool :=
  Ascii.eqb c " "%char || Ascii.eqb c "009"%char || Ascii.eqb c "010"%char || Ascii.eqb c "013"%char.

Fixpoint dropSpaces (s : list ascii) : list ascii :=
  match s with
  | [] => []
  | c :: rest => if isSpace c then dropSpaces rest else s
  end.

Definition Trim (s : list ascii) : string :=
  string_of_list_ascii (rev (dropSpaces (rev (dropSpaces s)))).

(** Modelled from the spec: [GetTool] of the base class [vtkPlusDevice] is
    not in the sources at hand; it finds the data source of a source id among
    the device's tools and fails when there is none. *)
Definition GetTool (id : string) (t : Tracker) : option DataSource := mapFind id (Tools t).

(** Modelled from the spec: [SetCustomProperty] of [vtkPlusDataSource] is not
    in the sources at hand; it records a named property of the tool. *)
Definition SetCustomProperty (key value : string) (tool : DataSource) : DataSource :=
  {| sourceType := sourceType tool;
     customProperties := (key, value) :: customProperties tool |}.

(** The value of the enumerator [PLUS_FAIL] when stored in an [int]. *)
Definition PLUS_FAIL_int : Z := 0.

(** "Update tool info": the loop over the descriptors.  The [int status]
    declared inside the loop body hides the function's [status]: the
    assignment that follows "Failed to enable NDI tool" writes the inner
    variable, which is [portStatus] below. *)
Fixpoint updateToolInfo (m : StringMap NdiToolDescriptor) (t : Tracker) (status : PlusStatus)
    : StringMap NdiToolDescriptor * Tracker * PlusStatus :=
  match m with
  | [] => ([], t, status)
  | (id, td) :: m' =>
      match GetTool id t with
      | None =>
          let '(m'', t', status') := updateToolInfo m' t PLUS_FAIL in
          ((id, td) :: m'', t', status')
      | Some trackerTool =>
          let t1 := command (CmdPHINF (PortHandle td) 0x0025) t in
          if failed t1 then
            let '(m'', t', status') := updateToolInfo m' t1 PLUS_FAIL in
            ((id, td) :: m'', t', status')
          else
            let identity := replyPHINFToolInfo (readers (Device t1)) in
            let tool1 := SetCustomProperty "SerialNumber" (Trim (cstringAt identity 23 31)) trackerTool in
            let tool2 := SetCustomProperty "Revision" (Trim (cstringAt identity 20 23)) tool1 in
            let tool3 := SetCustomProperty "Manufacturer" (Trim (cstringAt identity 8 20)) tool2 in
            let tool4 := SetCustomProperty "NdiIdentity" (Trim (cstringAt identity 0 8)) tool3 in
            let partNumber := replyPHINFPartNumber (readers (Device t1)) in
            let tool5 := SetCustomProperty "PartNumber" (Trim (cstringAt partNumber 0 20)) tool4 in
            let t2 := withTools (mapSet id tool5 (Tools t1)) t1 in
            let portStatus := replyPHINFPortStatus (readers (Device t2)) in
            let td1 := setPortEnabled (negb (Z.land portStatus NDI_ENABLED =? 0)) td in
            let portStatus' := if negb (PortEnabled td1) then PLUS_FAIL_int else portStatus in
            let '(m'', t', status') := updateToolInfo m' t2 status in
            ((id, td1) :: m'', t', status')
      end
  end.

Definition hasVirtualSROM (td : NdiToolDescriptor) : bool :=
  match VirtualSROM td with Some _ => true | None => false end.

Definition EnableToolPorts (fuel : nat) (t : Tracker) : Result (Tracker * PlusStatus) :=
  let status := PLUS_SUCCESS in
  (* stop tracking *)
  let '(t1, status1) :=
    if IsDeviceTracking t then
      let t' := command CmdTSTOP t in
      (t', if failed t' then PLUS_FAIL else status)
    else (t, status) in
  (* free ports that are waiting to be freed *)
  let t2 := command (CmdPHSR 1) t1 in
  let '(d3, status3, _) :=
    commandEachHandle CmdPHF
      (Z.to_nat (replyPHSRNumberOfHandles (readers (Device t2)))) 0 (Device t2) status1 0 in
  (* set port handles and send SROM files to tracker *)
  let '(m4, d4, resolved4) := resolvePortHandles hasVirtualSROM (NdiToolDescriptors t2) d3 in
  let t4 := withDescriptors m4 (withDevice d4 t2) in
  match resolved4 with
  | PLUS_FAIL => Ok (t4, PLUS_FAIL)
  | PLUS_SUCCESS =>
      (* initialize ports waiting to be initialized *)
      match initializePorts fuel d4 status3 0 with
      | OutOfFuel => OutOfFuel
      | OutOfRange => OutOfRange
      | Ok (d5, status5) =>
          (* enable initialized tools *)
          let d6 := ndiCommand d5 (CmdPHSR 3) in
          let '(d7, status7) :=
            enablePorts (Z.to_nat (replyPHSRNumberOfHandles (readers d6))) 0 d6 status5 in
          (* set wired port handles and send SROM files to tracker *)
          let '(m8, d8, resolved8) :=
            resolvePortHandles
              (fun td => (0 <=? WiredPortNumber td) && negb (hasVirtualSROM td)) m4 d7 in
          let t8 := withDescriptors m8 (withDevice d8 t4) in
          match resolved8 with
          | PLUS_FAIL => Ok (t8, PLUS_FAIL)
          | PLUS_SUCCESS =>
              (* update tool info *)
              let t9 := command (CmdPHSR 0) t8 in
              let '(m10, t10, status10) := updateToolInfo (NdiToolDescriptors t9) t9 status7 in
              let t11 := withDescriptors m10 t10 in
              (* re-start the tracking *)
              if IsDeviceTracking t11 then
                let t12 := command CmdTSTART t11 in
                Ok (t12, if failed t12 then PLUS_FAIL else status10)
              else Ok (t11, status10)
          end
      end
  end.

(** *** [Beep] and [SetToolLED] *)

Definition Beep (n : Z) (t : Tracker) : Tracker * PlusStatus :=
  if Recording t then (t, PLUS_FAIL)
  else
    let n1 := if 9 <? n then 9 else n in
    let n2 := if n1 <? 0 then 0 else n1 in
    (command (CmdBEEP n2) t, PLUS_SUCCESS).

(** [LedState]; [TR_LED_other] stands for any value outside the enumerators. *)
Inductive LedState : Type := TR_LED_OFF | TR_LED_ON | TR_LED_FLASH | TR_LED_other.

Definition SetToolLED (sourceId : string) (led : Z) (state : LedState) (t : Tracker)
    : Tracker * PlusStatus :=
  if negb (Recording t) then (t, PLUS_FAIL)
  else
    match mapFind sourceId (NdiToolDescriptors t) with
    | None => (t, PLUS_FAIL)
    | Some td =>
        let portHandle := PortHandle td in
        if portHandle <=? 0 then (t, PLUS_FAIL)
        else
          match
            match state with
            | TR_LED_OFF => Some NDI_BLANK
            | TR_LED_ON => Some NDI_SOLID
            | TR_LED_FLASH => Some NDI_FLASH
            | TR_LED_other => None
            end
          with
          | None => (t, PLUS_FAIL)
          | Some plstate =>
              (* led + 1, both [int]s *)
              (command (CmdLED portHandle (toInt (led + 1)) plstate) t, PLUS_SUCCESS)
          end
    end.

(** *** [InternalUpdate] *)

(** "convert status flags from NDI to Plus format" *)
Definition toolFlagsOf (ndiPortStatus ndiToolAbsent : Z) : ToolStatus :=
  let ndiPortStatusValidFlags := Z.lor (Z.lor NDI_TOOL_IN_PORT NDI_INITIALIZED) NDI_ENABLED in
  if negb (Z.land ndiPortStatus ndiPortStatusValidFlags =? ndiPortStatusValidFlags)
  then TOOL_MISSING
  else
    let toolFlags := TOOL_OK in
    let toolFlags1 := if negb (ndiToolAbsent =? 0) then TOOL_OUT_OF_VIEW else toolFlags in
    let toolFlags2 :=
      if negb (Z.land ndiPortStatus NDI_OUT_OF_VOLUME =? 0) then TOOL_OUT_OF_VOLUME
      else toolFlags1 in
    toolFlags2.

(** [toolSourceId[5] - '0'] and [toolSourceId[6] - '0'] read as a two-digit
    number. *)
Definition strayMarkerIndexOf (toolSourceId : string) : Z :=
  let id := list_ascii_of_string toolSourceId in
  let strayMarkerParsedIndex0 := charCode (charAt id 5) - 48 in
  let strayMarkerParsedIndex1 := charCode (charAt id 6) - 48 in
  strayMarkerParsedIndex0 * 10 + strayMarkerParsedIndex1.

(** The body of the loop over the tools. *)
Definition updateTool (defaultToolFrameNumber : Z) (toolTimestamp : float)
    (t : Tracker) (toolSourceId : string) (trackerTool : DataSource) : Result Tracker :=
  let toolFlags := TOOL_OK in
  (* unsigned long toolFrameNumber = defaultToolFrameNumber, an [int] *)
  let toolFrameNumber := toUnsignedLong defaultToolFrameNumber in
  match sourceType trackerTool with
  | DATA_SOURCE_TYPE_TOOL =>
      match mapFind toolSourceId (NdiToolDescriptors t) with
      | None =>
          Ok (ToolTimeStampedUpdate
                (mkToolUpdate toolSourceId IdentityMatrix toolFlags toolFrameNumber toolTimestamp) t)
      | Some td =>
          let portHandle := PortHandle td in
          if portHandle <=? 0 then
            Ok (ToolTimeStampedUpdate
                  (mkToolUpdate toolSourceId IdentityMatrix toolFlags toolFrameNumber toolTimestamp) t)
          else
            let '(ndiToolAbsent, ndiTransform) :=
              replyTXTransform (readers (Device t)) portHandle [1; 0; 0; 0; 0; 0; 0; 0]%float in
            let ndiPortStatus := replyTXPortStatus (readers (Device t)) portHandle in
            let ndiFrameIndex := replyTXFrame (readers (Device t)) portHandle in
            let toolFlags1 := toolFlagsOf ndiPortStatus ndiToolAbsent in
            let '(toolFrameNumber1, t1) :=
              if (ndiToolAbsent =? 0) && negb (ndiFrameIndex =? 0) then
                (ndiFrameIndex,
                 if LastFrameNumber t <? ndiFrameIndex
                 then withLastFrameNumber ndiFrameIndex t else t)
              else (toolFrameNumber, t) in
            Ok (ToolTimeStampedUpdate
                  (mkToolUpdate toolSourceId (FromNdiTransform ndiTransform) toolFlags1
                                toolFrameNumber1 toolTimestamp) t1)
      end
  | DATA_SOURCE_TYPE_STRAYMARKER =>
      let strayMarkerIndex := strayMarkerIndexOf toolSourceId in
      if strayMarkerIndex <=? MaxNumberOfStrays t then
        match vectorAt (LastStraysPos t) (strayMarkerIndex - 1),
              vectorAt (LastStraysStatus t) (strayMarkerIndex - 1) with
        | Some (x, y, z), Some lastStatus =>
            let ndiTransform := [1; 0; 0; 0; x; y; z; 0]%float in
            let toolFlags1 :=
              match lastStatus with
              | TOOL_OK => TOOL_OK
              | TOOL_MISSING => TOOL_MISSING
              | _ => toolFlags
              end in
            Ok (ToolTimeStampedUpdate
                  (mkToolUpdate toolSourceId (FromNdiTransform ndiTransform) toolFlags1
                                toolFrameNumber toolTimestamp) t)
        | _, _ => OutOfRange
        end
      else
        Ok (ToolTimeStampedUpdate
              (mkToolUpdate toolSourceId IdentityMatrix TOOL_MISSING toolFrameNumber toolTimestamp) t)
  | DATA_SOURCE_TYPE_OTHER =>
      Ok (ToolTimeStampedUpdate
            (mkToolUpdate toolSourceId IdentityMatrix toolFlags toolFrameNumber toolTimestamp) t)
  end.

(** The loop over the tools, in the order of the tool container. *)
Fixpoint updateTools (defaultToolFrameNumber : Z) (toolTimestamp : float)
    (tools : StringMap DataSource) (t : Tracker) : Result Tracker :=
  match tools with
  | [] => Ok t
  | (toolSourceId, trackerTool) :: tools' =>
      match updateTool defaultToolFrameNumber toolTimestamp t toolSourceId trackerTool with
      | Ok t1 => updateTools defaultToolFrameNumber toolTimestamp tools' t1
      | OutOfRange => OutOfRange
      | OutOfFuel => OutOfFuel
      end
  end.

(** "get stray markers data": the positions the tracker could report. *)
Definition availableStrays (reported : list (Z * Strays.Pos3)) : list Strays.Pos3 :=
  omap (fun r => if negb (r.1 =? NDI_OKAY) then None else Some r.2) reported.

(** [InternalUpdate]; [toolTimestamp] is what [GetSystemTime] returns. *)
Definition InternalUpdate (fuel : nat) (toolTimestamp : float) (t : Tracker)
    : Result (Tracker * PlusStatus) :=
  if negb (IsDeviceTracking t) then Ok (t, PLUS_FAIL)
  else
    let t1 := command (CmdTX (if 0 <? MaxNumberOfStrays t then 0x1801 else 0x0801)) t in
    if failed t1 then Ok (t1, PLUS_FAIL)
    else
      match
        (if 0 <? MaxNumberOfStrays t1 then
           Strays.updateStrays fuel (Z.to_nat (MaxNumberOfStrays t1))
             (availableStrays (replyTXPassiveStrays (readers (Device t1))))
             (LastStraysPos t1) (LastStraysStatus t1)
         else Some (LastStraysPos t1, LastStraysStatus t1))
      with
      | None => OutOfFuel
      | Some (pos, status) =>
          let t2 := withStrays pos status t1 in
          (* this->LastFrameNumber++, on an [unsigned long] *)
          let t3 := withLastFrameNumber (toUnsignedLong (LastFrameNumber t2 + 1)) t2 in
          (* int defaultToolFrameNumber = this->LastFrameNumber *)
          let defaultToolFrameNumber := toInt (LastFrameNumber t3) in
          match updateTools defaultToolFrameNumber toolTimestamp (Tools t3) t3 with
          | OutOfRange => OutOfRange
          | OutOfFuel => OutOfFuel
          | Ok t4 =>
              if negb (Z.land (replyTXSystemStatus (readers (Device t4))) NDI_PORT_OCCUPIED =? 0)
              then
                match EnableToolPorts fuel t4 with
                | Ok (t5, _) => Ok (t5, PLUS_SUCCESS)
                | OutOfRange => OutOfRange
                | OutOfFuel => OutOfFuel
                end
              else Ok (t4, PLUS_SUCCESS)
          end
      end.

(** [ReadConfiguration], the sizing of the stray vectors. *)
Definition resizeStrays (t : Tracker) : Tracker :=
  if 0 <? MaxNumberOfStrays t then
    withStrays
      (resize (Z.to_nat (MaxNumberOfStrays t)) (0, 0, 0)%float (LastStraysPos t))
      (resize (Z.to_nat (MaxNumberOfStrays t)) TOOL_MISSING (LastStraysStatus t))
      t
  else t.

(** *** The classification of a tool's status, clause by clause *)

(** The port-status word contains all of TOOL_IN_PORT, INITIALIZED and
    ENABLED. *)
Definition portValid (ndiPortStatus : Z) : bool :=
  Z.land ndiPortStatus (Z.lor (Z.lor NDI_TOOL_IN_PORT NDI_INITIALIZED) NDI_ENABLED)
  =? Z.lor (Z.lor NDI_TOOL_IN_PORT NDI_INITIALIZED) NDI_ENABLED.

(** The OUT_OF_VOLUME bit of the port-status word is set. *)
Definition outOfVolume (ndiPortStatus : Z) : bool :=
  negb (Z.land ndiPortStatus NDI_OUT_OF_VOLUME =? 0).

(** The classification as the code orders it: the volume bit is looked at
    after the absence of the transform and overrides it. *)
Definition classified (ndiPortStatus ndiToolAbsent : Z) : ToolStatus :=
  if negb (portValid ndiPortStatus) then TOOL_MISSING
  else if outOfVolume ndiPortStatus then TOOL_OUT_OF_VOLUME
  else if negb (ndiToolAbsent =? 0) then TOOL_OUT_OF_VIEW
  else TOOL_OK.

End NDI.

(** ** The OpenIGTLink broadcast server ([vtkPlusOpenIGTLinkServer]) *)

Module Server.

Definition NUMBER_OF_RECENT_COMMAND_IDS_STORED : Z := 10.
Definition SAMPLING_SKIPPING_MARGIN_SEC : float := 0x1.999999999999ap-4%float.
Definition IGTL_HEADER_VERSION_1 : Z := 1.

(** [igtl::StatusMessage::STATUS_OK] *)
Definition STATUS_OK : Z := 1.

(** A [PlusTrackedFrame]: its timestamp and its named fields. *)
Record Frame : Type := mkFrame {
  Timestamp : float;
  Fields : list (string * string)
}.

Definition GetTimestamp (f : Frame) : float := Timestamp f.

Definition SetTimestamp (ts : float) (f : Frame) : Frame :=
  {| Timestamp := ts; Fields := Fields f |}.

(** The wire messages the modelled methods create. *)
Inductive Message : Type :=
  | StatusMessage (code : Z)
  | FrameMessage (messageType deviceName : string) (timestamp : float)
  | RTSTrackingDataMessage (status : Z)
  | PolyDataMessage (fileName : string) (polyData : string)
  | RTSPolyDataMessage (status : bool).

(** A client socket: what its coming [Send] calls will return, in order; a
    socket that has no more to say returns 0. *)
Definition Socket : Type := list Z.

Definition Send (sock : Socket) : Socket * Z :=
  match sock with
  | [] => ([], 0)
  | r :: rest => (rest, r)
  end.

(** [PlusIgtlClientInfo] *)
Record ClientInfoT : Type := mkClientInfo {
  ClientHeaderVersion : Z;
  TDATARequested : bool;
  Resolution : Z;
  LastTDATASentTimeStamp : float;
  Subscription : list string
}.

(** [ClientData] *)
Record ClientData : Type := mkClientData {
  ClientId : Z;
  ClientSocket : Socket;
  ClientInfo : ClientInfoT;
  DataReceiverActive : bool * bool;
  DataReceiverThreadId : Z
}.

Definition withSocket (sock : Socket) (c : ClientData) : ClientData :=
  {| ClientId := ClientId c; ClientSocket := sock; ClientInfo := ClientInfo c;
     DataReceiverActive := DataReceiverActive c;
     DataReceiverThreadId := DataReceiverThreadId c |}.

Definition withClientInfo (info : ClientInfoT) (c : ClientData) : ClientData :=
  {| ClientId := ClientId c; ClientSocket := ClientSocket c; ClientInfo := info;
     DataReceiverActive := DataReceiverActive c;
     DataReceiverThreadId := DataReceiverThreadId c |}.

Definition withLastTDATASentTimeStamp (ts : float) (info : ClientInfoT) : ClientInfoT :=
  {| ClientHeaderVersion := ClientHeaderVersion info; TDATARequested := TDATARequested info;
     Resolution := Resolution info; LastTDATASentTimeStamp := ts;
     Subscription := Subscription info |}.

(** One message handed to a client's socket, with the value the last
    [Send] of its retry loop returned (0: not delivered). *)
Record SendRecord : Type := mkSendRecord {
  sentTo : Z;
  sentMessage : Message;
  sentResult : Z
}.

(** The transform repository: the named transforms set so far. *)
Definition Repository : Type := list (string * string).

(** The broadcast channel of the data collector, as the sender reads it. *)
Record Channel : Type := mkChannel {
  HasVideoSource : bool;
  GetVideoDataAvailable : bool;
  ToolCount : Z;
  GetTrackingDataAvailable : bool;
  FieldCount : Z;
  GetFieldDataAvailable : bool;
  GetOldestTimestamp : option float;      (* the timestamp on PLUS_SUCCESS *)
  GetTrackedFrameList : float -> Z -> PlusStatus * list Frame * float
    (* from the timestamp of the last frame already got and the maximum
       number of frames: the status, the frames, the updated timestamp *)
}.

(** The members of [vtkPlusOpenIGTLinkServer] the modelled methods use, and
    the record of what went to the sockets. *)
Record ServerState : Type := mkServer {
  IgtlClients : list ClientData;
  TransformRepository : option Repository;
  BroadcastChannel : option Channel;
  LastSentTrackedFrameTimestamp : float;
  MaxTimeSpentWithProcessingMs : Z;
  LastProcessingTimePerFrameMs : Z;
  MaxNumberOfIgtlMessagesToSend : Z;
  NumberOfRetryAttempts : Z;
  SendValidTransformsOnly : bool;
  KeepAliveIntervalSec : float;
  Wire : list SendRecord
}.

Definition withClients (clients : list ClientData) (s : ServerState) : ServerState :=
  {| IgtlClients := clients; TransformRepository := TransformRepository s;
     BroadcastChannel := BroadcastChannel s;
     LastSentTrackedFrameTimestamp := LastSentTrackedFrameTimestamp s;
     MaxTimeSpentWithProcessingMs := MaxTimeSpentWithProcessingMs s;
     LastProcessingTimePerFrameMs := LastProcessingTimePerFrameMs s;
     MaxNumberOfIgtlMessagesToSend := MaxNumberOfIgtlMessagesToSend s;
     NumberOfRetryAttempts := NumberOfRetryAttempts s;
     SendValidTransformsOnly := SendValidTransformsOnly s;
     KeepAliveIntervalSec := KeepAliveIntervalSec s; Wire := Wire s |}.

Definition withWire (wire : list SendRecord) (s : ServerState) : ServerState :=
  {| IgtlClients := IgtlClients s; TransformRepository := TransformRepository s;
     BroadcastChannel := BroadcastChannel s;
     LastSentTrackedFrameTimestamp := LastSentTrackedFrameTimestamp s;
     MaxTimeSpentWithProcessingMs := MaxTimeSpentWithProcessingMs s;
     LastProcessingTimePerFrameMs := LastProcessingTimePerFrameMs s;
     MaxNumberOfIgtlMessagesToSend := MaxNumberOfIgtlMessagesToSend s;
     NumberOfRetryAttempts := NumberOfRetryAttempts s;
     SendValidTransformsOnly := SendValidTransformsOnly s;
     KeepAliveIntervalSec := KeepAliveIntervalSec s; Wire := wire |}.

Definition withRepository (repo : option Repository) (s : ServerState) : ServerState :=
  {| IgtlClients := IgtlClients s; TransformRepository := repo;
     BroadcastChannel := BroadcastChannel s;
     LastSentTrackedFrameTimestamp := LastSentTrackedFrameTimestamp s;
     MaxTimeSpentWithProcessingMs := MaxTimeSpentWithProcessingMs s;
     LastProcessingTimePerFrameMs := LastProcessingTimePerFrameMs s;
     MaxNumberOfIgtlMessagesToSend := MaxNumberOfIgtlMessagesToSend s;
     NumberOfRetryAttempts := NumberOfRetryAttempts s;
     SendValidTransformsOnly := SendValidTransformsOnly s;
     KeepAliveIntervalSec := KeepAliveIntervalSec s; Wire := Wire s |}.

Definition withLastSentTrackedFrameTimestamp (ts : float) (s : ServerState) : ServerState :=
  {| IgtlClients := IgtlClients s; TransformRepository := TransformRepository s;
     BroadcastChannel := BroadcastChannel s;
     LastSentTrackedFrameTimestamp := ts;
     MaxTimeSpentWithProcessingMs := MaxTimeSpentWithProcessingMs s;
     LastProcessingTimePerFrameMs := LastProcessingTimePerFrameMs s;
     MaxNumberOfIgtlMessagesToSend := MaxNumberOfIgtlMessagesToSend s;
     NumberOfRetryAttempts := NumberOfRetryAttempts s;
     SendValidTransformsOnly := SendValidTransformsOnly s;
     KeepAliveIntervalSec := KeepAliveIntervalSec s; Wire := Wire s |}.

Definition withLastProcessingTimePerFrameMs (ms : Z) (s : ServerState) : ServerState :=
  {| IgtlClients := IgtlClients s; TransformRepository := TransformRepository s;
     BroadcastChannel := BroadcastChannel s;
     LastSentTrackedFrameTimestamp := LastSentTrackedFrameTimestamp s;
     MaxTimeSpentWithProcessingMs := MaxTimeSpentWithProcessingMs s;
     LastProcessingTimePerFrameMs := ms;
     MaxNumberOfIgtlMessagesToSend := MaxNumberOfIgtlMessagesToSend s;
     NumberOfRetryAttempts := NumberOfRetryAttempts s;
     SendValidTransformsOnly := SendValidTransformsOnly s;
     KeepAliveIntervalSec := KeepAliveIntervalSec s; Wire := Wire s |}.

(** Modelled from the spec: the macro [RETRY_UNTIL_TRUE] is not in the
    sources at hand; "on send failure retry up to [NumberOfRetryAttempts]":
    the send is tried until it returns non-zero, at most that many times.
    The last component is [retValue], 0 before the first try. *)
Fixpoint retryUntilSent (attempts : nat) (sock : Socket) (retValue : Z) : Socket * Z :=
  match attempts with
  | O => (sock, retValue)
  | S attempts' =>
      let '(sock', r) := Send sock in
      if negb (r =? 0) then (sock', r) else retryUntilSent attempts' sock' r
  end.

(** What a retry loop leaves in the record of the sends: the message was
    handed to the socket, with the value its last [Send] returned, unless the
    loop made no try at all ([NumberOfRetryAttempts] is not positive), when
    nothing was handed to the socket. *)
Definition handed (attempts : nat) (r : SendRecord) : list SendRecord :=
  match attempts with
  | O => []
  | S _ => [r]
  end.

(** *** [DisconnectClient] *)

(** "Close socket and remove client from the list": the first client of
    that id goes. The wait for the client's receiver thread to acknowledge
    the stop request, which precedes it, is not a step of this model. *)
Fixpoint eraseClient (clientId : Z) (clients : list ClientData) : list ClientData :=
  match clients with
  | [] => []
  | c :: clients' =>
      if negb (ClientId c =? clientId) then c :: eraseClient clientId clients'
      else clients'
  end.

Definition DisconnectClient (clientId : Z) (s : ServerState) : ServerState :=
  withClients (eraseClient clientId (IgtlClients s)) s.

(** "Clean up disconnected clients" *)
Definition disconnectAll (disconnectedClientIds : list Z) (s : ServerState) : ServerState :=
  fold_left (fun s0 clientId => DisconnectClient clientId s0) disconnectedClientIds s.

(** *** [KeepAlive] *)

(** The loop over the clients: the clients after it, the new send records,
    and [disconnectedClientIds]. *)
Fixpoint keepAliveClients (attempts : nat) (clients : list ClientData)
    : list ClientData * list SendRecord * list Z :=
  match clients with
  | [] => ([], [], [])
  | c :: clients' =>
      let replyMsg := StatusMessage STATUS_OK in
      let '(sock, retValue) := retryUntilSent attempts (ClientSocket c) 0 in
      let '(rest, records, disconnectedClientIds) := keepAliveClients attempts clients' in
      (withSocket sock c :: rest,
       handed attempts (mkSendRecord (ClientId c) replyMsg retValue) ++ records,
       if retValue =? 0 then ClientId c :: disconnectedClientIds else disconnectedClientIds)
  end.

Definition KeepAlive (s : ServerState) : ServerState :=
  let '(clients, records, disconnectedClientIds) :=
    keepAliveClients (Z.to_nat (NumberOfRetryAttempts s)) (IgtlClients s) in
  disconnectAll disconnectedClientIds (withWire (Wire s ++ records) (withClients clients s)).

(** *** [SendTrackedFrame] and [SendLatestFramesToClients] *)

(** The conversion of a [double] to an [int] drops the fraction (the
    conversion is undefined outside the range of [int]; no wrap-around is
    applied here). *)
Definition truncToInt (x : float) : Z :=
  match Prim2SF x with
  | S754_finite sign m e =>
      let magnitude :=
        if 0 <=? e then Z.pos m * 2 ^ e else Z.quot (Z.pos m) (2 ^ (- e)) in
      if sign then - magnitude else magnitude
  | _ => 0
  end.

(** The conversion of a frame count to a [double]. *)
Definition countToDouble (n : nat) : float := PrimFloat.of_uint63 (Uint63.of_Z (Z.of_nat n)).

Section Sender.

(** [vtkPlusTransformRepository::SetTransforms]: reads the frame. *)
Variable SetTransforms : Repository -> Frame -> Repository * PlusStatus.

(** [vtkPlusIgtlMessageFactory::PackMessages]: the status and the messages
    packed for one client, [None] for a null message pointer. *)
Variable PackMessages :
  ClientInfoT -> Frame -> bool -> option Repository -> PlusStatus * list (option Message).

(** [vtkPlusAccurateTimer::GetUniversalTimeFromSystemTime] *)
Variable GetUniversalTimeFromSystemTime : float -> float.

(** "Send all messages to a client": the socket and the client info after
    the loop, the send records, and whether the client was found
    disconnected. *)
Fixpoint sendMessages (attempts : nat) (clientId : Z) (trackedFrame : Frame)
    (igtlMessages : list (option Message)) (sock : Socket) (info : ClientInfoT)
    : Socket * ClientInfoT * list SendRecord * bool :=
  match igtlMessages with
  | [] => (sock, info, [], false)
  | None :: igtlMessages' =>
      sendMessages attempts clientId trackedFrame igtlMessages' sock info
  | Some igtlMessage :: igtlMessages' =>
      let '(sock1, retValue) := retryUntilSent attempts sock 0 in
      if retValue =? 0
      then (sock1, info, handed attempts (mkSendRecord clientId igtlMessage retValue), true)
      else
        let info1 := withLastTDATASentTimeStamp (GetTimestamp trackedFrame) info in
        let '(sock2, info2, records, disconnected) :=
          sendMessages attempts clientId trackedFrame igtlMessages' sock1 info1 in
        (sock2, info2,
         handed attempts (mkSendRecord clientId igtlMessage retValue) ++ records,
         disconnected)
  end.

(** The loop over the clients of [SendTrackedFrame]. *)
Fixpoint sendFrameToClients (attempts : nat) (sendValidTransformsOnly : bool)
    (repo : option Repository) (trackedFrame : Frame) (clients : list ClientData)
    : list ClientData * list SendRecord * list Z :=
  match clients with
  | [] => ([], [], [])
  | c :: clients' =>
      let '(_, igtlMessages) :=
        PackMessages (ClientInfo c) trackedFrame sendValidTransformsOnly repo in
      let '(sock, info, records, disconnected) :=
        sendMessages attempts (ClientId c) trackedFrame igtlMessages
                     (ClientSocket c) (ClientInfo c) in
      let '(rest, records', disconnectedClientIds) :=
        sendFrameToClients attempts sendValidTransformsOnly repo trackedFrame clients' in
      (withClientInfo info (withSocket sock c) :: rest,
       records ++ records',
       if disconnected then ClientId c :: disconnectedClientIds else disconnectedClientIds)
  end.

(** [SendTrackedFrame]: the server and the caller's frame after the call,
    and the result. *)
Definition SendTrackedFrame (trackedFrame : Frame) (s : ServerState)
    : ServerState * Frame * PlusStatus :=
  let numberOfErrors := 0 in
  (* update transform repository with the tracked frame *)
  let '(s1, numberOfErrors1) :=
    match TransformRepository s with
    | Some repo =>
        let '(repo', set) := SetTransforms repo trackedFrame in
        (withRepository (Some repo') s,
         match set with PLUS_SUCCESS => numberOfErrors | PLUS_FAIL => numberOfErrors + 1 end)
    | None => (s, numberOfErrors)
    end in
  (* convert relative timestamp to UTC *)
  let timestampSystem := GetTimestamp trackedFrame in
  let timestampUniversal := GetUniversalTimeFromSystemTime timestampSystem in
  let trackedFrame1 := SetTimestamp timestampUniversal trackedFrame in
  let '(clients, records, disconnectedClientIds) :=
    sendFrameToClients (Z.to_nat (NumberOfRetryAttempts s1)) (SendValidTransformsOnly s1)
                       (TransformRepository s1) trackedFrame1 (IgtlClients s1) in
  let s2 := withWire (Wire s1 ++ records) (withClients clients s1) in
  (* clean up disconnected clients *)
  let s3 := disconnectAll disconnectedClientIds s2 in
  (* restore original timestamp *)
  let trackedFrame2 := SetTimestamp timestampSystem trackedFrame1 in
  (s3, trackedFrame2, if numberOfErrors1 =? 0 then PLUS_SUCCESS else PLUS_FAIL).

(** "Acquire tracked frames since last acquisition (minimum 1 frame)":
    the server once [LastProcessingTimePerFrameMs] is at least 1, and
    [numberOfFramesToGet]. *)
Definition raiseLastProcessingTime (s : ServerState) : ServerState :=
  if LastProcessingTimePerFrameMs s <? 1
  then withLastProcessingTimePerFrameMs 1 s
  else s.

(** [std::max] is given the quotient and the [int] literal 1, so both
    members are [int]s and the division is the truncating one. *)
Definition numberOfFramesToGet (s : ServerState) : Z :=
  let s1 := raiseLastProcessingTime s in
  let n := Z.max (Z.quot (MaxTimeSpentWithProcessingMs s1) (LastProcessingTimePerFrameMs s1)) 1 in
  Z.min n (MaxNumberOfIgtlMessagesToSend s1).

(** The channel has a source that has produced no data yet. *)
Definition noDataAvailable (ch : Channel) : bool :=
  (HasVideoSource ch && negb (GetVideoDataAvailable ch))
  || ((0 <? ToolCount ch) && negb (GetTrackingDataAvailable ch))
  || ((0 <? FieldCount ch) && negb (GetFieldDataAvailable ch)).

(** The frames one cycle takes from the channel, and the server after the
    pull. *)
Definition pullFrames (s : ServerState) : ServerState * list Frame :=
  let s1 := raiseLastProcessingTime s in
  match BroadcastChannel s1 with
  | None => (s1, [])
  | Some ch =>
      if noDataAvailable ch then (s1, [])
      else
        match GetOldestTimestamp ch with
        | None => (s1, [])
        | Some oldestDataTimestamp =>
            let s2 :=
              if PrimFloat.ltb (LastSentTrackedFrameTimestamp s1) oldestDataTimestamp
              then withLastSentTrackedFrameTimestamp
                     (oldestDataTimestamp + SAMPLING_SKIPPING_MARGIN_SEC)%float s1
              else s1 in
            let '(_, trackedFrameList, lastGot) :=
              GetTrackedFrameList ch (LastSentTrackedFrameTimestamp s2)
                                  (numberOfFramesToGet s) in
            (withLastSentTrackedFrameTimestamp lastGot s2, trackedFrameList)
        end
  end.

(** The loop that sends the pulled frames. *)
Definition sendFrames (frames : list Frame) (s : ServerState) : ServerState :=
  fold_left (fun s0 frame => (SendTrackedFrame frame s0).1.1) frames s.

(** [SendLatestFramesToClients]: [startTimeSec] and [endTimeSec] are what
    [GetSystemTime] returns at the start of the cycle and at its second
    call; the result carries [elapsedTimeSinceLastPacketSentSec]. *)
Definition SendLatestFramesToClients (s : ServerState)
    (elapsedTimeSinceLastPacketSentSec startTimeSec endTimeSec : float)
    : ServerState * float * PlusStatus :=
  let '(s1, trackedFrameList) := pullFrames s in
  match trackedFrameList with
  | [] =>
      (* there is no new frame in the buffer *)
      let elapsed := (elapsedTimeSinceLastPacketSentSec + (endTimeSec - startTimeSec))%float in
      (* send keep alive packet to clients *)
      if PrimFloat.ltb (KeepAliveIntervalSec s1) elapsed
      then (KeepAlive s1, 0%float, PLUS_SUCCESS)
      else (s1, elapsed, PLUS_FAIL)
  | _ :: _ =>
      let s2 := sendFrames trackedFrameList s1 in
      let computationTimeMs := ((endTimeSec - startTimeSec) * 1000)%float in
      let s3 :=
        withLastProcessingTimePerFrameMs
          (truncToInt (computationTimeMs / countToDouble (length trackedFrameList))%float) s2 in
      (s3, 0%float, PLUS_SUCCESS)
  end.

End Sender.

(** *** [DataReceiverThread] *)

(** One call of [PlusCommandProcessor->QueueCommand]. *)
Record QueuedCommand : Type := mkQueuedCommand {
  commandIsV3 : bool;
  commandClientId : Z;
  commandName : string;
  commandContent : string;
  commandDeviceName : string;
  commandUid : Z
}.

(** One call of [PlusCommandProcessor->QueueStringResponse]. *)
Record QueuedStringResponse : Type := mkQueuedStringResponse {
  responseStatus : PlusStatus;
  responseDeviceName : string;
  responseText : string
}.

(** The body of a message whose header arrived in full, by the type the
    message factory gives it, with what unpacking it yields. *)
Inductive Body : Type :=
  | BodyNull
  | BodyClientInfo (unpacked : bool) (info : ClientInfoT)
  | BodyGetStatus
  | BodyString (unpacked : bool) (content : string)
  | BodyCommand (unpacked : bool) (commandId : Z) (name content : string)
  | BodyStartTrackingData (unpacked : bool) (resolution : Z)
  | BodyStopTrackingData
  | BodyGetPolyData (metaFileName : option string) (polyData : option string)
                    (metaDataFits : bool)
  | BodyStatus
  | BodyUnknown.

(** What one round of the receiver loop reads from the socket. *)
Inductive Incoming : Type :=
  | NoHeader
  | Header (headerVersion : Z) (deviceName : string) (body : Body).

(** What [std::stoi] does with a string. *)
Inductive StoiResult : Type :=
  | StoiValue (n : Z)
  | StoiInvalidArgument
  | StoiOutOfRange.

(** The receiver thread of one client: its local [previousCommandIds], its
    view of the client record, and what it has handed to the command
    processor, to the response queue and to the socket. *)
Record Receiver : Type := mkReceiver {
  previousCommandIds : list Z;
  client : ClientData;
  QueuedCommands : list QueuedCommand;
  QueuedStringResponses : list QueuedStringResponse;
  QueuedMessageResponses : list (Z * Message);
  Replied : list SendRecord
}.

(** How a round of the loop ends: with the next round, with the thread
    returning, or with an exception nothing catches or a null pointer used. *)
Inductive Round : Type :=
  | Continue (r : Receiver)
  | Return (r : Receiver)
  | Abort.

Definition withClient (c : ClientData) (r : Receiver) : Receiver :=
  {| previousCommandIds := previousCommandIds r; client := c;
     QueuedCommands := QueuedCommands r;
     QueuedStringResponses := QueuedStringResponses r;
     QueuedMessageResponses := QueuedMessageResponses r; Replied := Replied r |}.

Definition QueueStringResponse (q : QueuedStringResponse) (r : Receiver) : Receiver :=
  {| previousCommandIds := previousCommandIds r; client := client r;
     QueuedCommands := QueuedCommands r;
     QueuedStringResponses := QueuedStringResponses r ++ [q];
     QueuedMessageResponses := QueuedMessageResponses r; Replied := Replied r |}.

Definition QueueMessageResponseForClient (clientId : Z) (msg : Message) (r : Receiver)
    : Receiver :=
  {| previousCommandIds := previousCommandIds r; client := client r;
     QueuedCommands := QueuedCommands r;
     QueuedStringResponses := QueuedStringResponses r;
     QueuedMessageResponses := QueuedMessageResponses r ++ [(clientId, msg)];
     Replied := Replied r |}.

(** "New command, remember its ID", then [QueueCommand]. *)
Definition rememberAndQueue (uid : Z) (q : QueuedCommand) (r : Receiver) : Receiver :=
  let pushed := previousCommandIds r ++ [uid] in
  {| previousCommandIds :=
       if NUMBER_OF_RECENT_COMMAND_IDS_STORED <? Z.of_nat (length pushed)
       then drop 1 pushed else pushed;
     client := client r;
     QueuedCommands := QueuedCommands r ++ [q];
     QueuedStringResponses := QueuedStringResponses r;
     QueuedMessageResponses := QueuedMessageResponses r; Replied := Replied r |}.

(** [std::find(previousCommandIds.begin(), previousCommandIds.end(), uid)]
    finds the id. *)
Definition alreadyReceived (uid : Z) (r : Receiver) : bool :=
  existsb (fun previous => previous =? uid) (previousCommandIds r).

Definition setTDATA (requested : bool) (resolution : Z) (info : ClientInfoT) : ClientInfoT :=
  {| ClientHeaderVersion := ClientHeaderVersion info; TDATARequested := requested;
     Resolution := resolution; LastTDATASentTimeStamp := LastTDATASentTimeStamp info;
     Subscription := Subscription info |}.

Definition setHeaderVersion (v : Z) (info : ClientInfoT) : ClientInfoT :=
  {| ClientHeaderVersion := v; TDATARequested := TDATARequested info;
     Resolution := Resolution info; LastTDATASentTimeStamp := LastTDATASentTimeStamp info;
     Subscription := Subscription info |}.

Section ReceiverThread.

(** The helpers of [vtkPlusCommand] and of the XML reader, which are not
    in the sources at hand, and the protocol version of the server. *)
Variable IsCommandDeviceName : string -> bool.
Variable GetUidFromCommandDeviceName : string -> string.
Variable GetPrefixFromCommandDeviceName : string -> string.
Variable DEVICE_NAME_REPLY : string.
Variable stoi : string -> StoiResult.
(** [ReadElementFromString] and [GetAttribute("Name")]: [None] for a null
    element, [Some None] for an element without the attribute. *)
Variable ReadNameAttribute : string -> option (option string).
Variable IGTLProtocolVersion : Z.

(** The value of an [int] stored in a [uint32_t]. *)
Definition toUint32 (n : Z) : Z := n mod 2 ^ 32.

(** One round of the [while] loop of [DataReceiverThread]. *)
Definition receiverRound (incoming : Incoming) (r : Receiver) : Round :=
  let clientId := ClientId (client r) in
  match incoming with
  | NoHeader => Continue r
  | Header headerVersion headerDeviceName body =>
      let r1 :=
        withClient
          (withClientInfo
             (setHeaderVersion (Z.min IGTLProtocolVersion headerVersion)
                               (ClientInfo (client r)))
             (client r)) r in
      match body with
      | BodyNull => Continue r1
      | BodyClientInfo unpacked info =>
          if unpacked then Continue (withClient (withClientInfo info (client r1)) r1)
          else Continue r1
      | BodyGetStatus =>
          let '(sock, retValue) := Send (ClientSocket (client r1)) in
          Continue
            {| previousCommandIds := previousCommandIds r1;
               client := withSocket sock (client r1);
               QueuedCommands := QueuedCommands r1;
               QueuedStringResponses := QueuedStringResponses r1;
               QueuedMessageResponses := QueuedMessageResponses r1;
               Replied := Replied r1 ++ [mkSendRecord clientId (StatusMessage STATUS_OK) retValue] |}
      | BodyString unpacked content =>
          if IsCommandDeviceName headerDeviceName then
            if unpacked then
              let deviceName := headerDeviceName in
              if String.eqb deviceName EmptyString then
                Continue
                  (QueueStringResponse
                     (mkQueuedStringResponse PLUS_FAIL DEVICE_NAME_REPLY
                                             "Unable to read DeviceName.") r1)
              else
                match stoi (GetUidFromCommandDeviceName deviceName) with
                | StoiOutOfRange => Abort
                | StoiInvalidArgument =>
                    Continue
                      (QueueStringResponse
                         (mkQueuedStringResponse PLUS_FAIL DEVICE_NAME_REPLY
                            "Malformed DeviceName. Expected CMD_cmdId (ex: CMD_001)") r1)
                | StoiValue n =>
                    let uid := toUint32 n in
                    let deviceName1 := GetPrefixFromCommandDeviceName deviceName in
                    if alreadyReceived uid r1 then Continue r1
                    else
                      match ReadNameAttribute content with
                      | None => Abort
                      | Some attribute =>
                          let name :=
                            match attribute with Some n => n | None => EmptyString end in
                          Continue
                            (rememberAndQueue uid
                               (mkQueuedCommand false clientId name content deviceName1 uid)
                               r1)
                      end
                end
            else Continue r1
          else Continue r1
      | BodyCommand unpacked commandId name content =>
          if unpacked then
            let deviceName := headerDeviceName in
            let uid := commandId in
            if alreadyReceived uid r1 then Continue r1
            else
              Continue
                (rememberAndQueue uid
                   (mkQueuedCommand true clientId name content deviceName uid) r1)
          else Continue r1
      | BodyStartTrackingData unpacked resolution =>
          if unpacked then
            let r2 :=
              withClient
                (withClientInfo (setTDATA true resolution (ClientInfo (client r1)))
                                (client r1)) r1 in
            Continue (QueueMessageResponseForClient clientId (RTSTrackingDataMessage 0) r2)
          else Return r1
      | BodyStopTrackingData =>
          let info := ClientInfo (client r1) in
          let r2 :=
            withClient
              (withClientInfo (setTDATA false (Resolution info) info) (client r1)) r1 in
          Continue (QueueMessageResponseForClient clientId (RTSTrackingDataMessage 0) r2)
      | BodyGetPolyData metaFileName polyData metaDataFits =>
          let fileName :=
            if IGTL_HEADER_VERSION_1 <? headerVersion then
              match metaFileName with
              | Some f => f
              | None => headerDeviceName
              end
            else headerDeviceName in
          let named :=
            if IGTL_HEADER_VERSION_1 <? headerVersion then
              match metaFileName with
              | Some _ => true
              | None => negb (String.eqb fileName EmptyString)
              end
            else negb (String.eqb fileName EmptyString) in
          if named then
            match polyData with
            | Some data =>
                if metaDataFits
                then Continue
                       (QueueMessageResponseForClient clientId
                          (PolyDataMessage fileName data) r1)
                else Continue r1
            | None =>
                Continue
                  (QueueMessageResponseForClient clientId (RTSPolyDataMessage false) r1)
            end
          else Continue r1
      | BodyStatus => Continue r1
      | BodyUnknown => Continue r1
      end
  end.

(** The receiver loop over the rounds the socket delivers, for as long as
    the thread goes on. *)
Fixpoint receiverRounds (incoming : list Incoming) (r : Receiver) : Round :=
  match incoming with
  | [] => Continue r
  | i :: incoming' =>
      match receiverRound i r with
      | Continue r' => receiverRounds incoming' r'
      | Return r' => Return r'
      | Abort => Abort
      end
  end.

(** The command ids the rounds carry, whether or not the receiver acts on
    them: the id of every unpacked v3 command, and the id [std::stoi]
    reads from the device name of every unpacked legacy command. *)
Definition receivedUid (incoming : Incoming) : option Z :=
  match incoming with
  | Header _ deviceName (BodyCommand true commandId _ _) => Some commandId
  | Header _ deviceName (BodyString true _) =>
      if IsCommandDeviceName deviceName && negb (String.eqb deviceName EmptyString) then
        match stoi (GetUidFromCommandDeviceName deviceName) with
        | StoiValue n => Some (toUint32 n)
        | _ => None
        end
      else None
  | _ => None
  end.

Definition receivedUids (incoming : list Incoming) : list Z := omap receivedUid incoming.

End ReceiverThread.

(** The last [n] elements of a list. *)
Definition lastN {A : Type} (n : nat) (l : list A) : list A := drop (length l - n) l.

(** The specification's [clamp(x, lo, hi)]: [x] raised to at least [lo],
    then lowered to at most [hi]. *)
Definition clamp (x lo hi : Z) : Z := Z.min (Z.max x lo) hi.

(** The window holds the ids of the last ten commands queued. *)
Definition windowed (r : Receiver) : Prop :=
  previousCommandIds r = lastN 10 (commandUid <$> QueuedCommands r).

(** A channel never returns more frames than the maximum it is given. *)
Definition honoursMaximum (ch : Channel) : Prop :=
  forall (ts : float) (n : Z),
    (length (GetTrackedFrameList ch ts n).1.2 <= Z.to_nat n)%nat.

End Server.

(** ** Concrete trackers, devices and servers *)

Module Scenarios.
Import NDI.

(** A simulated tracker with one wireless port.  [PHRQ] hands out port
    handle 1; [PHSR:02] lists it until it is initialised, [PHSR:03] lists it
    from then until [PENA] is sent.  Every command is answered without an
    error code, yet the port never comes up enabled: [PHINF] reports it in
    port and initialised only.  [TX] reports the tool of handle 1 missing and
    out of volume, no passive stray and a quiet system status. *)
Record SimState : Type := mkSimState {
  simInitialised : bool;
  simEnableSent : bool;
  simListed : list Z
}.

Definition simStep (st : SimState) (c : NdiCmd) : SimState :=
  match c with
  | CmdPINIT 1 => mkSimState true (simEnableSent st) (simListed st)
  | CmdPENA 1 _ => mkSimState (simInitialised st) true (simListed st)
  | CmdPHSR 2 =>
      mkSimState (simInitialised st) (simEnableSent st)
                 (if simInitialised st then [] else [1])
  | CmdPHSR 3 =>
      mkSimState (simInitialised st) (simEnableSent st)
                 (if simInitialised st && negb (simEnableSent st) then [1] else [])
  | CmdPHSR _ => mkSimState (simInitialised st) (simEnableSent st) []
  | _ => st
  end.

Definition simReply (st : SimState) : Reply :=
  {| replyError := 0;
     replyPHSRNumberOfHandles := Z.of_nat (length (simListed st));
     replyPHSRHandle := fun i => nth (Z.to_nat i) (simListed st) 0;
     replyPHSRInformation := fun _ => NDI_TOOL_IN_PORT;
     replyPHRQHandle := 1;
     replyPHINFToolInfo := [];
     replyPHINFPartNumber := [];
     replyPHINFPortStatus := Z.lor NDI_TOOL_IN_PORT NDI_INITIALIZED;
     replyPHINFPortLocation := [];
     replyTXPassiveStrays := [];
     replyTXTransform := fun _ transform => (2, transform);
     replyTXPortStatus :=
       fun _ => Z.lor (Z.lor (Z.lor NDI_TOOL_IN_PORT NDI_INITIALIZED) NDI_ENABLED)
                      NDI_OUT_OF_VOLUME;
     replyTXFrame := fun _ => 0;
     replyTXSystemStatus := 0 |}.

Definition simDevice : NdiDevice :=
  {| behaviour := fun h => simReply (fold_left simStep h (mkSimState false false []));
     history := [] |}.

(** A wireless tool with a (blank) 1024-byte ROM image, its port handle not
    yet assigned. *)
Definition stylusDescriptor : NdiToolDescriptor :=
  {| WiredPortNumber := -1;
     VirtualSROM := Some (replicate VIRTUAL_SROM_SIZE zero);
     PortEnabled := false;
     PortHandle := 0 |}.

(** A tracker that is connected but does not track yet, with that tool. *)
Definition stylusTracker : Tracker :=
  {| Device := simDevice;
     Recording := false;
     IsDeviceTracking := false;
     MaxNumberOfStrays := 0;
     LastStraysPos := [];
     LastStraysStatus := [];
     LastFrameNumber := 0;
     NdiToolDescriptors := [("Stylus"%string, stylusDescriptor)];
     Tools := [("Stylus"%string, mkDataSource DATA_SOURCE_TYPE_TOOL [])];
     Published := [] |}.

(** The same tool once its port handle is 1, on a tracker that records
    ([recording = true]) or does not. *)
Definition ledTracker (recording : bool) : Tracker :=
  {| Device := simDevice;
     Recording := recording;
     IsDeviceTracking := recording;
     MaxNumberOfStrays := 0;
     LastStraysPos := [];
     LastStraysStatus := [];
     LastFrameNumber := 0;
     NdiToolDescriptors := [("Stylus"%string, setPortHandle 1 stylusDescriptor)];
     Tools := [("Stylus"%string, mkDataSource DATA_SOURCE_TYPE_TOOL [])];
     Published := [] |}.

(** A tracking tracker with three stray slots and one stray data source,
    of the given id. *)
Definition strayTracker (id : string) : Tracker :=
  {| Device := simDevice;
     Recording := true;
     IsDeviceTracking := true;
     MaxNumberOfStrays := 3;
     LastStraysPos := StraysScenario.previous;
     LastStraysStatus := [TOOL_OK; TOOL_OK; TOOL_OK];
     LastFrameNumber := 0;
     NdiToolDescriptors := [];
     Tools := [(id, mkDataSource DATA_SOURCE_TYPE_STRAYMARKER [])];
     Published := [] |}.

End Scenarios.

Module ServerScenarios.
Import Server.

(** The collaborators of the sender, made concrete: a repository that
    accepts every frame, a factory that packs one TRANSFORM message carrying
    the frame's timestamp, and a UTC clock one million seconds ahead. *)
Definition SetTransforms (repo : Repository) (frame : Frame) : Repository * PlusStatus :=
  (repo, PLUS_SUCCESS).

Definition PackMessages (info : ClientInfoT) (frame : Frame) (validOnly : bool)
    (repo : option Repository) : PlusStatus * list (option Message) :=
  (PLUS_SUCCESS, [Some (FrameMessage "TRANSFORM" "ToolToTracker" (Timestamp frame))]).

Definition GetUniversalTimeFromSystemTime (t : float) : float := (t + 1000000)%float.

(** A channel over a buffer of frames: it hands out the frames newer than
    the given timestamp, oldest first and no more than asked for. *)
Definition buffered : list Frame :=
  [mkFrame 1 []; mkFrame 2 []; mkFrame 3 []; mkFrame 4 []; mkFrame 5 []]%float.

Definition newerThan (ts : float) (frames : list Frame) : list Frame :=
  List.filter (fun f => PrimFloat.ltb ts (Timestamp f)) frames.

Definition bufferChannel : Channel :=
  {| HasVideoSource := false;
     GetVideoDataAvailable := false;
     ToolCount := 1;
     GetTrackingDataAvailable := true;
     FieldCount := 0;
     GetFieldDataAvailable := false;
     GetOldestTimestamp := Some 1%float;
     GetTrackedFrameList :=
       fun ts n =>
         let got := take (Z.to_nat n) (newerThan ts buffered) in
         (PLUS_SUCCESS, got, List.last (Timestamp <$> got) ts) |}.

Definition subscriber (id : Z) (sock : Socket) : ClientData :=
  {| ClientId := id;
     ClientSocket := sock;
     ClientInfo := mkClientInfo 1 false 0 0%float ["TRANSFORM"%string];
     DataReceiverActive := (true, true);
     DataReceiverThreadId := id |}.

(** A server with two clients, the first with a live socket, the second
    with a socket that takes nothing; [channel] is its broadcast channel. *)
Definition server (channel : option Channel) : ServerState :=
  {| IgtlClients := [subscriber 1 [1; 1; 1; 1; 1; 1; 1; 1]; subscriber 2 []];
     TransformRepository := Some [];
     BroadcastChannel := channel;
     LastSentTrackedFrameTimestamp := 2%float;
     MaxTimeSpentWithProcessingMs := 50;
     LastProcessingTimePerFrameMs := 20;
     MaxNumberOfIgtlMessagesToSend := 100;
     NumberOfRetryAttempts := 3;
     SendValidTransformsOnly := true;
     KeepAliveIntervalSec := 0.25%float;
     Wire := [] |}.

(** The helpers of the receiver, made concrete: command device names
    are "CMD_" followed by the id, an id is a decimal numeral, every command
    text is an element named "Cmd", and the server speaks version 3. *)
Definition IsCommandDeviceName (deviceName : string) : bool := String.prefix "CMD" deviceName.

Definition GetUidFromCommandDeviceName (deviceName : string) : string :=
  String.substring 4 (String.length deviceName - 4) deviceName.

Definition GetPrefixFromCommandDeviceName (deviceName : string) : string := "CMD"%string.

Definition DEVICE_NAME_REPLY : string := "ACK"%string.

Fixpoint decimal (digits : list ascii) (acc : Z) : option Z :=
  match digits with
  | [] => Some acc
  | c :: digits' =>
      let code := Z.of_nat (nat_of_ascii c) in
      if (48 <=? code) && (code <=? 57) then decimal digits' (10 * acc + (code - 48))
      else None
  end.

Definition stoi (text : string) : StoiResult :=
  match list_ascii_of_string text with
  | [] => StoiInvalidArgument
  | digits =>
      match decimal digits 0 with
      | Some n => if n <=? 2147483647 then StoiValue n else StoiOutOfRange
      | None => StoiInvalidArgument
      end
  end.

Definition ReadNameAttribute (content : string) : option (option string) :=
  Some (Some "Cmd"%string).

Definition IGTLProtocolVersion : Z := 3.

(** The receiver thread of a client as it starts. *)
Definition freshReceiver (c : ClientData) : Receiver :=
  {| previousCommandIds := [];
     client := c;
     QueuedCommands := [];
     QueuedStringResponses := [];
     QueuedMessageResponses := [];
     Replied := [] |}.

(** A v3 command message with the given id, and a legacy command message
    whose device name carries the given numeral. *)
Definition command (uid : Z) : Incoming :=
  Header 3 "Plus" (BodyCommand true uid "Cmd" "<Command Name='Cmd'/>").

Definition legacy (numeral : string) : Incoming :=
  Header 1 ("CMD_" ++ numeral) (BodyString true "<Command Name='Cmd'/>").

(** Ten commands with the ids 1 to 10, command 1 once more, then command
    11. *)
Definition traffic : list Incoming :=
  (command <$> [1; 2; 3; 4; 5; 6; 7; 8; 9; 10]) ++ [command 1; command 11].

(** The receiver loop and one of its rounds with these helpers. *)
Abbreviation rounds :=
  (receiverRounds IsCommandDeviceName GetUidFromCommandDeviceName
     GetPrefixFromCommandDeviceName DEVICE_NAME_REPLY stoi ReadNameAttribute
     IGTLProtocolVersion).

Abbreviation round :=
  (receiverRound IsCommandDeviceName GetUidFromCommandDeviceName
     GetPrefixFromCommandDeviceName DEVICE_NAME_REPLY stoi ReadNameAttribute
     IGTLProtocolVersion).

(** The receiver of client 1 after [traffic]. *)
Definition afterTraffic : Receiver :=
  Eval vm_compute in
    match rounds traffic (freshReceiver (subscriber 1 [])) with
    | Continue r => r
    | _ => freshReceiver (subscriber 1 [])
    end.

End ServerScenarios.

(** ** The ROM image of a tool ([ReadSromFromFile]) *)

Module NDIFiles.
Import NDI.

Definition setVirtualSROM (srom : option (list ascii)) (td : NdiToolDescriptor)
    : NdiToolDescriptor :=
  {| WiredPortNumber := WiredPortNumber td; VirtualSROM := srom;
     PortEnabled := PortEnabled td; PortHandle := PortHandle td |}.

(** [ReadSromFromFile]; [file] is what [fopen] finds under the file name:
    nothing, or the bytes of the file.  The image is allocated if need be,
    cleared by [memset], and filled by [fread] with the first
    [VIRTUAL_SROM_SIZE] bytes of the file, as many as there are. *)
Definition ReadSromFromFile (td : NdiToolDescriptor) (file : option (list ascii))
    : NdiToolDescriptor * PlusStatus :=
  match file with
  | None => (td, PLUS_FAIL)
  | Some content =>
      let cleared := replicate VIRTUAL_SROM_SIZE zero in
      let read := take VIRTUAL_SROM_SIZE content in
      (setVirtualSROM (Some (read ++ drop (length read) cleared)) td, PLUS_SUCCESS)
  end.

End NDIFiles.

(** ** The vocabulary of the driver's properties *)

Module NDISpec.
Import NDI.

(** The commands that manage port handles. *)
Definition portCommand (c : NdiCmd) : bool :=
  match c with
  | CmdPHSR _ | CmdPHF _ | CmdPHRQ | CmdPINIT _ | CmdPENA _ _ | CmdPHINF _ _
  | CmdVER0 | CmdPVWR _ _ _ => true
  | _ => false
  end.

(** [d'] is the device [d] after the commands [sent]. *)
Definition sends (d d' : NdiDevice) (sent : list NdiCmd) : Prop :=
  behaviour d' = behaviour d /\ history d' = history d ++ sent.

(** What the configuration fixes of a descriptor, of the descriptors and
    of the tools. *)
Definition sameTool (td td' : NdiToolDescriptor) : Prop :=
  WiredPortNumber td' = WiredPortNumber td /\ VirtualSROM td' = VirtualSROM td.

Definition configuration (m : StringMap NdiToolDescriptor)
    : list (string * Z * option (list ascii)) :=
  (fun p => (p.1, WiredPortNumber p.2, VirtualSROM p.2)) <$> m.

Definition sources (m : StringMap DataSource) : list (string * DataSourceType) :=
  (fun p => (p.1, sourceType p.2)) <$> m.

(** What port management leaves as it is. *)
Record kept (t t' : Tracker) : Prop := mkKept {
  kept_Recording : Recording t' = Recording t;
  kept_IsDeviceTracking : IsDeviceTracking t' = IsDeviceTracking t;
  kept_MaxNumberOfStrays : MaxNumberOfStrays t' = MaxNumberOfStrays t;
  kept_LastStraysPos : LastStraysPos t' = LastStraysPos t;
  kept_LastStraysStatus : LastStraysStatus t' = LastStraysStatus t;
  kept_LastFrameNumber : LastFrameNumber t' = LastFrameNumber t;
  kept_Published : Published t' = Published t;
  kept_configuration :
    configuration (NdiToolDescriptors t') = configuration (NdiToolDescriptors t);
  kept_sources : sources (Tools t') = sources (Tools t)
}.

(** What the loop over the tools leaves as it is. *)
Record sampled (t t' : Tracker) : Prop := mkSampled {
  sampled_Device : Device t' = Device t;
  sampled_Recording : Recording t' = Recording t;
  sampled_IsDeviceTracking : IsDeviceTracking t' = IsDeviceTracking t;
  sampled_MaxNumberOfStrays : MaxNumberOfStrays t' = MaxNumberOfStrays t;
  sampled_LastStraysPos : LastStraysPos t' = LastStraysPos t;
  sampled_LastStraysStatus : LastStraysStatus t' = LastStraysStatus t;
  sampled_NdiToolDescriptors : NdiToolDescriptors t' = NdiToolDescriptors t;
  sampled_Tools : Tools t' = Tools t
}.

(** Both stray vectors have [MaxNumberOfStrays] elements. *)
Definition sized (t : Tracker) : Prop :=
  Z.of_nat (length (LastStraysPos t)) = MaxNumberOfStrays t
  /\ Z.of_nat (length (LastStraysStatus t)) = MaxNumberOfStrays t.

(** The blocks [SendSromToTracker] cuts an image into, and the commands it
    sends for them to a port handle. *)
Definition sromBlocks (image : list ascii) : list (list ascii) :=
  (fun k => take 64 (drop (k * 64) image)) <$> seq 0 16.

Definition sromUpload (portHandle : Z) (image : list ascii) : list NdiCmd :=
  concat ((fun k => [CmdVER0; CmdPVWR portHandle (k * 64) (take 64 (drop (k * 64) image))])
            <$> seq 0 16).

End NDISpec.

(** ** The client registry and the response queue of the server *)

Module Service.
Import Server.

(** The members of [vtkPlusOpenIGTLinkServer] that the connection thread and
    the response queue use, beside those of [ServerState]. [ClientIdCounter]
    is a static member, which starts at 1.

    Modelled from the spec: the type of the queue, [ClientIdToMessageListMap],
    is declared in the header of the class, which is not in the sources at
    hand; "mapping from client ID to an ordered list of pending outbound
    messages". It is taken to be a [std::map] from [int] to a vector of
    messages, its entries in the order of the ids. *)
Record ServiceState : Type := mkService {
  server : ServerState;
  ClientIdCounter : Z;
  DefaultClientInfo : ClientInfoT;
  MessageResponseQueue : list (Z * list Message)
}.

Definition withServer (s : ServerState) (sv : ServiceState) : ServiceState :=
  {| server := s; ClientIdCounter := ClientIdCounter sv;
     DefaultClientInfo := DefaultClientInfo sv;
     MessageResponseQueue := MessageResponseQueue sv |}.

Definition withQueue (q : list (Z * list Message)) (sv : ServiceState) : ServiceState :=
  {| server := server sv; ClientIdCounter := ClientIdCounter sv;
     DefaultClientInfo := DefaultClientInfo sv;
     MessageResponseQueue := q |}.

(** The search of the client list for an id, which the methods repeat: the
    first client of that id. *)
Fixpoint findClient (clientId : Z) (clients : list ClientData) : option ClientData :=
  match clients with
  | [] => None
  | c :: clients' => if ClientId c =? clientId then Some c else findClient clientId clients'
  end.

(** [GetClientInfo]: the client info on PLUS_SUCCESS, nothing on
    PLUS_FAIL. The id asked for is an [unsigned int], and the [int] id of a
    client is converted to [unsigned int] for the comparison. *)
Definition asUnsigned (id : Z) : Z := id mod 2 ^ 32.

Fixpoint clientInfoOf (clientId : Z) (clients : list ClientData) : option ClientInfoT :=
  match clients with
  | [] => None
  | c :: clients' =>
      if asUnsigned (ClientId c) =? clientId then Some (ClientInfo c)
      else clientInfoOf clientId clients'
  end.

Definition GetClientInfo (clientId : Z) (s : ServerState) : option ClientInfoT :=
  clientInfoOf clientId (IgtlClients s).

(** [ConnectionReceiverThread], the body of the loop for a connection that
    has arrived: [newClient] is the default-constructed [ClientData],
    [threadId] what [SpawnThread] returns. *)
Definition acceptClient (newClient : ClientData) (newClientSocket : Socket) (threadId : Z)
    (sv : ServiceState) : ServiceState :=
  let client :=
    {| ClientId := ClientIdCounter sv;
       ClientSocket := newClientSocket;
       ClientInfo := DefaultClientInfo sv;
       DataReceiverActive := (true, (DataReceiverActive newClient).2);
       DataReceiverThreadId := threadId |} in
  {| server := withClients (IgtlClients (server sv) ++ [client]) (server sv);
     ClientIdCounter := ClientIdCounter sv + 1;
     DefaultClientInfo := DefaultClientInfo sv;
     MessageResponseQueue := MessageResponseQueue sv |}.

(** [StopOpenIGTLinkService], "Disconnect clients": the ids are collected,
    then every one of them is disconnected. *)
Definition StopOpenIGTLinkService (s : ServerState) : ServerState :=
  let clientIds := ClientId <$> IgtlClients s in
  disconnectAll clientIds s.

(** [MessageResponseQueue[clientId].push_back(message)] *)
Fixpoint queuePush (clientId : Z) (message : Message) (q : list (Z * list Message))
    : list (Z * list Message) :=
  match q with
  | [] => [(clientId, [message])]
  | (k, messages) :: q' =>
      if clientId <? k then (clientId, [message]) :: q
      else if clientId =? k then (k, messages ++ [message]) :: q'
      else (k, messages) :: queuePush clientId message q'
  end.

(** [QueueMessageResponseForClient] *)
Definition QueueMessageResponseForClient (clientId : Z) (message : Message)
    (sv : ServiceState) : ServiceState * PlusStatus :=
  let found := existsb (fun c => ClientId c =? clientId) (IgtlClients (server sv)) in
  if negb found then (sv, PLUS_FAIL)
  else (withQueue (queuePush clientId message (MessageResponseQueue sv)) sv, PLUS_SUCCESS).

(** The messages of one entry of the queue, sent one after the other to a
    socket; no send is tried again and no result is looked at. *)
Fixpoint sendEach (clientId : Z) (messages : list Message) (sock : Socket)
    : Socket * list SendRecord :=
  match messages with
  | [] => (sock, [])
  | message :: messages' =>
      let '(sock1, result) := Send sock in
      let '(sock2, records) := sendEach clientId messages' sock1 in
      (sock2, mkSendRecord clientId message result :: records)
  end.

(** The socket is shared with the client record it was taken from. *)
Fixpoint setSocket (clientId : Z) (sock : Socket) (clients : list ClientData)
    : list ClientData :=
  match clients with
  | [] => []
  | c :: clients' =>
      if ClientId c =? clientId then withSocket sock c :: clients'
      else c :: setSocket clientId sock clients'
  end.

(** One entry of the queue in [SendMessageResponses]. *)
Definition sendResponsesTo (s : ServerState) (entry : Z * list Message) : ServerState :=
  match findClient entry.1 (IgtlClients s) with
  | None => s
  | Some c =>
      let '(sock, records) := sendEach entry.1 entry.2 (ClientSocket c) in
      withWire (Wire s ++ records) (withClients (setSocket entry.1 sock (IgtlClients s)) s)
  end.

(** [SendMessageResponses] *)
Definition SendMessageResponses (sv : ServiceState) : ServiceState :=
  withQueue [] (withServer (fold_left sendResponsesTo (MessageResponseQueue sv) (server sv)) sv).

(** [ReadConfiguration], the name of the transform of stray marker [i]
    (counted from 0) that is added to the default subscription. *)
Definition strayMarkerId (i : nat) (StrayReferenceFrame : string) : string :=
  String.append (if (i <? 9)%nat then "Stray0" else "Stray")
    (String.append (NilZero.string_of_uint (Nat.to_uint (i + 1)))
       (String.append "To" StrayReferenceFrame)).

End Service.

(** ** The vocabulary of the server's properties *)

Module ServerSpec.
Import Server.

(** No two clients of the registry have the same id. *)
Definition uniqueIds (clients : list ClientData) : Prop := NoDup (ClientId <$> clients).

(** The registry as the connection thread keeps it: the ids are unique,
    positive and below the counter, which is positive and has not passed
    the largest [int]. *)
Definition wellFormed (sv : Service.ServiceState) : Prop :=
  uniqueIds (IgtlClients (Service.server sv))
  /\ Forall (fun c => 0 < ClientId c < Service.ClientIdCounter sv)
            (IgtlClients (Service.server sv))
  /\ 0 < Service.ClientIdCounter sv <= 2147483647.

Definition connected (clientId : Z) (s : ServerState) : bool :=
  existsb (fun c => ClientId c =? clientId) (IgtlClients s).

(** The client [c'] is the client [c] but for its socket, and but for its
    socket and client info. *)
Definition sameButSocket (c c' : ClientData) : Prop := c' = withSocket (ClientSocket c') c.

Definition sameButSocketAndInfo (c c' : ClientData) : Prop :=
  c' = withClientInfo (ClientInfo c') (withSocket (ClientSocket c') c).

(** Among the records, a send to the client failed, and a send to it
    succeeded. *)
Definition failedIn (records : list SendRecord) (clientId : Z) : bool :=
  existsb (fun r => (sentTo r =? clientId) && (sentResult r =? 0)) records.

Definition deliveredIn (records : list SendRecord) (clientId : Z) : bool :=
  existsb (fun r => (sentTo r =? clientId) && negb (sentResult r =? 0)) records.

(** The records of the sends to a client, in their order. *)
Definition recordsTo (clientId : Z) (records : list SendRecord) : list SendRecord :=
  filter (fun r => sentTo r = clientId) records.

(** No record but the last is of a failed send. *)
Definition quietAfterFailure (records : list SendRecord) : Prop :=
  forall (i : nat) (r : SendRecord),
    records !! i = Some r -> sentResult r = 0 -> S i = length records.

(** The messages queued for a client, in the order they were queued. *)
Definition queuedFor (clientId : Z) (q : list (Z * list Message)) : list Message :=
  concat (snd <$> filter (fun e => e.1 = clientId) q).

(** The entries of the queue are in the strict order of their ids. *)
Fixpoint keysAscend (q : list (Z * list Message)) : Prop :=
  match q with
  | [] => True
  | (k, _) :: q' => Forall (fun e => k < e.1) q' /\ keysAscend q'
  end.

(** A list continues another. *)
Definition continues {A : Type} (before after : list A) : Prop :=
  exists added, after = before ++ added.

(** What a receiver thread has done between two of its states is done under
    the id of its client: the id is the same, the commands and the message
    responses queued since carry it, the replies sent since are status
    replies to it, and nothing queued or sent before is gone. *)
Definition ownTraffic (r r' : Receiver) : Prop :=
  ClientId (client r') = ClientId (client r)
  /\ (exists commands,
        QueuedCommands r' = QueuedCommands r ++ commands
        /\ Forall (fun q => commandClientId q = ClientId (client r)) commands)
  /\ (exists responses,
        QueuedMessageResponses r' = QueuedMessageResponses r ++ responses
        /\ Forall (fun e => e.1 = ClientId (client r)) responses)
  /\ (exists replies,
        Replied r' = Replied r ++ replies
        /\ Forall (fun reply => sentTo reply = ClientId (client r)
                                /\ sentMessage reply = StatusMessage STATUS_OK) replies)
  /\ continues (QueuedStringResponses r) (QueuedStringResponses r').

(** What the loop of [KeepAlive] does for one client: the value its last
    send returned, and the client it leaves. *)
Definition keepAliveResult (attempts : nat) (c : ClientData) : Z :=
  (retryUntilSent attempts (ClientSocket c) 0).2.

Definition afterKeepAlive (attempts : nat) (c : ClientData) : ClientData :=
  withSocket (retryUntilSent attempts (ClientSocket c) 0).1 c.

Section Served.

Variable PackMessages :
  ClientInfoT -> Frame -> bool -> option Repository -> PlusStatus * list (option Message).

(** What the loop of [SendTrackedFrame] does for one client: the socket and
    client info it leaves, the records of the sends and whether the client
    was found disconnected. *)
Definition served (attempts : nat) (validOnly : bool) (repo : option Repository)
    (frame : Frame) (c : ClientData) : Socket * ClientInfoT * list SendRecord * bool :=
  sendMessages attempts (ClientId c) frame
               (PackMessages (ClientInfo c) frame validOnly repo).2
               (ClientSocket c) (ClientInfo c).

Definition afterFrame (attempts : nat) (validOnly : bool) (repo : option Repository)
    (frame : Frame) (c : ClientData) : ClientData :=
  withClientInfo (served attempts validOnly repo frame c).1.1.2
                 (withSocket (served attempts validOnly repo frame c).1.1.1 c).

End Served.

End ServerSpec.

(** ** A service with two clients and a response for each *)

Module ServiceScenarios.
Import Server Service.

Definition service : ServiceState :=
  {| server := ServerScenarios.server None;
     ClientIdCounter := 3;
     DefaultClientInfo := mkClientInfo 1 false 0 0%float ["TRANSFORM"%string];
     MessageResponseQueue :=
       [(1, [RTSTrackingDataMessage 0; RTSPolyDataMessage false]);
        (2, [RTSTrackingDataMessage 0])] |}.

End ServiceScenarios.

(** ** The trackers the scenarios end in *)

Module Runs.
Import NDI.

(** The tracker with the wireless stylus after [EnableToolPorts]. *)
Definition stylusEnabled : Tracker :=
  Eval vm_compute in
    match EnableToolPorts 2 Scenarios.stylusTracker with
    | Ok (t', _) => t'
    | _ => Scenarios.stylusTracker
    end.

(** The recording tracker after one polling tick at time 0. *)
Definition ledPolled : Tracker :=
  Eval vm_compute in
    match InternalUpdate 1 0%float (Scenarios.ledTracker true) with
    | Ok (t', _) => t'
    | _ => Scenarios.ledTracker true
    end.

(** A tracker that tracks a wired tool in port 1; the simulated device
    never lists a port handle for it. *)
Definition wiredTracker : Tracker :=
  {| Device := Scenarios.simDevice;
     Recording := true;
     IsDeviceTracking := true;
     MaxNumberOfStrays := 0;
     LastStraysPos := [];
     LastStraysStatus := [];
     LastFrameNumber := 0;
     NdiToolDescriptors :=
       [("Probe"%string,
         {| WiredPortNumber := 0; VirtualSROM := None; PortEnabled := false;
            PortHandle := 0 |})];
     Tools := [("Probe"%string, mkDataSource DATA_SOURCE_TYPE_TOOL [])];
     Published := [] |}.

Definition wiredStopped : Tracker :=
  Eval vm_compute in
    match EnableToolPorts 2 wiredTracker with
    | Ok (t', _) => t'
    | _ => wiredTracker
    end.

End Runs.

(** * Theorems *)

(** ** The stray matcher on the specification's scenario *)

(** C1. With [MaxNumberOfStrays = 3], previous slot positions (0,0,10),
    (10,0,10), (0,10,10) and observations (0.1,0,10), (0,10.2,10), one
    matching pass (distance matrix, per-slot ascending sort, conflict
    resolution, slot update) returns after its first round of conflict
    resolution, whatever bound above zero the rounds are given and whatever
    the slots' statuses were: slot 1 is assigned observation 0 and is OK,
    slot 2 is unmatched, MISSING, and keeps its position, slot 3 is assigned
    observation 1 and is OK. *)
Theorem stray_scenario_three_slots_two_observations :
  forall (fuel : nat) (s1 s2 s3 : ToolStatus),
    Strays.MatchStrays 3 2 Strays.INT_MAX Strays.DBL_MAX StraysScenario.table (S fuel)
      = Some [0; Strays.INT_MAX; 1]
    /\ Strays.updateStrays (S fuel) 3 StraysScenario.observed StraysScenario.previous
         [s1; s2; s3]
       = Some ([(0x1.999999999999ap-4, 0, 10); (10, 0, 10); (0, 0x1.4666666666666p+3, 10)]%float,
               [TOOL_OK; TOOL_MISSING; TOOL_OK]).
Proof.
  intros fuel s1 s2 s3. split.
  - vm_compute. reflexivity.
  - vm_compute. reflexivity.
Qed.

(** ** Tool status in a polling tick *)

Lemma toolFlagsOf_classified (ndiPortStatus ndiToolAbsent : Z) :
  NDI.toolFlagsOf ndiPortStatus ndiToolAbsent = NDI.classified ndiPortStatus ndiToolAbsent.
Proof.
  unfold NDI.toolFlagsOf, NDI.classified, NDI.portValid, NDI.outOfVolume.
  destruct (Z.land ndiPortStatus _ =? _); simpl; [|reflexivity].
  destruct (ndiToolAbsent =? 0); simpl;
    destruct (Z.land ndiPortStatus NDI.NDI_OUT_OF_VOLUME =? 0); reflexivity.
Qed.


(** C4, as the claim states it, fails: a tool whose port status is valid,
    whose transform is absent and whose OUT_OF_VOLUME bit is set is reported
    OUT_OF_VOLUME by a polling tick of the simulated tracker, not
    OUT_OF_VIEW. *)
Lemma absent_and_out_of_volume_not_out_of_view :
  exists t' u,
    NDI.InternalUpdate 1 0%float (Scenarios.ledTracker true) = NDI.Ok (t', PLUS_SUCCESS)
    /\ NDI.Published t' = [u]
    /\ NDI.updateId u = "Stylus"%string
    /\ NDI.portValid (NDI.replyTXPortStatus (NDI.readers (NDI.Device t')) 1) = true
    /\ NDI.outOfVolume (NDI.replyTXPortStatus (NDI.readers (NDI.Device t')) 1) = true
    /\ (NDI.replyTXTransform (NDI.readers (NDI.Device t')) 1 []).1 <> 0
    /\ NDI.updateFlags u = TOOL_OUT_OF_VOLUME
    /\ NDI.updateFlags u <> TOOL_OUT_OF_VIEW.
Proof.
  eexists. eexists. split; [vm_compute; reflexivity|].
  repeat split; try (vm_compute; congruence).
Qed.

(** C4, amended. For every TOOL-type source that has a descriptor with a
    port handle above zero, the body of the tool loop publishes one sample
    whose status is: MISSING if the port-status word does not contain all of
    TOOL_IN_PORT, INITIALIZED and ENABLED; else OUT_OF_VOLUME if the
    OUT_OF_VOLUME bit is set; else OUT_OF_VIEW if the transform is absent;
    else OK.  A tool whose transform is absent and whose OUT_OF_VOLUME bit is
    set is reported OUT_OF_VOLUME. *)
Theorem tool_status_classification :
  forall (t : NDI.Tracker) (toolSourceId : string) (trackerTool : NDI.DataSource)
         (td : NDI.NdiToolDescriptor) (defaultToolFrameNumber : Z) (toolTimestamp : float),
    NDI.sourceType trackerTool = NDI.DATA_SOURCE_TYPE_TOOL ->
    NDI.mapFind toolSourceId (NDI.NdiToolDescriptors t) = Some td ->
    0 < NDI.PortHandle td ->
    let reply := NDI.readers (NDI.Device t) in
    let ndiPortStatus := NDI.replyTXPortStatus reply (NDI.PortHandle td) in
    let ndiToolAbsent :=
      (NDI.replyTXTransform reply (NDI.PortHandle td) [1; 0; 0; 0; 0; 0; 0; 0]%float).1 in
    exists t' u,
      NDI.updateTool defaultToolFrameNumber toolTimestamp t toolSourceId trackerTool = NDI.Ok t'
      /\ NDI.Published t' = NDI.Published t ++ [u]
      /\ NDI.updateId u = toolSourceId
      /\ NDI.updateFlags u =
           (if negb (NDI.portValid ndiPortStatus) then TOOL_MISSING
            else if NDI.outOfVolume ndiPortStatus then TOOL_OUT_OF_VOLUME
            else if negb (ndiToolAbsent =? 0) then TOOL_OUT_OF_VIEW
            else TOOL_OK).
Proof.
  intros t toolSourceId trackerTool td dflt ts Htype Hfind Hhandle reply ndiPortStatus ndiToolAbsent.
  unfold NDI.updateTool. rewrite Htype, Hfind.
  destruct (NDI.PortHandle td <=? 0) eqn:Hle; [apply Z.leb_le in Hle; lia|].
  subst ndiToolAbsent ndiPortStatus reply.
  destruct (NDI.replyTXTransform _ _ _) as [absent transform]; simpl.
  destruct ((absent =? 0) && negb (NDI.replyTXFrame _ _ =? 0));
    [destruct (NDI.LastFrameNumber t <? _)|];
    (eexists; eexists; split; [reflexivity|]; simpl;
     repeat split; apply toolFlagsOf_classified).
Qed.

(** The amended classification at a concrete tool: valid port, transform
    absent, OUT_OF_VOLUME bit set. *)
Lemma tool_status_classification_witness :
  exists t' u,
    NDI.updateTool 1 0%float (Scenarios.ledTracker true) "Stylus"
                   (NDI.mkDataSource NDI.DATA_SOURCE_TYPE_TOOL []) = NDI.Ok t'
    /\ NDI.Published t' = NDI.Published (Scenarios.ledTracker true) ++ [u]
    /\ NDI.updateId u = "Stylus"%string
    /\ NDI.updateFlags u = TOOL_OUT_OF_VOLUME.
Proof.
  exact (tool_status_classification (Scenarios.ledTracker true) "Stylus"
           (NDI.mkDataSource NDI.DATA_SOURCE_TYPE_TOOL [])
           (NDI.setPortHandle 1 Scenarios.stylusDescriptor) 1 0%float
           eq_refl eq_refl eq_refl).
Defined.

(** ** The guards of [Beep] and [SetToolLED] *)

(** [Beep] is the method whose guard rejects a recording tracker. *)
Lemma Beep_rejects_when_recording (n : Z) (t : NDI.Tracker) :
  NDI.Recording t = true -> NDI.Beep n t = (t, PLUS_FAIL).
Proof. intros H. unfold NDI.Beep. rewrite H. reflexivity. Qed.

(** C7, as the claim states it, fails: on a recording tracker [SetToolLED]
    sends the LED command for a tool with a valid port handle and returns
    success. *)
Lemma SetToolLED_accepts_when_recording :
  NDI.Recording (Scenarios.ledTracker true) = true
  /\ exists t',
       NDI.SetToolLED "Stylus" 0 NDI.TR_LED_ON (Scenarios.ledTracker true) = (t', PLUS_SUCCESS)
       /\ NDI.history (NDI.Device t') = [NDI.CmdLED 1 1 NDI.NDI_SOLID].
Proof.
  split; [reflexivity|]. eexists. split; [vm_compute; reflexivity|]. reflexivity.
Qed.

(** C7, amended. The guard of [SetToolLED] rejects when [Recording] is
    false: whenever the tracker is not recording, [SetToolLED] returns
    failure and no command is sent, the tracker and its device being left as
    they were. *)
Theorem SetToolLED_rejects_when_not_recording :
  forall (sourceId : string) (led : Z) (state : NDI.LedState) (t : NDI.Tracker),
    NDI.Recording t = false ->
    NDI.SetToolLED sourceId led state t = (t, PLUS_FAIL)
    /\ NDI.history (NDI.Device (NDI.SetToolLED sourceId led state t).1)
       = NDI.history (NDI.Device t).
Proof.
  intros sourceId led state t H. unfold NDI.SetToolLED. rewrite H. simpl. split; reflexivity.
Qed.

Lemma SetToolLED_rejects_when_not_recording_witness :
  NDI.SetToolLED "Stylus" 0 NDI.TR_LED_ON (Scenarios.ledTracker false)
    = (Scenarios.ledTracker false, PLUS_FAIL)
  /\ NDI.history (NDI.Device
        (NDI.SetToolLED "Stylus" 0 NDI.TR_LED_ON (Scenarios.ledTracker false)).1)
     = NDI.history (NDI.Device (Scenarios.ledTracker false)).
Proof.
  exact (SetToolLED_rejects_when_not_recording "Stylus" 0 NDI.TR_LED_ON
           (Scenarios.ledTracker false) eq_refl).
Defined.

(** ** The stray branch of the tool loop *)

(** A stray source whose index lies between 1 and [MaxNumberOfStrays] reads
    both vectors inside their bounds, once [ReadConfiguration] has sized
    them. *)
Lemma stray_index_in_range (t : NDI.Tracker) (toolSourceId : string)
    (trackerTool : NDI.DataSource) (defaultToolFrameNumber : Z) (toolTimestamp : float) :
  NDI.sourceType trackerTool = NDI.DATA_SOURCE_TYPE_STRAYMARKER ->
  Z.of_nat (length (NDI.LastStraysPos t)) = NDI.MaxNumberOfStrays t ->
  Z.of_nat (length (NDI.LastStraysStatus t)) = NDI.MaxNumberOfStrays t ->
  1 <= NDI.strayMarkerIndexOf toolSourceId ->
  exists t',
    NDI.updateTool defaultToolFrameNumber toolTimestamp t toolSourceId trackerTool = NDI.Ok t'.
Proof.
  intros Htype Hpos Hstatus Hlow. unfold NDI.updateTool. rewrite Htype.
  destruct (NDI.strayMarkerIndexOf toolSourceId <=? NDI.MaxNumberOfStrays t) eqn:Hle;
    [|eexists; reflexivity].
  apply Z.leb_le in Hle. unfold NDI.vectorAt.
  destruct (NDI.strayMarkerIndexOf toolSourceId - 1 <? 0) eqn:Hneg;
    [apply Z.ltb_lt in Hneg; lia|].
  destruct (lookup_lt_is_Some_2 (NDI.LastStraysPos t)
              (Z.to_nat (NDI.strayMarkerIndexOf toolSourceId - 1))) as [[[x y] z] Hp]; [lia|].
  destruct (lookup_lt_is_Some_2 (NDI.LastStraysStatus t)
              (Z.to_nat (NDI.strayMarkerIndexOf toolSourceId - 1))) as [st Hs]; [lia|].
  rewrite Hp, Hs. eexists. reflexivity.
Qed.

(** A stray source whose index is 0 passes the guard
    [strayMarkerIndex <= MaxNumberOfStrays] and reads element -1. *)
Lemma stray_index_zero_out_of_range (t : NDI.Tracker) (toolSourceId : string)
    (trackerTool : NDI.DataSource) (defaultToolFrameNumber : Z) (toolTimestamp : float) :
  NDI.sourceType trackerTool = NDI.DATA_SOURCE_TYPE_STRAYMARKER ->
  0 <= NDI.MaxNumberOfStrays t ->
  NDI.strayMarkerIndexOf toolSourceId = 0 ->
  NDI.updateTool defaultToolFrameNumber toolTimestamp t toolSourceId trackerTool
    = NDI.OutOfRange.
Proof.
  intros Htype Hmax Hzero. unfold NDI.updateTool. rewrite Htype, Hzero.
  destruct (0 <=? NDI.MaxNumberOfStrays t) eqn:Hle; [|apply Z.leb_gt in Hle; lia].
  reflexivity.
Qed.

(** [ReadConfiguration] sizes both vectors to [MaxNumberOfStrays]. *)
Lemma resizeStrays_lengths (t : NDI.Tracker) :
  0 < NDI.MaxNumberOfStrays t ->
  Z.of_nat (length (NDI.LastStraysPos (NDI.resizeStrays t))) = NDI.MaxNumberOfStrays t
  /\ Z.of_nat (length (NDI.LastStraysStatus (NDI.resizeStrays t))) = NDI.MaxNumberOfStrays t.
Proof.
  intros H. unfold NDI.resizeStrays.
  destruct (0 <? NDI.MaxNumberOfStrays t) eqn:Hpos; [|apply Z.ltb_ge in Hpos; lia].
  simpl. rewrite !length_resize. lia.
Qed.

(** C9 (defect of the code). With three stray slots, a stray data source
    named "Stray00ToTracker" has the digits 0 and 0 at positions 5 and 6, so
    its index is 0; the guard lets it through, and the polling tick reads
    [LastStraysPos[-1]]: the access is outside the vector. *)
Theorem stray_index_zero_reads_outside_the_vectors :
  NDI.strayMarkerIndexOf "Stray00ToTracker" = 0
  /\ (NDI.strayMarkerIndexOf "Stray00ToTracker"
        <=? NDI.MaxNumberOfStrays (Scenarios.strayTracker "Stray00ToTracker")) = true
  /\ NDI.vectorAt (NDI.LastStraysPos (Scenarios.strayTracker "Stray00ToTracker"))
                  (NDI.strayMarkerIndexOf "Stray00ToTracker" - 1) = None
  /\ NDI.InternalUpdate 1 0%float (Scenarios.strayTracker "Stray00ToTracker")
     = NDI.OutOfRange.
Proof. repeat split; vm_compute; reflexivity. Qed.

(** ** The result of [EnableToolPorts] *)

(** C6 (defect of the code). On the simulated tracker every command of
    [EnableToolPorts] is answered without an error, the identity refresh
    finds the tool's port not enabled (NDI_ENABLED clear in the PHINF port
    status) and records [PortEnabled = false], and [EnableToolPorts] still
    returns success: the failure is written to the port-status variable
    that hides the function's [status]. *)
Theorem EnableToolPorts_succeeds_with_a_disabled_port :
  exists t' td,
    NDI.EnableToolPorts 2 Scenarios.stylusTracker = NDI.Ok (t', PLUS_SUCCESS)
    /\ NDI.mapFind "Stylus" (NDI.NdiToolDescriptors t') = Some td
    /\ NDI.PortEnabled td = false
    /\ NDI.PortHandle td = 1
    /\ Z.land (NDI.replyPHINFPortStatus (NDI.readers (NDI.Device t'))) NDI.NDI_ENABLED = 0
    /\ List.last (NDI.history (NDI.Device t')) NDI.CmdVER0 = NDI.CmdPHINF 1 0x0025.
Proof.
  eexists. eexists. split; [vm_compute; reflexivity|].
  split; [vm_compute; reflexivity|].
  repeat split; vm_compute; reflexivity.
Qed.

(** ** The sender cycle *)

Section SenderFacts.
Import Server.

Lemma raiseLastProcessingTime_value (s : ServerState) :
  LastProcessingTimePerFrameMs (raiseLastProcessingTime s)
  = Z.max (LastProcessingTimePerFrameMs s) 1.
Proof.
  unfold raiseLastProcessingTime.
  destruct (LastProcessingTimePerFrameMs s <? 1) eqn:H; simpl.
  - apply Z.ltb_lt in H. lia.
  - apply Z.ltb_ge in H. lia.
Qed.

Lemma raiseLastProcessingTime_other (s : ServerState) :
  MaxTimeSpentWithProcessingMs (raiseLastProcessingTime s) = MaxTimeSpentWithProcessingMs s
  /\ MaxNumberOfIgtlMessagesToSend (raiseLastProcessingTime s) = MaxNumberOfIgtlMessagesToSend s
  /\ IgtlClients (raiseLastProcessingTime s) = IgtlClients s
  /\ Wire (raiseLastProcessingTime s) = Wire s
  /\ KeepAliveIntervalSec (raiseLastProcessingTime s) = KeepAliveIntervalSec s
  /\ NumberOfRetryAttempts (raiseLastProcessingTime s) = NumberOfRetryAttempts s
  /\ BroadcastChannel (raiseLastProcessingTime s) = BroadcastChannel s
  /\ LastSentTrackedFrameTimestamp (raiseLastProcessingTime s) = LastSentTrackedFrameTimestamp s.
Proof.
  unfold raiseLastProcessingTime.
  destruct (LastProcessingTimePerFrameMs s <? 1); simpl; repeat split; reflexivity.
Qed.

Lemma numberOfFramesToGet_clamp (s : ServerState) :
  numberOfFramesToGet s
  = clamp (Z.quot (MaxTimeSpentWithProcessingMs s) (Z.max (LastProcessingTimePerFrameMs s) 1))
          1 (MaxNumberOfIgtlMessagesToSend s).
Proof.
  unfold numberOfFramesToGet, clamp.
  rewrite raiseLastProcessingTime_value.
  destruct (raiseLastProcessingTime_other s) as (-> & -> & _). reflexivity.
Qed.

(** With bounds in order the specification's clamp is the usual one. *)
Lemma clamp_between (x lo hi : Z) :
  lo <= hi ->
  clamp x lo hi = (if x <? lo then lo else if hi <? x then hi else x)
  /\ lo <= clamp x lo hi <= hi.
Proof.
  intros H. unfold clamp.
  destruct (x <? lo) eqn:H1; [apply Z.ltb_lt in H1 | apply Z.ltb_ge in H1];
    [|destruct (hi <? x) eqn:H2; [apply Z.ltb_lt in H2 | apply Z.ltb_ge in H2]]; lia.
Qed.

(** What the pull leaves untouched. *)
Lemma pullFrames_keeps (s : ServerState) :
  IgtlClients (pullFrames s).1 = IgtlClients s
  /\ Wire (pullFrames s).1 = Wire s
  /\ KeepAliveIntervalSec (pullFrames s).1 = KeepAliveIntervalSec s
  /\ NumberOfRetryAttempts (pullFrames s).1 = NumberOfRetryAttempts s
  /\ LastProcessingTimePerFrameMs (pullFrames s).1 = Z.max (LastProcessingTimePerFrameMs s) 1.
Proof.
  pose proof (raiseLastProcessingTime_value s) as Hv.
  destruct (raiseLastProcessingTime_other s) as (_ & _ & Hc & Hw & Hk & Hn & _).
  unfold pullFrames.
  destruct (BroadcastChannel (raiseLastProcessingTime s)) as [ch|]; simpl; [|tauto].
  destruct (noDataAvailable ch); simpl; [tauto|].
  destruct (GetOldestTimestamp ch) as [oldest|]; simpl; [|tauto].
  destruct (GetTrackedFrameList ch _ _) as [[st frames] ts]; simpl.
  destruct (PrimFloat.ltb _ oldest); simpl; tauto.
Qed.

End SenderFacts.

(** C8. Each sender cycle first raises [LastProcessingTimePerFrameMs] to at
    least 1, and asks the broadcast channel for at most
    [clamp(MaxTimeSpentWithProcessingMs / LastProcessingTimePerFrameMs, 1,
    MaxNumberOfIgtlMessagesToSend)] frames (the division is that of [int]):
    when the channel has data and an oldest timestamp, the frames of the cycle
    are those [GetTrackedFrameList] returns for that maximum, since
    [LastSentTrackedFrameTimestamp] (moved past the oldest timestamp when it
    lies before it); so with a channel that never returns more than the
    maximum it is given, no cycle pulls more frames than the clamp allows. *)
Theorem sender_pulls_at_most_clamp :
  forall (s : Server.ServerState),
    (forall ch, Server.BroadcastChannel s = Some ch -> Server.honoursMaximum ch) ->
    let perFrameMs := Z.max (Server.LastProcessingTimePerFrameMs s) 1 in
    let maximum :=
      Server.clamp (Z.quot (Server.MaxTimeSpentWithProcessingMs s) perFrameMs) 1
                   (Server.MaxNumberOfIgtlMessagesToSend s) in
    Server.LastProcessingTimePerFrameMs (Server.pullFrames s).1 = perFrameMs
    /\ 1 <= perFrameMs
    /\ Server.numberOfFramesToGet s = maximum
    /\ (length (Server.pullFrames s).2 <= Z.to_nat maximum)%nat
    /\ (forall ch oldest,
          Server.BroadcastChannel s = Some ch ->
          Server.noDataAvailable ch = false ->
          Server.GetOldestTimestamp ch = Some oldest ->
          (Server.pullFrames s).2
          = (Server.GetTrackedFrameList ch
               (if PrimFloat.ltb (Server.LastSentTrackedFrameTimestamp s) oldest
                then (oldest + Server.SAMPLING_SKIPPING_MARGIN_SEC)%float
                else Server.LastSentTrackedFrameTimestamp s)
               maximum).1.2).
Proof.
  intros s Hch perFrameMs maximum.
  pose proof (numberOfFramesToGet_clamp s) as Hn. fold perFrameMs in Hn. fold maximum in Hn.
  destruct (pullFrames_keeps s) as (_ & _ & _ & _ & Hlast).
  destruct (raiseLastProcessingTime_other s) as (_ & _ & _ & _ & _ & _ & Hb & Hts).
  split; [exact Hlast|]. split; [subst perFrameMs; lia|]. split; [exact Hn|].
  split.
  - unfold Server.pullFrames. rewrite Hb.
    destruct (Server.BroadcastChannel s) as [ch|] eqn:Hsome; simpl; [|lia].
    destruct (Server.noDataAvailable ch); simpl; [lia|].
    destruct (Server.GetOldestTimestamp ch) as [oldest|]; simpl; [|lia].
    rewrite Hn.
    pose proof (Hch ch eq_refl
                  (Server.LastSentTrackedFrameTimestamp
                     (if PrimFloat.ltb
                           (Server.LastSentTrackedFrameTimestamp (Server.raiseLastProcessingTime s))
                           oldest
                      then Server.withLastSentTrackedFrameTimestamp
                             (oldest + Server.SAMPLING_SKIPPING_MARGIN_SEC)%float
                             (Server.raiseLastProcessingTime s)
                      else Server.raiseLastProcessingTime s))
                  maximum) as Hmax.
    destruct (Server.GetTrackedFrameList ch _ maximum) as [[st frames] ts]. exact Hmax.
  - intros ch oldest Hsome Hdata Hold.
    unfold Server.pullFrames. rewrite Hb, Hsome, Hdata, Hold, Hn, Hts.
    destruct (PrimFloat.ltb (Server.LastSentTrackedFrameTimestamp s) oldest); simpl;
      rewrite ?Hts;
      destruct (Server.GetTrackedFrameList ch _ maximum) as [[st frames] ts]; reflexivity.
Qed.

Lemma bufferChannel_honoursMaximum :
  forall ch,
    Server.BroadcastChannel (ServerScenarios.server (Some ServerScenarios.bufferChannel)) = Some ch ->
    Server.honoursMaximum ch.
Proof.
  intros ch H. injection H as <-. intros ts n. simpl. rewrite length_take. lia.
Defined.

(** The cycle of the scenario server, whose last cycle took 20 ms per frame
    and which may spend 50 ms: at most two frames are asked for, and two of
    the three newer frames in the buffer are pulled. *)
Lemma sender_pulls_at_most_clamp_witness :
  Server.numberOfFramesToGet (ServerScenarios.server (Some ServerScenarios.bufferChannel)) = 2
  /\ (length (Server.pullFrames
                (ServerScenarios.server (Some ServerScenarios.bufferChannel))).2 <= 2)%nat
  /\ length (Server.pullFrames
               (ServerScenarios.server (Some ServerScenarios.bufferChannel))).2 = 2%nat.
Proof.
  pose proof (sender_pulls_at_most_clamp
                (ServerScenarios.server (Some ServerScenarios.bufferChannel))
                bufferChannel_honoursMaximum) as (_ & _ & Hn & Hl & _).
  split; [exact Hn|]. split; [exact Hl|]. vm_compute. reflexivity.
Defined.

(** ** Keep-alive *)

Section KeepAliveFacts.
Import Server.

(** [KeepAlive] hands one STATUS OK message to every client, in the order of
    the registry, when its retry loop makes a try; it hands nothing to any
    client when the loop makes none. *)
Lemma keepAliveClients_records (attempts : nat) (clients : list ClientData) :
  ((0 < attempts)%nat ->
   sentTo <$> (keepAliveClients attempts clients).1.2 = ClientId <$> clients)
  /\ (attempts = 0%nat -> (keepAliveClients attempts clients).1.2 = [])
  /\ Forall (fun r => sentMessage r = StatusMessage STATUS_OK)
            (keepAliveClients attempts clients).1.2.
Proof.
  induction clients as [|c clients IH]; simpl;
    [split; [reflexivity|split; [reflexivity|constructor]]|].
  destruct (retryUntilSent attempts (ClientSocket c) 0) as [sock retValue].
  destruct (keepAliveClients attempts clients) as [[rest records] ids]; simpl in *.
  destruct IH as (IH1 & IH0 & IH2). destruct attempts as [|attempts]; simpl.
  - split; [lia|]. split; [exact IH0|]. exact IH2.
  - split; [intros _; f_equal; apply IH1; lia|].
    split; [discriminate|]. constructor; [reflexivity|exact IH2].
Qed.

Lemma disconnectAll_Wire (ids : list Z) (s : ServerState) :
  Wire (disconnectAll ids s) = Wire s.
Proof.
  revert s. induction ids as [|id ids IH]; intros s; simpl; [reflexivity|].
  unfold disconnectAll in IH. rewrite IH. reflexivity.
Qed.

Lemma KeepAlive_Wire (s : ServerState) :
  Wire (KeepAlive s)
  = Wire s ++ (keepAliveClients (Z.to_nat (NumberOfRetryAttempts s)) (IgtlClients s)).1.2.
Proof.
  unfold KeepAlive.
  destruct (keepAliveClients _ (IgtlClients s)) as [[clients records] ids].
  rewrite disconnectAll_Wire. reflexivity.
Qed.

End KeepAliveFacts.

(** C5, as the claim states it, fails: on a cycle that pulls no frame and
    brings the elapsed time to exactly [KeepAliveIntervalSec] (0.125 s
    elapsed before, 0.125 s more in the cycle, an interval of 0.25 s), so
    that the elapsed time is greater than or equal to the interval, no
    message goes to any client, the elapsed time is not reset and the cycle
    reports failure. *)
Lemma no_keep_alive_at_exactly_the_interval :
  let s := ServerScenarios.server None in
  let elapsed := (0.125 + (1.125 - 1))%float in
  (Server.pullFrames s).2 = []
  /\ PrimFloat.leb (Server.KeepAliveIntervalSec s) elapsed = true
  /\ exists s',
       Server.SendLatestFramesToClients ServerScenarios.SetTransforms
         ServerScenarios.PackMessages ServerScenarios.GetUniversalTimeFromSystemTime
         s 0.125%float 1%float 1.125%float
       = (s', 0.25%float, PLUS_FAIL)
       /\ Server.Wire s' = []
       /\ Server.IgtlClients s' = Server.IgtlClients s.
Proof.
  intros s elapsed. split; [reflexivity|]. split; [vm_compute; reflexivity|].
  eexists. split; [vm_compute; reflexivity|]. split; reflexivity.
Qed.

(** C5, amended. For any data-sender cycle in which zero tracked frames
    were pulled from the buffer and the elapsed time since the last packet
    sent, this cycle included, is strictly greater than
    [KeepAliveIntervalSec], the server making at least one attempt at a send
    ([NumberOfRetryAttempts] is positive), exactly one STATUS OK message is
    handed to the socket of each connected client, in the order of the
    registry (each send retried as the retry count allows), the elapsed
    counter is reset to zero and the cycle reports success. *)
Theorem keep_alive_after_the_interval :
  forall (SetTransforms : Server.Repository -> Server.Frame -> Server.Repository * PlusStatus)
         (PackMessages : Server.ClientInfoT -> Server.Frame -> bool ->
                         option Server.Repository -> PlusStatus * list (option Server.Message))
         (GetUniversalTimeFromSystemTime : float -> float)
         (s : Server.ServerState)
         (elapsedTimeSinceLastPacketSentSec startTimeSec endTimeSec : float),
    (Server.pullFrames s).2 = [] ->
    PrimFloat.ltb (Server.KeepAliveIntervalSec s)
                  (elapsedTimeSinceLastPacketSentSec + (endTimeSec - startTimeSec))%float = true ->
    0 < Server.NumberOfRetryAttempts s ->
    exists s' records,
      Server.SendLatestFramesToClients SetTransforms PackMessages
        GetUniversalTimeFromSystemTime s elapsedTimeSinceLastPacketSentSec
        startTimeSec endTimeSec
      = (s', 0%float, PLUS_SUCCESS)
      /\ Server.Wire s' = Server.Wire s ++ records
      /\ Server.sentTo <$> records = Server.ClientId <$> Server.IgtlClients s
      /\ Forall (fun r => Server.sentMessage r = Server.StatusMessage Server.STATUS_OK) records.
Proof.
  intros SetTransforms PackMessages utc s elapsed startT endT Hnone Hlate Hretry.
  destruct (pullFrames_keeps s) as (Hc & Hw & Hk & Hn & _).
  unfold Server.SendLatestFramesToClients.
  destruct (Server.pullFrames s) as [s1 frames] eqn:Hpull. simpl in *. subst frames.
  rewrite Hk, Hlate.
  exists (Server.KeepAlive s1),
         (Server.keepAliveClients (Z.to_nat (Server.NumberOfRetryAttempts s1))
                                  (Server.IgtlClients s1)).1.2.
  split; [reflexivity|]. split; [rewrite KeepAlive_Wire, Hw; reflexivity|].
  rewrite <- Hc.
  destruct (keepAliveClients_records (Z.to_nat (Server.NumberOfRetryAttempts s1))
              (Server.IgtlClients s1)) as (Hsent & _ & Hok).
  split; [apply Hsent; rewrite Hn; lia|exact Hok].
Qed.

(** When the retry loop makes no try ([NumberOfRetryAttempts] is not
    positive), the keep-alive hands nothing to any socket and disconnects
    every client. *)
Lemma keep_alive_without_a_try_disconnects_everyone :
  let s := Server.withClients (Server.IgtlClients (ServerScenarios.server None))
             {| Server.IgtlClients := [];
                Server.TransformRepository := None;
                Server.BroadcastChannel := None;
                Server.LastSentTrackedFrameTimestamp := 0%float;
                Server.MaxTimeSpentWithProcessingMs := 50;
                Server.LastProcessingTimePerFrameMs := 20;
                Server.MaxNumberOfIgtlMessagesToSend := 100;
                Server.NumberOfRetryAttempts := 0;
                Server.SendValidTransformsOnly := true;
                Server.KeepAliveIntervalSec := 0.25%float;
                Server.Wire := [] |} in
  Server.Wire (Server.KeepAlive s) = [] /\ Server.IgtlClients (Server.KeepAlive s) = [].
Proof. split; reflexivity. Qed.

(** The server without a channel, 0.25 s after its last packet and 0.125 s
    into the cycle: the live client gets its STATUS OK, the client whose
    socket takes nothing gets its send too, with result 0. *)
Lemma keep_alive_after_the_interval_witness :
  exists s' records,
    Server.SendLatestFramesToClients ServerScenarios.SetTransforms
      ServerScenarios.PackMessages ServerScenarios.GetUniversalTimeFromSystemTime
      (ServerScenarios.server None) 0.25%float 1%float 1.125%float
    = (s', 0%float, PLUS_SUCCESS)
    /\ Server.Wire s' = Server.Wire (ServerScenarios.server None) ++ records
    /\ Server.sentTo <$> records = Server.ClientId <$> Server.IgtlClients (ServerScenarios.server None)
    /\ Forall (fun r => Server.sentMessage r = Server.StatusMessage Server.STATUS_OK) records.
Proof.
  exact (keep_alive_after_the_interval ServerScenarios.SetTransforms
           ServerScenarios.PackMessages ServerScenarios.GetUniversalTimeFromSystemTime
           (ServerScenarios.server None) 0.25%float 1%float 1.125%float eq_refl eq_refl
           ltac:(simpl; lia)).
Defined.

(** ** The timestamp of a frame across [SendTrackedFrame] *)

Section SendTrackedFrameFacts.
Import Server.

Variable SetTransforms : Repository -> Frame -> Repository * PlusStatus.
Variable PackMessages :
  ClientInfoT -> Frame -> bool -> option Repository -> PlusStatus * list (option Message).
Variable GetUniversalTimeFromSystemTime : float -> float.

(** Setting the timestamp back restores the frame. *)
Lemma SetTimestamp_restores (frame : Frame) (ts : float) :
  SetTimestamp (GetTimestamp frame) (SetTimestamp ts frame) = frame.
Proof. destruct frame. reflexivity. Qed.

(** Every message handed to a client's socket is one of the messages packed
    for it. *)
Lemma sendMessages_records (attempts : nat) (clientId : Z) (frame : Frame)
    (igtlMessages : list (option Message)) (sock : Socket) (info : ClientInfoT) :
  Forall (fun r => sentTo r = clientId /\ Some (sentMessage r) ∈ igtlMessages)
         (sendMessages attempts clientId frame igtlMessages sock info).1.2.
Proof.
  assert (Hhanded : forall m ms,
            Forall (fun r => sentTo r = clientId /\ Some (sentMessage r) ∈ Some m :: ms)
                   (handed attempts (mkSendRecord clientId m (0 : Z)))
            /\ forall retValue,
                 Forall (fun r => sentTo r = clientId /\ Some (sentMessage r) ∈ Some m :: ms)
                        (handed attempts (mkSendRecord clientId m retValue))).
  { intros m ms. split; [|intros retValue]; destruct attempts; simpl;
      repeat constructor. }
  revert sock info.
  induction igtlMessages as [|[m|] ms IH]; intros sock info; simpl.
  - constructor.
  - destruct (retryUntilSent attempts sock 0) as [sock1 retValue].
    destruct (retValue =? 0).
    + simpl. apply Hhanded.
    + specialize (IH sock1 (withLastTDATASentTimeStamp (GetTimestamp frame) info)).
      destruct (sendMessages attempts clientId frame ms sock1 _) as [[[sock2 info2] records] d].
      simpl in *. apply Forall_app. split; [apply Hhanded|].
      eapply Forall_impl; [exact IH|]. intros r [H1 H2]. split; [exact H1 | right; exact H2].
  - specialize (IH sock info).
    eapply Forall_impl; [exact IH|]. intros r [H1 H2]. split; [exact H1 | right; exact H2].
Qed.

Lemma sendFrameToClients_records (attempts : nat) (validOnly : bool)
    (repo : option Repository) (frame : Frame) (clients : list ClientData) :
  Forall (fun r => exists c, c ∈ clients /\ sentTo r = ClientId c
                             /\ Some (sentMessage r)
                                ∈ (PackMessages (ClientInfo c) frame validOnly repo).2)
         (sendFrameToClients PackMessages attempts validOnly repo frame clients).1.2.
Proof.
  induction clients as [|c clients IH]; simpl; [constructor|].
  destruct (PackMessages (ClientInfo c) frame validOnly repo) as [st msgs] eqn:Hpack.
  pose proof (sendMessages_records attempts (ClientId c) frame msgs (ClientSocket c)
                (ClientInfo c)) as Hm.
  destruct (sendMessages attempts (ClientId c) frame msgs (ClientSocket c) (ClientInfo c))
    as [[[sock info] records] d].
  destruct (sendFrameToClients PackMessages attempts validOnly repo frame clients)
    as [[rest records'] ids].
  simpl in *. apply Forall_app. split.
  - eapply Forall_impl; [exact Hm|]. intros r [H1 H2].
    exists c. split; [left|]. split; [exact H1|]. rewrite Hpack. exact H2.
  - eapply Forall_impl; [exact IH|]. intros r (c' & Hin & H1 & H2).
    exists c'. split; [right; exact Hin|]. split; assumption.
Qed.

Lemma withRepository_fields (repo : option Repository) (s : ServerState) :
  IgtlClients (withRepository repo s) = IgtlClients s
  /\ Wire (withRepository repo s) = Wire s
  /\ SendValidTransformsOnly (withRepository repo s) = SendValidTransformsOnly s.
Proof. repeat split; reflexivity. Qed.

End SendTrackedFrameFacts.

(** C10. [SendTrackedFrame] replaces the frame's timestamp by its UTC
    conversion while it packs and sends (every message handed to a socket
    during the call is one that [PackMessages] made for a connected client
    from the frame carrying the UTC timestamp), and it sets the system
    timestamp back before it returns: whatever the sends return and whichever
    clients are disconnected, the caller's frame is after the call what it was
    before, its timestamp included. *)
Theorem SendTrackedFrame_restores_timestamp :
  forall (SetTransforms : Server.Repository -> Server.Frame -> Server.Repository * PlusStatus)
         (PackMessages : Server.ClientInfoT -> Server.Frame -> bool ->
                         option Server.Repository -> PlusStatus * list (option Server.Message))
         (GetUniversalTimeFromSystemTime : float -> float)
         (trackedFrame : Server.Frame) (s : Server.ServerState),
    let result :=
      Server.SendTrackedFrame SetTransforms PackMessages GetUniversalTimeFromSystemTime
                              trackedFrame s in
    let sentFrame :=
      Server.SetTimestamp (GetUniversalTimeFromSystemTime (Server.Timestamp trackedFrame))
                          trackedFrame in
    Server.Timestamp result.1.2 = Server.Timestamp trackedFrame
    /\ result.1.2 = trackedFrame
    /\ exists records,
         Server.Wire result.1.1 = Server.Wire s ++ records
         /\ Forall (fun r =>
                      exists c,
                        c ∈ Server.IgtlClients s
                        /\ Server.sentTo r = Server.ClientId c
                        /\ Some (Server.sentMessage r)
                           ∈ (PackMessages (Server.ClientInfo c) sentFrame
                                (Server.SendValidTransformsOnly s)
                                (Server.TransformRepository result.1.1)).2)
                   records.
Proof.
  intros SetTransforms PackMessages utc frame s result sentFrame.
  subst result sentFrame. unfold Server.SendTrackedFrame.
  set (s1n := match Server.TransformRepository s with
              | Some repo =>
                  let '(repo', set) := SetTransforms repo frame in
                  (Server.withRepository (Some repo') s,
                   match set with PLUS_SUCCESS => 0 | PLUS_FAIL => 0 + 1 end)
              | None => (s, 0)
              end).
  assert (Hs1 : Server.IgtlClients s1n.1 = Server.IgtlClients s
                /\ Server.Wire s1n.1 = Server.Wire s
                /\ Server.SendValidTransformsOnly s1n.1 = Server.SendValidTransformsOnly s).
  { subst s1n. destruct (Server.TransformRepository s) as [repo|]; [|repeat split].
    destruct (SetTransforms repo frame) as [repo' set]. repeat split. }
  destruct s1n as [s1 n1]. simpl in Hs1. destruct Hs1 as (Hc & Hw & Hv).
  pose proof (sendFrameToClients_records PackMessages
                (Z.to_nat (Server.NumberOfRetryAttempts s1)) (Server.SendValidTransformsOnly s1)
                (Server.TransformRepository s1)
                (Server.SetTimestamp (utc (Server.GetTimestamp frame)) frame)
                (Server.IgtlClients s1)) as Hrec.
  destruct (Server.sendFrameToClients PackMessages _ _ _ _ (Server.IgtlClients s1))
    as [[clients records] ids].
  simpl in *. rewrite SetTimestamp_restores.
  split; [reflexivity|]. split; [reflexivity|].
  exists records. rewrite disconnectAll_Wire. simpl. rewrite Hw. split; [reflexivity|].
  rewrite Hc, Hv in Hrec.
  assert (Hrepo : forall ids' s0,
             Server.TransformRepository (Server.disconnectAll ids' s0)
             = Server.TransformRepository s0).
  { induction ids' as [|i ids' IH]; intros s0; simpl; [reflexivity|].
    unfold Server.disconnectAll in IH. rewrite IH. reflexivity. }
  rewrite Hrepo. simpl. exact Hrec.
Qed.

(** ** Duplicate command ids *)

Section ReceiverFacts.
Import Server.

Variable IsCommandDeviceName : string -> bool.
Variable GetUidFromCommandDeviceName : string -> string.
Variable GetPrefixFromCommandDeviceName : string -> string.
Variable DEVICE_NAME_REPLY : string.
Variable stoi : string -> StoiResult.
Variable ReadNameAttribute : string -> option (option string).
Variable IGTLProtocolVersion : Z.

Local Abbreviation round :=
  (receiverRound IsCommandDeviceName GetUidFromCommandDeviceName
     GetPrefixFromCommandDeviceName DEVICE_NAME_REPLY stoi ReadNameAttribute
     IGTLProtocolVersion).
Local Abbreviation rounds :=
  (receiverRounds IsCommandDeviceName GetUidFromCommandDeviceName
     GetPrefixFromCommandDeviceName DEVICE_NAME_REPLY stoi ReadNameAttribute
     IGTLProtocolVersion).

Lemma lastN_snoc {A : Type} (n : nat) (l : list A) (x : A) :
  (1 <= n)%nat ->
  lastN n (l ++ [x])
  = if (n <? length (lastN n l ++ [x]))%nat
    then drop 1 (lastN n l ++ [x]) else lastN n l ++ [x].
Proof.
  intros Hn. unfold lastN. rewrite !length_app, length_drop. simpl.
  destruct (Nat.ltb_spec n (length l - (length l - n) + 1)) as [H|H].
  - rewrite drop_app_le by lia.
    rewrite (drop_app_le (drop _ l)) by (rewrite length_drop; lia).
    rewrite drop_drop. do 2 f_equal. lia.
  - replace (length l + 1 - n)%nat with 0%nat by lia.
    replace (length l - n)%nat with 0%nat by lia. reflexivity.
Qed.

Lemma rememberAndQueue_windowed (uid : Z) (q : QueuedCommand) (r : Receiver) :
  commandUid q = uid -> windowed r -> windowed (rememberAndQueue uid q r).
Proof.
  unfold windowed, rememberAndQueue. intros Hq Hr. simpl.
  rewrite fmap_app. simpl. rewrite Hq, lastN_snoc by lia. rewrite <- Hr.
  unfold NUMBER_OF_RECENT_COMMAND_IDS_STORED.
  destruct (10 <? Z.of_nat (length (previousCommandIds r ++ [uid]))) eqn:H1;
    destruct (Nat.ltb_spec 10 (length (previousCommandIds r ++ [uid]))) as [H2|H2];
    try reflexivity.
  - apply Z.ltb_lt in H1. lia.
  - apply Z.ltb_ge in H1. lia.
Qed.

Lemma receiverRound_windowed (incoming : Incoming) (r r' : Receiver) :
  windowed r -> round incoming r = Continue r' -> windowed r'.
Proof.
  intros Hr. unfold receiverRound.
  destruct incoming as [|hv dn body]; [intros [= <-]; exact Hr|].
  destruct body as [|u info| |u content|u cid name content|u res| |meta poly fits| |];
    simpl; intros H.
  - injection H as <-. exact Hr.
  - destruct u; injection H as <-; exact Hr.
  - destruct (Send _) as [sock ret]. injection H as <-. exact Hr.
  - destruct (IsCommandDeviceName dn); [|injection H as <-; exact Hr].
    destruct u; [|injection H as <-; exact Hr].
    destruct (String.eqb dn EmptyString); [injection H as <-; exact Hr|].
    destruct (stoi _) as [n| |]; [|injection H as <-; exact Hr|discriminate].
    destruct (alreadyReceived _ _); [injection H as <-; exact Hr|].
    destruct (ReadNameAttribute content) as [attribute|]; [|discriminate].
    injection H as <-. apply rememberAndQueue_windowed; [reflexivity | exact Hr].
  - destruct u; [|injection H as <-; exact Hr].
    destruct (alreadyReceived _ _); injection H as <-; [exact Hr|].
    apply rememberAndQueue_windowed; [reflexivity | exact Hr].
  - destruct u; [|discriminate]. injection H as <-. exact Hr.
  - injection H as <-. exact Hr.
  - destruct (if IGTL_HEADER_VERSION_1 <? hv then _ else _);
      [destruct poly; [destruct fits|]|]; injection H as <-; exact Hr.
  - injection H as <-. exact Hr.
  - injection H as <-. exact Hr.
Qed.

Lemma receiverRounds_windowed (incoming : list Incoming) (r r' : Receiver) :
  windowed r -> rounds incoming r = Continue r' -> windowed r'.
Proof.
  revert r. induction incoming as [|i incoming IH]; intros r Hr; simpl.
  - intros [= <-]. exact Hr.
  - destruct (round i r) as [r1| |] eqn:H1; try discriminate.
    apply IH. eapply receiverRound_windowed; eassumption.
Qed.

Lemma alreadyReceived_elem (uid : Z) (r : Receiver) :
  uid ∈ previousCommandIds r -> alreadyReceived uid r = true.
Proof.
  intros H. unfold alreadyReceived. apply existsb_exists.
  exists uid. split; [apply list_elem_of_In; exact H | apply Z.eqb_refl].
Qed.

End ReceiverFacts.

(** C3, as the claim states it, fails. A client sends the v3 commands 1 to
    10, then command 1 again (ignored as a duplicate), then command 11.  The
    id 1 is then among the last ten command ids received from that client
    (it came two messages ago), but it is no longer in the receiver's window,
    which only the commands that were queued enter; command 1, sent once
    more, is queued for execution a second time. *)
Lemma repeated_id_among_last_ten_received_is_queued :
  let start := ServerScenarios.freshReceiver (ServerScenarios.subscriber 1 []) in
  exists r r',
    ServerScenarios.rounds ServerScenarios.traffic start = Server.Continue r
    /\ 1 ∈ Server.lastN 10
             (Server.receivedUids ServerScenarios.IsCommandDeviceName
                ServerScenarios.GetUidFromCommandDeviceName ServerScenarios.stoi
                ServerScenarios.traffic)
    /\ Server.commandUid <$> Server.QueuedCommands r = [1; 2; 3; 4; 5; 6; 7; 8; 9; 10; 11]
    /\ ServerScenarios.round (ServerScenarios.command 1) r = Server.Continue r'
    /\ Server.commandUid <$> Server.QueuedCommands r'
       = [1; 2; 3; 4; 5; 6; 7; 8; 9; 10; 11; 1].
Proof.
  intros start. eexists. eexists.
  split; [vm_compute; reflexivity|].
  split; [vm_compute; repeat first [left | right]|].
  split; [vm_compute; reflexivity|].
  split; vm_compute; reflexivity.
Qed.

(** C3, amended. For every connected client, if an incoming command UID
    (read by [std::stoi] from a legacy CMD_<n> STRING device name, or taken
    from a v3 Command message's CommandId) equals one of the last 10 command
    UIDs its receiver queued for execution (the ids of ignored duplicates do
    not count), then the message changes nothing but the negotiated header
    version: no command is queued, no response of any kind is queued or sent,
    and the window of remembered ids stays as it is. *)
Theorem duplicate_of_recently_queued_command_is_ignored :
  forall (IsCommandDeviceName : string -> bool)
         (GetUidFromCommandDeviceName GetPrefixFromCommandDeviceName : string -> string)
         (DEVICE_NAME_REPLY : string) (stoi : string -> Server.StoiResult)
         (ReadNameAttribute : string -> option (option string)) (IGTLProtocolVersion : Z)
         (c : Server.ClientData) (earlier : list Server.Incoming) (r : Server.Receiver)
         (duplicate : Server.Incoming) (uid : Z),
    Server.receiverRounds IsCommandDeviceName GetUidFromCommandDeviceName
      GetPrefixFromCommandDeviceName DEVICE_NAME_REPLY stoi ReadNameAttribute
      IGTLProtocolVersion earlier (ServerScenarios.freshReceiver c) = Server.Continue r ->
    Server.receivedUid IsCommandDeviceName GetUidFromCommandDeviceName stoi duplicate
      = Some uid ->
    uid ∈ Server.lastN 10 (Server.commandUid <$> Server.QueuedCommands r) ->
    exists r',
      Server.receiverRound IsCommandDeviceName GetUidFromCommandDeviceName
        GetPrefixFromCommandDeviceName DEVICE_NAME_REPLY stoi ReadNameAttribute
        IGTLProtocolVersion duplicate r = Server.Continue r'
      /\ Server.QueuedCommands r' = Server.QueuedCommands r
      /\ Server.QueuedStringResponses r' = Server.QueuedStringResponses r
      /\ Server.QueuedMessageResponses r' = Server.QueuedMessageResponses r
      /\ Server.Replied r' = Server.Replied r
      /\ Server.previousCommandIds r' = Server.previousCommandIds r.
Proof.
  intros isCmd getUid getPrefix reply stoi readName version c earlier r duplicate uid
         Hrun Huid Hin.
  assert (Hw : Server.windowed r).
  { eapply receiverRounds_windowed; [|exact Hrun]. reflexivity. }
  unfold Server.windowed in Hw. rewrite <- Hw in Hin.
  destruct duplicate as [|hv dn body]; [discriminate|].
  destruct body as [|u info| |u content|u cid name content|u res| |meta poly fits| |];
    try discriminate; simpl in Huid.
  - destruct u; [|discriminate].
    destruct (isCmd dn) eqn:Hcmd; [|discriminate].
    destruct (String.eqb dn EmptyString) eqn:Hempty; [discriminate|]. simpl in Huid.
    destruct (stoi (getUid dn)) as [n| |] eqn:Hstoi; try discriminate.
    injection Huid as <-.
    unfold Server.receiverRound. rewrite Hcmd, Hempty, Hstoi.
    rewrite alreadyReceived_elem by exact Hin.
    eexists. split; [reflexivity|]. repeat split.
  - destruct u; [|discriminate]. injection Huid as <-.
    unfold Server.receiverRound.
    rewrite alreadyReceived_elem by exact Hin.
    eexists. split; [reflexivity|]. repeat split.
Qed.

(** The client of the scenario, after the commands 1 to 10, command 1 again
    and command 11: command 5 (v3) is a duplicate of a command still in the
    window and is ignored. *)
Lemma duplicate_of_recently_queued_command_is_ignored_witness :
  ServerScenarios.rounds ServerScenarios.traffic
    (ServerScenarios.freshReceiver (ServerScenarios.subscriber 1 []))
  = Server.Continue ServerScenarios.afterTraffic
  /\ exists r',
       ServerScenarios.round (ServerScenarios.command 5) ServerScenarios.afterTraffic
       = Server.Continue r'
       /\ Server.QueuedCommands r' = Server.QueuedCommands ServerScenarios.afterTraffic
       /\ Server.QueuedStringResponses r'
          = Server.QueuedStringResponses ServerScenarios.afterTraffic
       /\ Server.QueuedMessageResponses r'
          = Server.QueuedMessageResponses ServerScenarios.afterTraffic
       /\ Server.Replied r' = Server.Replied ServerScenarios.afterTraffic
       /\ Server.previousCommandIds r'
          = Server.previousCommandIds ServerScenarios.afterTraffic.
Proof.
  assert (Hrun : ServerScenarios.rounds ServerScenarios.traffic
                   (ServerScenarios.freshReceiver (ServerScenarios.subscriber 1 []))
                 = Server.Continue ServerScenarios.afterTraffic)
    by (vm_compute; reflexivity).
  assert (Hin : 5 ∈ Server.lastN 10
                      (Server.commandUid <$> Server.QueuedCommands ServerScenarios.afterTraffic))
    by (vm_compute; repeat first [left | right]).
  split; [exact Hrun|].
  exact (duplicate_of_recently_queued_command_is_ignored
           ServerScenarios.IsCommandDeviceName ServerScenarios.GetUidFromCommandDeviceName
           ServerScenarios.GetPrefixFromCommandDeviceName ServerScenarios.DEVICE_NAME_REPLY
           ServerScenarios.stoi ServerScenarios.ReadNameAttribute
           ServerScenarios.IGTLProtocolVersion
           (ServerScenarios.subscriber 1 []) ServerScenarios.traffic
           ServerScenarios.afterTraffic (ServerScenarios.command 5) 5 Hrun eq_refl Hin).
Defined.

(** A legacy command whose device name carries an id still in the window
    is ignored as well. *)
Lemma duplicate_legacy_command_is_ignored :
  exists r r',
    ServerScenarios.rounds [ServerScenarios.legacy "7"]
      (ServerScenarios.freshReceiver (ServerScenarios.subscriber 1 [])) = Server.Continue r
    /\ Server.commandUid <$> Server.QueuedCommands r = [7]
    /\ ServerScenarios.round (ServerScenarios.legacy "7") r = Server.Continue r'
    /\ Server.QueuedCommands r' = Server.QueuedCommands r
    /\ Server.QueuedStringResponses r' = []
    /\ Server.QueuedMessageResponses r' = []
    /\ Server.Replied r' = [].
Proof.
  eexists. eexists. split; [vm_compute; reflexivity|].
  repeat split; vm_compute; reflexivity.
Qed.

(** ** The stray matcher: conflict resolution and the slot update *)

(** The order of the specification of binary64 is transitive. *)
Lemma SFltb_trans (x y z : spec_float) :
  SFltb x y = true -> SFltb y z = true -> SFltb x z = true.
Proof.
  unfold SFltb.
  destruct x as [sx|sx| |sx mx ex], y as [sy|sy| |sy my ey], z as [sz|sz| |sz mz ez];
    simpl; try discriminate; try reflexivity;
    repeat match goal with s : bool |- _ => destruct s end;
    simpl; try discriminate; try reflexivity.
  all: rewrite ?Pos.compare_cont_spec; simpl.
  all: destruct (Z.compare_spec ex ey), (Z.compare_spec ey ez), (Z.compare_spec ex ez);
    simpl; try discriminate; try reflexivity; try lia; subst.
  all: destruct (Pos.compare_spec mx my), (Pos.compare_spec my mz), (Pos.compare_spec mx mz);
    simpl; try discriminate; try reflexivity; try lia.
Qed.

Lemma ltb_trans (x y z : float) :
  PrimFloat.ltb x y = true -> PrimFloat.ltb y z = true -> PrimFloat.ltb x z = true.
Proof. rewrite !ltb_spec. apply SFltb_trans. Qed.

(** ... and asymmetric. *)
Lemma SFltb_asym (x y : spec_float) : SFltb x y = true -> SFltb y x = false.
Proof.
  unfold SFltb.
  destruct x as [sx|sx| |sx mx ex], y as [sy|sy| |sy my ey];
    simpl; try discriminate; try reflexivity;
    repeat match goal with s : bool |- _ => destruct s end;
    simpl; try discriminate; try reflexivity.
  all: rewrite ?Pos.compare_cont_spec; simpl.
  all: destruct (Z.compare_spec ex ey), (Z.compare_spec ey ex);
    simpl; try discriminate; try reflexivity; try lia; subst.
  all: destruct (Pos.compare_spec mx my), (Pos.compare_spec my mx);
    simpl; try discriminate; try reflexivity; try lia.
Qed.

Lemma ltb_asym (x y : float) : PrimFloat.ltb x y = true -> PrimFloat.ltb y x = false.
Proof. rewrite !ltb_spec. apply SFltb_asym. Qed.

Section MatcherInvariant.
Import Strays.

Variable M N : nat.
Variable noMatchFlag : Z.
Variable maxDistance : float.
Variable rows : list (list Candidate).

Local Abbreviation row := (StraysSpec.candidateAt rows).
Local Abbreviation dead := (StraysSpec.dead N maxDistance rows).
Local Abbreviation live := (StraysSpec.live N maxDistance rows).
Local Abbreviation Inv := (StraysSpec.Inv M N noMatchFlag maxDistance rows).
Local Abbreviation Outcome := (StraysSpec.Outcome M N noMatchFlag maxDistance rows).
Local Abbreviation claimNearest := (StraysSpec.claimNearest maxDistance rows).
Local Abbreviation slotRank := (StraysSpec.slotRank N noMatchFlag rows).
Local Abbreviation rank := (StraysSpec.rank M N noMatchFlag rows).
Local Abbreviation inv_indices := (StraysSpec.inv_indices M N noMatchFlag maxDistance rows).
Local Abbreviation inv_distances := (StraysSpec.inv_distances M N noMatchFlag maxDistance rows).
Local Abbreviation inv_dead := (StraysSpec.inv_dead M N noMatchFlag maxDistance rows).
Local Abbreviation inv_exhausted := (StraysSpec.inv_exhausted M N noMatchFlag maxDistance rows).
Local Abbreviation inv_holding := (StraysSpec.inv_holding M N noMatchFlag maxDistance rows).
Local Abbreviation mm s k := (minMatchedIndex s !!! (k : nat)).
Local Abbreviation md s k := (minDistance s !!! (k : nat)).
Local Abbreviation better := (betterMatchAlreadyExist M).
Local Abbreviation NONE := (noMatchFlag, maxDistance).

Hypothesis some_observation : (1 <= N)%nat.
Hypothesis distinct_observations :
  forall i j j', (i < M)%nat -> (j < N)%nat -> (j' < N)%nat ->
                 (row i j).1 = (row i j').1 -> j = j'.
Hypothesis observations_are_not_the_flag :
  forall i j, (i < M)%nat -> (j < N)%nat -> (row i j).1 <> noMatchFlag.
Hypothesis dead_or_live : forall i, (i < M)%nat -> dead i \/ live i.

Lemma better_spec (i : nat) (c : Candidate) (s : MatchState) :
  better i c s = true
  <-> exists k, (k < M)%nat /\ k <> i /\ c.1 = mm s k
                /\ PrimFloat.ltb (md s k) c.2 = true.
Proof.
  unfold betterMatchAlreadyExist. rewrite existsb_exists. split.
  - intros (k & Hin & H). apply in_seq in Hin.
    apply andb_prop in H as [H H3]. apply andb_prop in H as [H1 H2].
    exists k. repeat split; [lia| |apply Z.eqb_eq; exact H2|exact H3].
    intros ->. rewrite Nat.eqb_refl in H1. discriminate.
  - intros (k & Hk & Hne & H2 & H3). exists k. split; [apply in_seq; lia|].
    rewrite H3, andb_true_r. apply andb_true_intro. split.
    + apply negb_true_iff, Nat.eqb_neq. congruence.
    + apply Z.eqb_eq. exact H2.
Qed.

Lemma assign_other (i k : nat) (c : Candidate) (s : MatchState) :
  k <> i -> mm (assign i c s) k = mm s k /\ md (assign i c s) k = md s k.
Proof.
  intros H. unfold assign. simpl.
  rewrite !list_lookup_total_insert_ne by congruence. split; reflexivity.
Qed.

Lemma assign_same (i : nat) (c : Candidate) (s : MatchState) :
  (i < length (minMatchedIndex s))%nat -> (i < length (minDistance s))%nat ->
  mm (assign i c s) i = c.1 /\ md (assign i c s) i = c.2.
Proof.
  intros H1 H2. unfold assign. simpl.
  rewrite !list_lookup_total_insert_eq by assumption. split; reflexivity.
Qed.

(** A blocked candidate of slot [k] stays blocked when another slot [i]
    changes its claim, provided the claim [i] gives up was itself blocked. *)
Lemma better_after_assign (i k : nat) (c v : Candidate) (s : MatchState) :
  k <> i ->
  better k c s = true ->
  c.1 <> mm s k ->
  (c.1 = mm s i -> better i (mm s i, md s i) s = true) ->
  better k c (assign i v s) = true.
Proof.
  intros Hki Hb Hk Hi. apply better_spec in Hb as (k' & Hk' & Hne & H1 & H2).
  apply better_spec. destruct (decide (k' = i)) as [->|Hk'i].
  - specialize (Hi H1). apply better_spec in Hi as (k'' & Hk'' & Hne'' & H1'' & H2'').
    simpl in H1'', H2''. exists k''.
    destruct (assign_other i k'' v s Hne'') as [-> ->].
    repeat split; [exact Hk''| |congruence|eapply ltb_trans; eassumption].
    intros ->. congruence.
  - exists k'. destruct (assign_other i k' v s Hk'i) as [-> ->].
    repeat split; assumption.
Qed.

(** The claim slot [i] holds is blocked whenever an earlier or a later
    candidate is examined and everything before that one is blocked. *)
Lemma Inv_assign (i : nat) (v : Candidate) (s : MatchState) :
  Inv s -> (i < M)%nat -> mm s i <> noMatchFlag ->
  better i (mm s i, md s i) s = true ->
  (v.1 = noMatchFlag ->
   live i /\ forall j, (j < N)%nat -> better i (row i j) s = true) ->
  (v.1 <> noMatchFlag ->
   exists j, (j < N)%nat /\ row i j = v
             /\ forall j', (j' < j)%nat -> better i (row i j') s = true) ->
  Inv (assign i v s).
Proof.
  intros HI Hi Hheld Hblocked Hnone Hsome.
  destruct HI as [Hlm Hld Hdead Hexh Hhold].
  assert (Hsame := assign_same i v s ltac:(lia) ltac:(lia)). destruct Hsame as [Hm Hd].
  assert (Hstay : forall c, better i c s = true -> better i c (assign i v s) = true).
  { intros c Hc. apply better_spec in Hc as (k' & Hk' & Hne & H1 & H2).
    apply better_spec. exists k'. destruct (assign_other i k' v s Hne) as [-> ->].
    repeat split; assumption. }
  assert (Hlive_i : live i).
  { destruct (dead_or_live i Hi) as [Hd'|Hl]; [|exact Hl].
    exfalso. apply Hheld, Hdead; assumption. }
  split.
  - unfold assign. simpl. rewrite length_insert. exact Hlm.
  - unfold assign. simpl. rewrite length_insert. exact Hld.
  - intros k Hk Hdk. destruct (decide (k = i)) as [->|Hne].
    + exfalso. apply Hheld, Hdead; assumption.
    + destruct (assign_other i k v s Hne) as [-> _]. apply Hdead; assumption.
  - intros k Hk Hnone_k Hlive j Hj. destruct (decide (k = i)) as [->|Hne].
    + rewrite Hm in Hnone_k. apply Hstay. apply Hnone; assumption.
    + destruct (assign_other i k v s Hne) as [Hmk _]. rewrite Hmk in Hnone_k.
      apply better_after_assign; [exact Hne|apply Hexh; assumption| |intros _; exact Hblocked].
      rewrite Hnone_k. apply observations_are_not_the_flag; assumption.
  - intros k Hk Hheld_k. destruct (decide (k = i)) as [->|Hne].
    + rewrite Hm in Hheld_k. destruct (Hsome Hheld_k) as (j & Hj & Hrow & Hbefore).
      exists j. split; [exact Hj|]. split; [rewrite Hm, Hd, Hrow; destruct v; reflexivity|].
      intros j' Hj'. apply Hstay, Hbefore, Hj'.
    + destruct (assign_other i k v s Hne) as [Hmk Hdk]. rewrite Hmk in Hheld_k.
      destruct (Hhold k Hk Hheld_k) as (j & Hj & Hrow & Hbefore).
      exists j. split; [exact Hj|]. split; [rewrite Hmk, Hdk; exact Hrow|].
      intros j' Hj'.
      apply better_after_assign; [exact Hne|apply Hbefore, Hj'| |intros _; exact Hblocked].
      intros Heq. assert (j' = j); [|lia].
      apply (distinct_observations k); [exact Hk|lia|exact Hj|]. rewrite Hrow. exact Heq.
Qed.

Local Abbreviation scan := (scanSlot M N noMatchFlag maxDistance rows).

(** The scan of slot [i] from candidate [a] on, everything before [a]
    being blocked. *)
Lemma scanSlot_from_outcome (i : nat) (s : MatchState) (n a : nat) :
  live i -> mm s i <> noMatchFlag -> (a + n = N)%nat ->
  (forall j', (j' < a)%nat -> better i (row i j') s = true) ->
  Outcome i s (scan (seq a n) i s).
Proof.
  intros Hlive Hheld. revert a.
  induction n as [|n IH]; intros a Han Hblocked; simpl; [constructor|].
  destruct (mm s i =? noMatchFlag) eqn:Hflag; [constructor|].
  change ((rows !!! i) !!! a) with (row i a).
  rewrite (Hlive a) by lia.
  destruct (better i (row i a) s) eqn:Hb.
  - destruct (Z.of_nat a =? Z.of_nat N - 1) eqn:Hlast.
    + apply Z.eqb_eq in Hlast. assert (n = 0%nat) as -> by lia. simpl.
      apply StraysSpec.GivesUp; [exact Hheld|]. intros j Hj.
      destruct (decide (j = a)) as [->|Hne]; [exact Hb|]. apply Hblocked. lia.
    + apply IH; [lia|]. intros j' Hj'.
      destruct (decide (j' = a)) as [->|Hne]; [exact Hb|]. apply Hblocked. lia.
  - destruct (negb (mm s i =? (row i a).1)) eqn:Hsame; simpl; [|constructor].
    apply negb_true_iff, Z.eqb_neq in Hsame.
    apply StraysSpec.MovesOn; [exact Hheld|lia|exact Hblocked|exact Hb|exact Hsame].
Qed.

Lemma held_slot_live (i : nat) (s : MatchState) :
  Inv s -> (i < M)%nat -> mm s i <> noMatchFlag -> live i.
Proof.
  intros HI Hi Hheld. destruct (dead_or_live i Hi) as [Hd|Hl]; [|exact Hl].
  exfalso. apply Hheld. apply (inv_dead s HI); assumption.
Qed.

Lemma scanSlot_outcome (i : nat) (s : MatchState) :
  Inv s -> (i < M)%nat -> Outcome i s (scan (seq 0 N) i s).
Proof.
  intros HI Hi. destruct (decide (mm s i = noMatchFlag)) as [Hnone|Hheld].
  - destruct N as [|n]; simpl; [constructor|].
    apply Z.eqb_eq in Hnone. rewrite Hnone. constructor.
  - apply scanSlot_from_outcome; [|exact Hheld|lia|intros j' Hj'; lia].
    eapply held_slot_live; eassumption.
Qed.

(** A slot that moves on moves to a later candidate. *)
Lemma moves_on_later (i : nat) (s : MatchState) (jh j : nat) :
  row i jh = (mm s i, md s i) ->
  (forall j', (j' < jh)%nat -> better i (row i j') s = true) ->
  better i (row i j) s = false ->
  mm s i <> (row i j).1 ->
  (jh < j)%nat.
Proof.
  intros Hrow Hbefore Hb Hne.
  destruct (Nat.lt_trichotomy jh j) as [Hlt|[Heq|Hgt]]; [exact Hlt| |].
  - subst j. rewrite Hrow in Hne. simpl in Hne. congruence.
  - rewrite (Hbefore j Hgt) in Hb. discriminate.
Qed.

Lemma Outcome_Inv (i : nat) (s : MatchState) (r : MatchState * bool) :
  Inv s -> (i < M)%nat -> Outcome i s r -> Inv r.1.
Proof.
  intros HI Hi Hr.
  destruct Hr as [|Hheld Hall|j Hheld Hj Hbefore Hb Hne]; simpl; [exact HI| |];
    destruct (inv_holding s HI i Hi Hheld) as (jh & Hjh & Hrow & Hbefore');
    apply Inv_assign; try assumption.
  - rewrite <- Hrow. apply Hall, Hjh.
  - intros _. split; [|exact Hall]. eapply held_slot_live; eassumption.
  - intros Hne. exfalso. apply Hne. reflexivity.
  - rewrite <- Hrow. apply Hbefore. eapply moves_on_later; eassumption.
  - intros Hnone. exfalso.
    apply (observations_are_not_the_flag i j); [exact Hi|lia|exact Hnone].
  - intros _. exists j. split; [lia|]. split; [reflexivity|exact Hbefore].
Qed.

Lemma scanSlot_Inv (i : nat) (s : MatchState) :
  Inv s -> (i < M)%nat -> Inv (scan (seq 0 N) i s).1.
Proof. intros HI Hi. eapply Outcome_Inv; [exact HI|exact Hi|apply scanSlot_outcome; assumption]. Qed.

Lemma scanSlots_Inv (slots : list nat) (s : MatchState) :
  Inv s -> Forall (fun i => (i < M)%nat) slots ->
  Inv (scanSlots M N noMatchFlag maxDistance rows slots s).1.
Proof.
  revert s. induction slots as [|i slots IH]; intros s HI Hslots; simpl; [exact HI|].
  apply Forall_cons in Hslots as [Hi Hslots].
  pose proof (scanSlot_Inv i s HI Hi) as H1.
  destruct (scan (seq 0 N) i s) as [s' top]. simpl in H1.
  destruct top; [exact H1|]. apply IH; assumption.
Qed.

Lemma resolveConflicts_Inv (fuel : nat) (s s' : MatchState) :
  Inv s -> resolveConflicts M N noMatchFlag maxDistance rows fuel s = Some s' -> Inv s'.
Proof.
  revert s. induction fuel as [|fuel IH]; intros s HI; simpl; [discriminate|].
  pose proof (scanSlots_Inv (seq 0 M) s HI) as H1.
  destruct (scanSlots M N noMatchFlag maxDistance rows (seq 0 M) s) as [s1 top]. simpl in H1.
  assert (Hs1 : Inv s1).
  { apply H1. apply Forall_forall. intros i Hin. apply elem_of_seq in Hin. lia. }
  destruct top; [apply IH; exact Hs1|]. intros [= <-]. exact Hs1.
Qed.

(** The initial claims, slot by slot. *)
Lemma initialClaims_fold (n a : nat) (s0 : MatchState) :
  length (minMatchedIndex s0) = M -> length (minDistance s0) = M -> (a + n <= M)%nat ->
  length (minMatchedIndex (fold_left claimNearest (seq a n) s0)) = M
  /\ length (minDistance (fold_left claimNearest (seq a n) s0)) = M
  /\ forall k, (k < M)%nat ->
       ((a <= k < a + n)%nat ->
        (mm (fold_left claimNearest (seq a n) s0) k, md (fold_left claimNearest (seq a n) s0) k)
        = if fne (row k 0).2 maxDistance then row k 0 else (mm s0 k, md s0 k))
       /\ (~ (a <= k < a + n)%nat ->
           mm (fold_left claimNearest (seq a n) s0) k = mm s0 k
           /\ md (fold_left claimNearest (seq a n) s0) k = md s0 k).
Proof.
  revert a s0. induction n as [|n IH]; intros a s0 Hlm Hld Han.
  - simpl. split; [exact Hlm|]. split; [exact Hld|]. intros k Hk.
    split; [lia|]. intros _. split; reflexivity.
  - cbn [seq fold_left].
    assert (Hlm1 : length (minMatchedIndex (claimNearest s0 a)) = M).
    { unfold StraysSpec.claimNearest. destruct (fne _ _); [unfold assign; simpl; rewrite length_insert|];
        exact Hlm. }
    assert (Hld1 : length (minDistance (claimNearest s0 a)) = M).
    { unfold StraysSpec.claimNearest. destruct (fne _ _); [unfold assign; simpl; rewrite length_insert|];
        exact Hld. }
    destruct (IH (S a) (claimNearest s0 a) Hlm1 Hld1 ltac:(lia)) as (H1 & H2 & H3).
    split; [exact H1|]. split; [exact H2|]. intros k Hk.
    destruct (H3 k Hk) as [Hin Hout]. split.
    + intros Hrange. destruct (decide (k = a)) as [->|Hne].
      * destruct (Hout ltac:(lia)) as [-> ->]. unfold StraysSpec.claimNearest.
        destruct (fne (row a 0).2 maxDistance); [|reflexivity].
        destruct (assign_same a (row a 0) s0 ltac:(lia) ltac:(lia)) as [-> ->].
        destruct (row a 0); reflexivity.
      * rewrite (Hin ltac:(lia)). unfold StraysSpec.claimNearest.
        destruct (fne (row k 0).2 maxDistance); [reflexivity|].
        destruct (fne (row a 0).2 maxDistance); [|reflexivity].
        destruct (assign_other a k (row a 0) s0 Hne) as [-> ->]. reflexivity.
    + intros Hrange. destruct (Hout ltac:(lia)) as [-> ->]. unfold StraysSpec.claimNearest.
      destruct (fne (row a 0).2 maxDistance); [|split; reflexivity].
      apply assign_other. lia.
Qed.

Lemma initialClaims_Inv : Inv (initialClaims M noMatchFlag maxDistance rows).
Proof.
  change (initialClaims M noMatchFlag maxDistance rows)
    with (fold_left claimNearest (seq 0 M)
            {| minMatchedIndex := replicate M noMatchFlag;
               minDistance := replicate M maxDistance |}).
  destruct (initialClaims_fold M 0
              {| minMatchedIndex := replicate M noMatchFlag;
                 minDistance := replicate M maxDistance |})
    as (Hlm & Hld & Hk); simpl; [apply length_replicate|apply length_replicate|lia|].
  split; [exact Hlm|exact Hld| | |].
  - intros k HkM Hdead. destruct (Hk k HkM) as [Hin _]. specialize (Hin ltac:(lia)).
    unfold fne in Hin. rewrite (Hdead 0%nat) in Hin by lia. simpl in Hin.
    injection Hin as -> _. apply lookup_total_replicate_2. exact HkM.
  - intros k HkM Hnone Hlive. exfalso.
    destruct (Hk k HkM) as [Hin _]. specialize (Hin ltac:(lia)).
    unfold fne in Hin. rewrite (Hlive 0%nat) in Hin by lia. simpl in Hin.
    apply (observations_are_not_the_flag k 0%nat); [exact HkM|lia|].
    rewrite <- Hnone. destruct (row k 0). injection Hin as -> _. reflexivity.
  - intros k HkM Hheld. destruct (Hk k HkM) as [Hin _]. specialize (Hin ltac:(lia)).
    destruct (fne (row k 0).2 maxDistance).
    + exists 0%nat. split; [lia|]. split; [symmetry; exact Hin|]. intros j' Hj'. lia.
    + exfalso. apply Hheld. injection Hin as -> _. apply lookup_total_replicate_2. exact HkM.
Qed.


(** *** Conflict resolution ends *)

Hypothesis row_length : forall i, (i < M)%nat -> length (rows !!! i) = N.

Lemma indexOfObservation_at (candidates : list Candidate) (j : nat) (c : Candidate) :
  candidates !! j = Some c ->
  (forall j1 j2 c1 c2, candidates !! j1 = Some c1 -> candidates !! j2 = Some c2 ->
                       c1.1 = c2.1 -> j1 = j2) ->
  StraysSpec.indexOfObservation c.1 candidates = j.
Proof.
  revert j. induction candidates as [|c0 candidates IH]; intros j Hj Hdistinct;
    [discriminate|].
  simpl. destruct j as [|j]; simpl in Hj.
  - injection Hj as ->. rewrite Z.eqb_refl. reflexivity.
  - destruct (c0.1 =? c.1) eqn:Heq.
    + apply Z.eqb_eq in Heq.
      pose proof (Hdistinct 0%nat (S j) c0 c eq_refl Hj Heq). lia.
    + f_equal. apply IH; [exact Hj|]. intros j1 j2 c1 c2 H1 H2 H.
      pose proof (Hdistinct (S j1) (S j2) c1 c2 H1 H2 H). lia.
Qed.

Lemma slotRank_holding (s : MatchState) (k j : nat) :
  (k < M)%nat -> (j < N)%nat -> mm s k = (row k j).1 -> slotRank s k = j.
Proof.
  intros Hk Hj Hrow. unfold StraysSpec.slotRank.
  destruct (mm s k =? noMatchFlag) eqn:Hflag.
  - apply Z.eqb_eq in Hflag. exfalso.
    apply (observations_are_not_the_flag k j); [exact Hk|exact Hj|congruence].
  - rewrite Hrow. apply indexOfObservation_at.
    + apply list_lookup_lookup_total_lt. rewrite row_length by exact Hk. exact Hj.
    + intros j1 j2 c1 c2 H1 H2 H.
      pose proof (lookup_lt_Some _ _ _ H1) as Hl1. pose proof (lookup_lt_Some _ _ _ H2) as Hl2.
      rewrite row_length in Hl1, Hl2 by exact Hk.
      apply (distinct_observations k); [exact Hk|exact Hl1|exact Hl2|].
      unfold StraysSpec.candidateAt.
      rewrite (list_lookup_total_correct _ _ _ H1), (list_lookup_total_correct _ _ _ H2).
      exact H.
Qed.

Lemma slotRank_bound (s : MatchState) (k : nat) :
  Inv s -> (k < M)%nat -> (slotRank s k <= N)%nat.
Proof.
  intros HI Hk. destruct (decide (mm s k = noMatchFlag)) as [Hnone|Hheld].
  - unfold StraysSpec.slotRank. apply Z.eqb_eq in Hnone. rewrite Hnone. lia.
  - destruct (inv_holding s HI k Hk Hheld) as (j & Hj & Hrow & _).
    rewrite (slotRank_holding s k j); [lia|exact Hk|exact Hj|]. rewrite Hrow. reflexivity.
Qed.

Lemma slotRank_assign_other (i k : nat) (v : Candidate) (s : MatchState) :
  k <> i -> slotRank (assign i v s) k = slotRank s k.
Proof.
  intros Hne. unfold StraysSpec.slotRank. destruct (assign_other i k v s Hne) as [-> _]. reflexivity.
Qed.

(** No scan lowers the rank of a slot, and a scan that asks for another
    round raises the rank of its slot. *)
Lemma Outcome_rank (i : nat) (s : MatchState) (r : MatchState * bool) :
  Inv s -> (i < M)%nat -> Outcome i s r ->
  (forall k, (k < M)%nat -> (slotRank s k <= slotRank r.1 k)%nat)
  /\ (r.2 = true -> (slotRank s i < slotRank r.1 i)%nat).
Proof.
  intros HI Hi Hr.
  destruct Hr as [|Hheld Hall|j Hheld Hj Hbefore Hb Hne]; simpl;
    [split; [intros; lia|discriminate]| |];
    destruct (inv_holding s HI i Hi Hheld) as (jh & Hjh & Hrow & Hbefore');
    assert (Hrank : slotRank s i = jh)
      by (apply slotRank_holding; [exact Hi|exact Hjh|rewrite Hrow; reflexivity]).
  - split; [|discriminate]. intros k Hk. destruct (decide (k = i)) as [->|Hki].
    + rewrite Hrank. unfold StraysSpec.slotRank.
      destruct (assign_same i NONE s) as [-> _];
        [rewrite (inv_indices s HI); exact Hi|rewrite (inv_distances s HI); exact Hi|].
      simpl. rewrite Z.eqb_refl. lia.
    + rewrite slotRank_assign_other by exact Hki. lia.
  - assert (Hnew : slotRank (assign i (row i j) s) i = j).
    { apply slotRank_holding; [exact Hi|exact Hj|].
      destruct (assign_same i (row i j) s) as [-> _];
        [rewrite (inv_indices s HI); exact Hi|rewrite (inv_distances s HI); exact Hi|].
      reflexivity. }
    assert (Hlater : (jh < j)%nat) by (eapply moves_on_later; eassumption).
    split; [|intros _; lia]. intros k Hk. destruct (decide (k = i)) as [->|Hki]; [lia|].
    rewrite slotRank_assign_other by exact Hki. lia.
Qed.

Lemma scanSlots_rank (slots : list nat) (s : MatchState) :
  Inv s -> Forall (fun i => (i < M)%nat) slots ->
  (forall k, (k < M)%nat ->
     (slotRank s k
      <= slotRank (scanSlots M N noMatchFlag maxDistance rows slots s).1 k)%nat)
  /\ ((scanSlots M N noMatchFlag maxDistance rows slots s).2 = true ->
      exists i, (i < M)%nat
                /\ (slotRank s i
                    < slotRank (scanSlots M N noMatchFlag maxDistance rows slots s).1 i)%nat).
Proof.
  revert s. induction slots as [|i slots IH]; intros s HI Hslots; simpl;
    [split; [intros; lia|discriminate]|].
  apply Forall_cons in Hslots as [Hi Hslots].
  pose proof (scanSlot_outcome i s HI Hi) as Hout.
  pose proof (Outcome_Inv i s _ HI Hi Hout) as HI1.
  destruct (Outcome_rank i s _ HI Hi Hout) as [Hle Hlt].
  destruct (scan (seq 0 N) i s) as [s1 top]. simpl in *.
  destruct top; simpl.
  - split; [exact Hle|]. intros _. exists i. split; [exact Hi|]. apply Hlt. reflexivity.
  - destruct (IH s1 HI1 Hslots) as [Hle' Hlt']. split.
    + intros k Hk. specialize (Hle k Hk). specialize (Hle' k Hk). lia.
    + intros Htop. destruct (Hlt' Htop) as (i' & Hi' & Hlt'').
      exists i'. split; [exact Hi'|]. specialize (Hle i' Hi'). lia.
Qed.

Lemma sum_list_with_le_lt {A : Type} (f g : A -> nat) (l : list A) :
  Forall (fun x => (f x <= g x)%nat) l ->
  (sum_list_with f l <= sum_list_with g l)%nat
  /\ (Exists (fun x => (f x < g x)%nat) l -> (sum_list_with f l < sum_list_with g l)%nat).
Proof.
  induction 1 as [|x l Hx _ [IH1 IH2]]; simpl.
  - split; [lia|]. intros H. apply Exists_nil in H. contradiction.
  - split; [lia|]. intros H. apply Exists_cons in H as [H|H]; [lia|]. specialize (IH2 H). lia.
Qed.

Lemma rank_bound (s : MatchState) : Inv s -> (rank s <= M * N)%nat.
Proof.
  intros HI. unfold StraysSpec.rank.
  assert (H : forall l, Forall (fun k => (k < M)%nat) l ->
                        (sum_list_with (slotRank s) l <= length l * N)%nat).
  { induction 1 as [|k l Hk _ IH]; simpl; [lia|].
    pose proof (slotRank_bound s k HI Hk). lia. }
  specialize (H (seq 0 M)). rewrite length_seq in H. apply H.
  apply Forall_forall. intros k Hk. apply elem_of_seq in Hk. lia.
Qed.

(** Every round that asks for another one raises the rank, which the size
    of the table bounds: conflict resolution ends within [M * N + 1]
    rounds. *)
Lemma resolveConflicts_terminates (fuel : nat) (s : MatchState) :
  Inv s -> (M * N < rank s + fuel)%nat ->
  exists s', resolveConflicts M N noMatchFlag maxDistance rows fuel s = Some s'.
Proof.
  revert s. induction fuel as [|fuel IH]; intros s HI Hfuel.
  - pose proof (rank_bound s HI). lia.
  - simpl.
    assert (Hslots : Forall (fun i => (i < M)%nat) (seq 0 M)).
    { apply Forall_forall. intros i Hi. apply elem_of_seq in Hi. lia. }
    pose proof (scanSlots_Inv (seq 0 M) s HI Hslots) as HI1.
    destruct (scanSlots_rank (seq 0 M) s HI Hslots) as [Hle Hlt].
    destruct (scanSlots M N noMatchFlag maxDistance rows (seq 0 M) s) as [s1 top].
    simpl in *. destruct top; [|eexists; reflexivity].
    apply IH; [exact HI1|].
    destruct (Hlt eq_refl) as (i & Hi & Hstrict).
    assert (rank s < rank s1)%nat; [|lia].
    unfold StraysSpec.rank. apply sum_list_with_le_lt.
    + apply Forall_forall. intros k Hk. apply elem_of_seq in Hk. apply Hle. lia.
    + apply Exists_exists. exists i. split; [apply elem_of_seq; lia|exact Hstrict].
Qed.

Theorem MatchStrays_terminates (fuel : nat) :
  (M * N < fuel)%nat ->
  exists matched, MatchStrays M N noMatchFlag maxDistance rows fuel = Some matched.
Proof.
  intros Hfuel. unfold MatchStrays.
  destruct (resolveConflicts_terminates fuel (initialClaims M noMatchFlag maxDistance rows)
              initialClaims_Inv ltac:(lia)) as (s' & ->).
  eexists. reflexivity.
Qed.

(** *** The claims conflict resolution ends with *)

(** The claim of slot [k] is one no other slot holds at a strictly smaller
    distance. *)
Local Abbreviation settled s k :=
  (mm s k <> noMatchFlag -> better k (mm s k, md s k) s = false).

Lemma scanSlot_cons (j : nat) (js : list nat) (i : nat) (s : MatchState) :
  scan (j :: js) i s
  = if mm s i =? noMatchFlag then (s, false)
    else if PrimFloat.eqb (row i j).2 maxDistance then (assign i NONE s, false)
    else if better i (row i j) s
         then scan js i (if Z.of_nat j =? Z.of_nat N - 1 then assign i NONE s else s)
         else if negb (mm s i =? (row i j).1) then (assign i (row i j) s, true)
         else (s, false).
Proof. reflexivity. Qed.

(** A scan that does not ask for another round either leaves the slot
    without a claim or has found the slot's own claim not blocked. *)
Lemma scanSlot_from_settled (i : nat) (s : MatchState) (n a : nat) :
  Inv s -> (i < M)%nat -> live i -> mm s i <> noMatchFlag -> (a + S n = N)%nat ->
  forall s', scan (seq a (S n)) i s = (s', false) ->
    mm s' i = noMatchFlag
    \/ (s' = s /\ exists j, (j < N)%nat /\ better i (row i j) s = false
                            /\ mm s i = (row i j).1).
Proof.
  intros HI Hi Hlive Hheld. revert a.
  assert (Hflag : (mm s i =? noMatchFlag) = false) by (apply Z.eqb_neq; exact Hheld).
  induction n as [|n IH]; intros a Han s'; cbn [seq]; rewrite scanSlot_cons, Hflag;
    rewrite (Hlive a) by lia; destruct (better i (row i a) s) eqn:Hb.
  - replace (Z.of_nat a =? Z.of_nat N - 1) with true by (symmetry; apply Z.eqb_eq; lia).
    cbn [scanSlot]. intros [= <-]. left.
    destruct (assign_same i NONE s) as [-> _];
      [rewrite (inv_indices s HI); exact Hi|rewrite (inv_distances s HI); exact Hi|reflexivity].
  - destruct (negb (mm s i =? (row i a).1)) eqn:Hsame; [discriminate|].
    intros [= <-]. right. split; [reflexivity|]. exists a. split; [lia|]. split; [exact Hb|].
    apply negb_false_iff, Z.eqb_eq in Hsame. exact Hsame.
  - replace (Z.of_nat a =? Z.of_nat N - 1) with false by (symmetry; apply Z.eqb_neq; lia).
    apply IH. lia.
  - destruct (negb (mm s i =? (row i a).1)) eqn:Hsame; [discriminate|].
    intros [= <-]. right. split; [reflexivity|]. exists a. split; [lia|]. split; [exact Hb|].
    apply negb_false_iff, Z.eqb_eq in Hsame. exact Hsame.
Qed.

Lemma scanSlot_settled (i : nat) (s s' : MatchState) :
  Inv s -> (i < M)%nat -> scan (seq 0 N) i s = (s', false) ->
  (s' = s \/ s' = assign i NONE s) /\ settled s' i.
Proof.
  intros HI Hi Hscan. split.
  - pose proof (scanSlot_outcome i s HI Hi) as Hout. rewrite Hscan in Hout.
    inversion Hout; [left; reflexivity|right; reflexivity].
  - destruct (decide (mm s i = noMatchFlag)) as [Hnone|Hheld].
    + assert (Hseq : seq 0 N = 0%nat :: seq 1 (N - 1)).
      { replace N with (S (N - 1)) at 1 by lia. reflexivity. }
      rewrite Hseq, scanSlot_cons in Hscan.
      apply Z.eqb_eq in Hnone as Hflag. rewrite Hflag in Hscan. injection Hscan as <-.
      intros Hheld. contradiction.
    + assert (Hseq : seq 0 N = seq 0 (S (N - 1))) by (f_equal; lia).
      rewrite Hseq in Hscan.
      destruct (scanSlot_from_settled i s (N - 1) 0 HI Hi (held_slot_live i s HI Hi Hheld) Hheld
                  ltac:(lia) s' Hscan) as [Hnone|(-> & j & Hj & Hb & Hrow)].
      * intros Hheld'. contradiction.
      * intros _. destruct (inv_holding s HI i Hi Hheld) as (jh & Hjh & Hrowh & _).
        assert (jh = j) as ->.
        { apply (distinct_observations i); [exact Hi|exact Hjh|exact Hj|].
          rewrite Hrowh. exact Hrow. }
        rewrite <- Hrowh. exact Hb.
Qed.

(** A claim that is not blocked stays so when another slot gives its claim
    up. *)
Lemma settled_after_giving_up (i k : nat) (s : MatchState) :
  Inv s -> (i < M)%nat -> k <> i -> settled s k -> settled (assign i NONE s) k.
Proof.
  intros HI Hi Hne Hs. destruct (assign_other i k NONE s Hne) as [-> ->]. intros Hheld.
  specialize (Hs Hheld).
  destruct (better k (mm s k, md s k) (assign i NONE s)) eqn:Hb; [|reflexivity].
  apply better_spec in Hb as (k' & Hk' & Hne' & H1 & H2). cbn [fst snd] in H1, H2.
  destruct (decide (k' = i)) as [->|Hk'i].
  - destruct (assign_same i NONE s) as [Hm _];
      [rewrite (inv_indices s HI); exact Hi|rewrite (inv_distances s HI); exact Hi|].
    rewrite Hm in H1. simpl in H1. congruence.
  - destruct (assign_other i k' NONE s Hk'i) as [Hm Hd]. rewrite Hm in H1. rewrite Hd in H2.
    assert (Hold : better k (mm s k, md s k) s = true).
    { apply better_spec. exists k'. repeat split; assumption. }
    congruence.
Qed.

Lemma scanSlots_settled (slots : list nat) (s s' : MatchState) :
  Inv s -> Forall (fun i => (i < M)%nat) slots ->
  scanSlots M N noMatchFlag maxDistance rows slots s = (s', false) ->
  (forall k, (k < M)%nat -> settled s k -> settled s' k)
  /\ (forall k, k ∈ slots -> settled s' k).
Proof.
  revert s. induction slots as [|i slots IH]; intros s HI Hslots; simpl.
  - intros [= <-]. split; [intros k _ H; exact H|].
    intros k Hk. apply elem_of_nil in Hk. contradiction.
  - apply Forall_cons in Hslots as [Hi Hslots].
    pose proof (scanSlot_Inv i s HI Hi) as HI1.
    destruct (scan (seq 0 N) i s) as [s1 top] eqn:Hscan. simpl in HI1.
    destruct top; [discriminate|]. intros Hrest.
    destruct (scanSlot_settled i s s1 HI Hi Hscan) as [Hshape Hi1].
    destruct (IH s1 HI1 Hslots Hrest) as [Hkeep Hnew].
    assert (Hstep : forall k, (k < M)%nat -> settled s k -> settled s1 k).
    { intros k Hk Hsk. destruct (decide (k = i)) as [->|Hne]; [exact Hi1|].
      destruct Hshape as [->| ->]; [exact Hsk|].
      apply settled_after_giving_up; assumption. }
    split.
    + intros k Hk Hsk. apply Hkeep; [exact Hk|]. apply Hstep; assumption.
    + intros k Hin. apply elem_of_cons in Hin as [->|Hin]; [|apply Hnew; exact Hin].
      apply Hkeep; [exact Hi|exact Hi1].
Qed.

Lemma resolveConflicts_settled (fuel : nat) (s s' : MatchState) :
  Inv s -> resolveConflicts M N noMatchFlag maxDistance rows fuel s = Some s' ->
  forall k, (k < M)%nat -> settled s' k.
Proof.
  revert s. induction fuel as [|fuel IH]; intros s HI; simpl; [discriminate|].
  assert (Hslots : Forall (fun i => (i < M)%nat) (seq 0 M)).
  { apply Forall_forall. intros i Hi. apply elem_of_seq in Hi. lia. }
  pose proof (scanSlots_Inv (seq 0 M) s HI Hslots) as HI1.
  destruct (scanSlots M N noMatchFlag maxDistance rows (seq 0 M) s) as [s1 top] eqn:Hpass.
  simpl in HI1. destruct top; [apply IH; exact HI1|].
  intros [= <-] k Hk.
  destruct (scanSlots_settled (seq 0 M) s s1 HI Hslots Hpass) as [_ Hnew].
  apply Hnew. apply elem_of_seq. lia.
Qed.

(** What [MatchStrays] returns: every slot with a match holds a candidate
    of its row, which is live, and a slot shares its observation with
    another slot only if that slot is not strictly nearer to it. *)
Lemma MatchStrays_claims (fuel : nat) (matched : list Z) :
  MatchStrays M N noMatchFlag maxDistance rows fuel = Some matched ->
  exists distances : list float,
    length matched = M
    /\ (forall k, (k < M)%nat -> matched !!! k <> noMatchFlag ->
          live k /\ exists j, (j < N)%nat /\ row k j = (matched !!! k, distances !!! k))
    /\ (forall i k, (i < M)%nat -> (k < M)%nat -> i <> k ->
          matched !!! i <> noMatchFlag -> matched !!! i = matched !!! k ->
          PrimFloat.ltb (distances !!! k) (distances !!! i) = false).
Proof.
  unfold MatchStrays. intros H.
  destruct (resolveConflicts M N noMatchFlag maxDistance rows fuel _) as [s|] eqn:Hs;
    [|discriminate].
  injection H as <-.
  pose proof (resolveConflicts_Inv fuel _ s initialClaims_Inv Hs) as HI.
  pose proof (resolveConflicts_settled fuel _ s initialClaims_Inv Hs) as Hsettled.
  exists (minDistance s). split; [apply (inv_indices s HI)|]. split.
  - intros k Hk Hheld. split; [eapply held_slot_live; eassumption|].
    destruct (inv_holding s HI k Hk Hheld) as (j & Hj & Hrow & _).
    exists j. split; [exact Hj|exact Hrow].
  - intros i k Hi Hk Hne Hheld Hsame.
    destruct (PrimFloat.ltb (md s k) (md s i)) eqn:Hlt; [|reflexivity].
    assert (Hb : better i (mm s i, md s i) s = true).
    { apply better_spec. exists k. repeat split; [exact Hk|congruence|exact Hsame|exact Hlt]. }
    rewrite (Hsettled i Hi Hheld) in Hb. discriminate.
Qed.

End MatcherInvariant.

Section DistanceRows.
Import Strays.

(** Sorting a row rearranges it. *)
Lemma insertByDistance_Permutation (e : Candidate) (l : list Candidate) :
  insertByDistance e l ≡ₚ e :: l.
Proof.
  induction l as [|h t IH]; simpl; [reflexivity|].
  destruct (PrimFloat.ltb e.2 h.2); [reflexivity|].
  rewrite IH. apply Permutation_swap.
Qed.

Lemma sortRow_Permutation (row : list Candidate) : sortRow row ≡ₚ row.
Proof.
  unfold sortRow.
  assert (H : forall acc, fold_left (fun acc e => insertByDistance e acc) row acc ≡ₚ acc ++ row).
  { induction row as [|e row IH]; intros acc; simpl.
    - rewrite app_nil_r. reflexivity.
    - rewrite IH, insertByDistance_Permutation.
      change (e :: acc ++ row) with ((e :: acc) ++ row).
      rewrite (Permutation_middle acc row e). reflexivity. }
  apply (H []).
Qed.

(** Sorting a row puts it in ascending order of distance. *)
Lemma insertByDistance_ascending (e : Candidate) (l : list Candidate) :
  StraysOrder.ascending l -> StraysOrder.ascending (insertByDistance e l).
Proof.
  induction l as [|h t IH]; intros Hl; [exact I|].
  cbn [insertByDistance]. destruct (PrimFloat.ltb e.2 h.2) eqn:Hlt.
  - split; [apply ltb_asym; exact Hlt|exact Hl].
  - destruct t as [|t0 t'].
    + split; [exact Hlt|exact I].
    + destruct Hl as [Hh Ht]. specialize (IH Ht). cbn [insertByDistance] in IH |- *.
      destruct (PrimFloat.ltb e.2 t0.2); (split; [assumption|exact IH]).
Qed.

Lemma sortRow_ascending (row : list Candidate) : StraysOrder.ascending (sortRow row).
Proof.
  unfold sortRow.
  assert (H : forall acc, StraysOrder.ascending acc ->
                StraysOrder.ascending (fold_left (fun acc e => insertByDistance e acc) row acc)).
  { induction row as [|e row IH]; intros acc Hacc; simpl; [exact Hacc|].
    apply IH, insertByDistance_ascending, Hacc. }
  apply H. exact I.
Qed.

Lemma ascending_lookup (l : list Candidate) (n : nat) (a b : Candidate) :
  StraysOrder.ascending l -> l !! n = Some a -> l !! S n = Some b ->
  PrimFloat.ltb b.2 a.2 = false.
Proof.
  revert n. induction l as [|h t IH]; intros n Hl Ha Hb; [discriminate|].
  destruct t as [|t0 t']; [discriminate|]. destruct Hl as [Hh Ht].
  destruct n as [|n]; simpl in Ha, Hb.
  - injection Ha as <-. injection Hb as <-. exact Hh.
  - eapply IH; eassumption.
Qed.

Variable M N : nat.
Variable maxDistance : float.
Variable P C : list Pos3.

Local Abbreviation distanceAt := (StraysSpec.distanceAt maxDistance P C).
Local Abbreviation unsortedRow := (StraysSpec.unsortedRow N maxDistance P C).
Local Abbreviation sortedRows := (StraysSpec.sortedRows M N maxDistance P C).
Local Abbreviation candidateAt := StraysSpec.candidateAt.

Lemma sortedRows_lookup (i : nat) :
  (i < M)%nat -> sortedRows !!! i = sortRow (unsortedRow i).
Proof.
  intros Hi. unfold StraysSpec.sortedRows, SortDistanceStrays, GetDistanceStrays.
  apply list_lookup_total_correct.
  rewrite !list_lookup_fmap, lookup_seq_lt by exact Hi. reflexivity.
Qed.

Lemma sortedRows_length (i : nat) :
  (i < M)%nat -> length (sortedRows !!! i) = N.
Proof.
  intros Hi. rewrite sortedRows_lookup by exact Hi.
  rewrite (Permutation_length (sortRow_Permutation _)).
  unfold StraysSpec.unsortedRow. rewrite length_fmap, length_seq. reflexivity.
Qed.

(** Every candidate of a sorted row is an observation with its distance. *)
Lemma sortedRows_candidate (i j : nat) :
  (i < M)%nat -> (j < N)%nat ->
  exists o, (o < N)%nat /\ candidateAt sortedRows i j = (Z.of_nat o, distanceAt i o).
Proof.
  intros Hi Hj. unfold StraysSpec.candidateAt.
  assert (Hin : (sortedRows !!! i) !!! j ∈ unsortedRow i).
  { rewrite <- (sortRow_Permutation (unsortedRow i)), <- sortedRows_lookup by exact Hi.
    apply list_elem_of_lookup_total_2. rewrite sortedRows_length by exact Hi. exact Hj. }
  apply list_elem_of_fmap in Hin as (o & Heq & Ho). apply elem_of_seq in Ho.
  exists o. split; [lia|exact Heq].
Qed.


(** No observation is a candidate twice. *)
Lemma sortedRows_distinct (i j j' : nat) :
  (i < M)%nat -> (j < N)%nat -> (j' < N)%nat ->
  (candidateAt sortedRows i j).1 = (candidateAt sortedRows i j').1 -> j = j'.
Proof.
  intros Hi Hj Hj' Heq. unfold StraysSpec.candidateAt in Heq.
  assert (Hnodup : NoDup ((sortedRows !!! i).*1)).
  { rewrite sortedRows_lookup, sortRow_Permutation by exact Hi.
    unfold StraysSpec.unsortedRow. rewrite <- list_fmap_compose.
    apply NoDup_fmap_2; [|apply NoDup_seq]. intros x y H. simpl in H. lia. }
  eapply NoDup_lookup; [exact Hnodup| |].
  - rewrite list_lookup_fmap, list_lookup_lookup_total_lt
      by (rewrite sortedRows_length by exact Hi; exact Hj). reflexivity.
  - rewrite list_lookup_fmap, list_lookup_lookup_total_lt
      by (rewrite sortedRows_length by exact Hi; exact Hj'). simpl. f_equal. symmetry. exact Heq.
Qed.

End DistanceRows.

Section SlotUpdate.
Import Strays.

Variable noMatchFlag : Z.
Variable matched : list Z.
Variable straysPos : list Pos3.

Local Abbreviation step := (updateSlot noMatchFlag matched straysPos).
Local Abbreviation unmatchedAmong := (StraysSpec.unmatchedAmong noMatchFlag matched).

Lemma updateSlot_length (t : SlotTable) (i : nat) :
  length (LastStraysPos (step t i)) = length (LastStraysPos t)
  /\ length (LastStraysStatus (step t i)) = length (LastStraysStatus t).
Proof.
  unfold updateSlot.
  destruct (negb (matched !!! i =? noMatchFlag)); [|destruct (unusedStrays t)];
    simpl; rewrite ?length_insert; split; reflexivity.
Qed.

Lemma updateSlot_other (t : SlotTable) (i k : nat) :
  k <> i ->
  LastStraysPos (step t i) !! k = LastStraysPos t !! k
  /\ LastStraysStatus (step t i) !! k = LastStraysStatus t !! k.
Proof.
  intros Hne. unfold updateSlot.
  destruct (negb (matched !!! i =? noMatchFlag)); [|destruct (unusedStrays t)];
    simpl; rewrite ?list_lookup_insert_ne by congruence; split; reflexivity.
Qed.

Lemma updateSlots_length (slots : list nat) (t : SlotTable) :
  length (LastStraysPos (fold_left step slots t)) = length (LastStraysPos t)
  /\ length (LastStraysStatus (fold_left step slots t)) = length (LastStraysStatus t).
Proof.
  revert t. induction slots as [|a slots IH]; intros t; simpl; [split; reflexivity|].
  destruct (IH (step t a)) as [-> ->]. apply updateSlot_length.
Qed.

Lemma updateSlots_other (slots : list nat) (t : SlotTable) (k : nat) :
  k ∉ slots ->
  LastStraysPos (fold_left step slots t) !! k = LastStraysPos t !! k
  /\ LastStraysStatus (fold_left step slots t) !! k = LastStraysStatus t !! k.
Proof.
  revert t. induction slots as [|a slots IH]; intros t Hk; simpl; [split; reflexivity|].
  apply not_elem_of_cons in Hk as [Hne Hk].
  destruct (IH (step t a) Hk) as [-> ->]. apply updateSlot_other. exact Hne.
Qed.

(** What the second loop of [UpdateLastStraysData] leaves in the slots it
    visits: a matched slot gets its observation; the slots without a match
    get the unused observations in order, one each, for as long as there are
    any; the others keep their position and are MISSING. *)
Lemma updateSlots_spec (slots : list nat) (t : SlotTable) :
  NoDup slots ->
  Forall (fun i => (i < length (LastStraysPos t))%nat
                   /\ (i < length (LastStraysStatus t))%nat) slots ->
  forall i, i ∈ slots ->
    (matched !!! i <> noMatchFlag ->
     LastStraysPos (fold_left step slots t) !! i
       = Some (straysPos !!! Z.to_nat (matched !!! i))
     /\ LastStraysStatus (fold_left step slots t) !! i = Some TOOL_OK)
    /\ (matched !!! i = noMatchFlag ->
        (forall o, (i, o) ∈ zip (unmatchedAmong slots) (unusedStrays t) ->
           LastStraysPos (fold_left step slots t) !! i = Some (straysPos !!! Z.to_nat o)
           /\ LastStraysStatus (fold_left step slots t) !! i = Some TOOL_OK)
        /\ (i ∉ (zip (unmatchedAmong slots) (unusedStrays t)).*1 ->
            LastStraysPos (fold_left step slots t) !! i = LastStraysPos t !! i
            /\ LastStraysStatus (fold_left step slots t) !! i = Some TOOL_MISSING)).
Proof.
  revert t. induction slots as [|a slots IH]; intros t Hnodup Hlen i Hin;
    [apply elem_of_nil in Hin; contradiction|].
  apply NoDup_cons in Hnodup as [Ha Hnodup].
  apply Forall_cons in Hlen as [[Hap Has] Hlen].
  assert (Hlen1 : Forall (fun i => (i < length (LastStraysPos (step t a)))%nat
                                   /\ (i < length (LastStraysStatus (step t a)))%nat) slots).
  { destruct (updateSlot_length t a) as [-> ->]. exact Hlen. }
  cbn [fold_left]. unfold StraysSpec.unmatchedAmong. rewrite filter_cons.
  fold (StraysSpec.unmatchedAmong noMatchFlag matched slots).
  apply elem_of_cons in Hin as [->|Hin].
  - (* the slot visited first *)
    destruct (updateSlots_other slots (step t a) a Ha) as [-> ->].
    unfold updateSlot.
    destruct (decide (matched !!! a = noMatchFlag)) as [Hnone|Hheld].
    + rewrite Hnone, Z.eqb_refl. simpl. split; [intros H; contradiction|]. intros _.
      destruct (unusedStrays t) as [|u us]; simpl.
      * split; [intros o Ho; apply elem_of_nil in Ho; contradiction|]. intros _.
        split; [reflexivity|]. apply list_lookup_insert_eq. exact Has.
      * split.
        -- intros o Ho. apply elem_of_cons in Ho as [[= <-]|Ho].
           ++ rewrite !list_lookup_insert_eq by (rewrite ?length_insert; assumption).
              split; reflexivity.
           ++ exfalso. apply Ha. apply elem_of_zip_l in Ho.
              apply list_elem_of_filter in Ho as [_ Ho]. exact Ho.
        -- intros Hnot. exfalso. apply Hnot. simpl. left.
    + split; [|intros H; contradiction]. intros _.
      apply Z.eqb_neq in Hheld. rewrite Hheld. simpl.
      rewrite !list_lookup_insert_eq by (rewrite ?length_insert; assumption).
      split; reflexivity.
  - (* a slot visited later *)
    assert (Hne : i <> a) by (intros ->; contradiction).
    destruct (IH (step t a) Hnodup Hlen1 i Hin) as [Hheld Hnone].
    split; [exact Hheld|]. intros Hi. destruct (Hnone Hi) as [Hfill Hkeep].
    destruct (updateSlot_other t a i Hne) as [Hp Hs]. rewrite Hp in Hkeep.
    assert (Hzip : forall o,
               (i, o) ∈ zip (if decide (matched !!! a = noMatchFlag)
                             then a :: unmatchedAmong slots else unmatchedAmong slots)
                            (unusedStrays t)
               <-> (i, o) ∈ zip (unmatchedAmong slots) (unusedStrays (step t a))).
    { intros o. unfold updateSlot.
      destruct (decide (matched !!! a = noMatchFlag)) as [Hanone|Haheld].
      - rewrite Hanone, Z.eqb_refl. simpl.
        destruct (unusedStrays t) as [|u us]; simpl.
        + rewrite zip_with_nil_r. reflexivity.
        + rewrite elem_of_cons. split; [intros [[= -> _]|H]; [contradiction|exact H]|].
          intros H. right. exact H.
      - apply Z.eqb_neq in Haheld. rewrite Haheld. simpl. reflexivity. }
    split.
    + intros o Ho. apply Hfill, Hzip, Ho.
    + intros Hnot. apply Hkeep. intros Hin'. apply Hnot.
      apply list_elem_of_fmap in Hin' as ([i' o] & Heq & Hin'). simpl in Heq. subst i'.
      apply list_elem_of_fmap. exists (i, o). split; [reflexivity|]. apply Hzip, Hin'.
Qed.

End SlotUpdate.

Lemma filter_none {A : Type} (P : A -> Prop) `{forall x, Decision (P x)} (l : list A) :
  Forall (fun x => ~ P x) l -> filter P l = [].
Proof.
  induction 1 as [|x l Hx _ IH]; [reflexivity|].
  rewrite filter_cons, IH. destruct (decide (P x)); [contradiction|reflexivity].
Qed.

Lemma filter_agree {A : Type} (P Q : A -> Prop)
    `{forall x, Decision (P x)} `{forall x, Decision (Q x)} (l : list A) :
  Forall (fun x => P x <-> Q x) l -> filter P l = filter Q l.
Proof.
  induction 1 as [|x l Hx _ IH]; [reflexivity|].
  rewrite !filter_cons, IH.
  destruct (decide (P x)), (decide (Q x)); tauto.
Qed.


Section Leftovers.
Import Strays StraysSpec.

Variable pos straysPos : list Pos3.

Local Abbreviation M := (length pos).
Local Abbreviation N := (length straysPos).
Local Abbreviation rows := (sortedRows M N DBL_MAX pos straysPos).
Local Abbreviation dead := StraysSpec.dead.
Local Abbreviation live := StraysSpec.live.
Local Abbreviation candidateAt := StraysSpec.candidateAt.

Hypothesis some_observation : (0 < N)%nat.
Hypothesis count_is_an_int : Z.of_nat N <= INT_MAX.
Hypothesis no_sentinel : noSentinelDistance pos straysPos.

Lemma empty_slot_dead (i : nat) :
  (i < M)%nat -> isObserved (pos !!! i) = false -> dead N DBL_MAX rows i.
Proof.
  intros Hi Hempty j Hj.
  destruct (sortedRows_candidate M N DBL_MAX pos straysPos i j Hi Hj) as (o & Ho & ->).
  unfold StraysSpec.distanceAt. rewrite Hempty. reflexivity.
Qed.

Lemma observed_slot_live (i : nat) :
  (i < M)%nat -> isObserved (pos !!! i) = true -> live N DBL_MAX rows i.
Proof.
  intros Hi Hobs j Hj.
  destruct (sortedRows_candidate M N DBL_MAX pos straysPos i j Hi Hj) as (o & Ho & ->).
  unfold StraysSpec.distanceAt. rewrite Hobs. simpl. apply no_sentinel; assumption.
Qed.

Lemma rows_dead_or_live (i : nat) :
  (i < M)%nat -> dead N DBL_MAX rows i \/ live N DBL_MAX rows i.
Proof.
  intros Hi. destruct (isObserved (pos !!! i)) eqn:Hobs.
  - right. apply observed_slot_live; assumption.
  - left. apply empty_slot_dead; assumption.
Qed.

Lemma rows_not_the_flag (i j : nat) :
  (i < M)%nat -> (j < N)%nat -> (candidateAt rows i j).1 <> INT_MAX.
Proof.
  intros Hi Hj.
  destruct (sortedRows_candidate M N DBL_MAX pos straysPos i j Hi Hj) as (o & Ho & ->).
  simpl. lia.
Qed.


(** Conflict resolution ends within [M * N + 1] rounds. *)
Lemma matching_ends (fuel : nat) :
  (M * N < fuel)%nat ->
  exists matched, MatchStrays M N INT_MAX DBL_MAX rows fuel = Some matched.
Proof.
  apply (MatchStrays_terminates M N INT_MAX DBL_MAX rows ltac:(lia)
           (sortedRows_distinct M N DBL_MAX pos straysPos)
           rows_not_the_flag rows_dead_or_live
           (sortedRows_length M N DBL_MAX pos straysPos)).
Qed.


(** The slots conflict resolution leaves with a match are observed slots
    holding an observation that was reported, and no two of them hold the
    same observation unless neither is strictly nearer to it. *)
Lemma matched_claims (fuel : nat) (matched : list Z) :
  MatchStrays M N INT_MAX DBL_MAX rows fuel = Some matched ->
  length matched = M
  /\ (forall i, (i < M)%nat -> matched !!! i <> INT_MAX ->
        isObserved (pos !!! i) = true
        /\ exists o, (o < N)%nat /\ matched !!! i = Z.of_nat o)
  /\ (forall i k o, (i < M)%nat -> (k < M)%nat -> i <> k ->
        matched !!! i = Z.of_nat o -> matched !!! k = Z.of_nat o -> (o < N)%nat ->
        PrimFloat.ltb (distanceTo (pos !!! k) (straysPos !!! o))
                      (distanceTo (pos !!! i) (straysPos !!! o)) = false).
Proof.
  intros Hmatch.
  destruct (MatchStrays_claims M N INT_MAX DBL_MAX rows ltac:(lia)
              (sortedRows_distinct M N DBL_MAX pos straysPos)
              rows_not_the_flag rows_dead_or_live fuel matched Hmatch)
    as (distances & Hlen & Hheld & Htie).
  assert (Hclaim : forall i, (i < M)%nat -> matched !!! i <> INT_MAX ->
            isObserved (pos !!! i) = true
            /\ exists o, (o < N)%nat /\ matched !!! i = Z.of_nat o
                         /\ distances !!! i = distanceTo (pos !!! i) (straysPos !!! o)).
  { intros i Hi Hne. destruct (Hheld i Hi Hne) as (Hlive & j & Hj & Hrow).
    assert (Hobs : isObserved (pos !!! i) = true).
    { destruct (isObserved (pos !!! i)) eqn:Hobs; [reflexivity|]. exfalso.
      pose proof (empty_slot_dead i Hi Hobs j Hj) as Hd. rewrite (Hlive j Hj) in Hd.
      discriminate. }
    split; [exact Hobs|].
    destruct (sortedRows_candidate M N DBL_MAX pos straysPos i j Hi Hj) as (o & Ho & Hc).
    exists o. split; [exact Ho|].
    unfold StraysSpec.candidateAt in Hrow, Hc. rewrite Hc in Hrow.
    unfold StraysSpec.distanceAt in Hrow. rewrite Hobs in Hrow.
    injection Hrow as H1 H2. split; symmetry; assumption. }
  split; [exact Hlen|]. split.
  - intros i Hi Hne. destruct (Hclaim i Hi Hne) as (Hobs & o & Ho & Heq & _).
    split; [exact Hobs|]. exists o. split; assumption.
  - intros i k o Hi Hk Hne Hio Hko Ho.
    assert (Hnei : matched !!! i <> INT_MAX) by lia.
    assert (Hnek : matched !!! k <> INT_MAX) by lia.
    destruct (Hclaim i Hi Hnei) as (_ & oi & _ & Hoi & Hdi).
    destruct (Hclaim k Hk Hnek) as (_ & ok & _ & Hok & Hdk).
    assert (oi = o) as -> by lia. assert (ok = o) as -> by lia.
    rewrite <- Hdi, <- Hdk. apply Htie; [exact Hi|exact Hk|exact Hne|exact Hnei|congruence].
Qed.

End Leftovers.


(** The pass on one observed slot and two empty ones: the second
    observation, which no slot claims, goes to slot 2, the first empty slot;
    slot 3 stays MISSING at the zero position. *)
Lemma sparse_no_sentinel :
  StraysSpec.noSentinelDistance StraysScenario.sparse StraysScenario.sparseObserved.
Proof.
  intros i j Hi Hj Hobs.
  destruct i as [|[|[|i]]]; simpl in Hi; try lia;
    destruct j as [|[|j]]; simpl in Hj; try lia;
    try (vm_compute in Hobs; discriminate); vm_compute; reflexivity.
Defined.


(** The same pass, evaluated. *)
Lemma sparse_pass_evaluated :
  Strays.updateStrays 7 3 StraysScenario.sparseObserved StraysScenario.sparse
    [TOOL_OK; TOOL_MISSING; TOOL_MISSING]
  = Some ([(0, 0, 10.5); (5, 5, 5); (0, 0, 0)]%float, [TOOL_OK; TOOL_OK; TOOL_MISSING])
  /\ StraysSpec.leftovers StraysScenario.sparse 2 [0; Strays.INT_MAX; Strays.INT_MAX]
     = [(1%nat, 1)].
Proof. split; vm_compute; reflexivity. Qed.

(** * Further properties of the modelled code *)

(** ** The distance table and the matching pass *)

(** X1. [GetDistanceStrays] followed by [SortDistanceStrays] gives one row
    per slot; the row of a slot lists every observation index exactly once,
    each with the distance from the slot's previous position to that
    observation (or with [maxDistance] when the slot's previous position is
    the zero vector), and no entry of the row is followed by one at a
    strictly smaller distance. *)
Theorem distance_rows_list_every_observation_in_ascending_order :
  forall (MaxNumberOfStrays numberOfStrays : nat) (LastStraysPos straysPos : list Strays.Pos3)
         (maxDistance : float) (j : nat),
    (j < MaxNumberOfStrays)%nat ->
    let table :=
      Strays.SortDistanceStrays
        (Strays.GetDistanceStrays MaxNumberOfStrays numberOfStrays LastStraysPos maxDistance
                                  straysPos) in
    length table = MaxNumberOfStrays
    /\ (table !!! j).*1 ≡ₚ Z.of_nat <$> seq 0 numberOfStrays
    /\ (forall c, c ∈ table !!! j ->
          c.2 = if Strays.isObserved (LastStraysPos !!! j)
                then Strays.distanceTo (LastStraysPos !!! j) (straysPos !!! Z.to_nat c.1)
                else maxDistance)
    /\ (forall n a b,
          (table !!! j) !! n = Some a -> (table !!! j) !! S n = Some b ->
          PrimFloat.ltb b.2 a.2 = false).
Proof.
  intros M N P C maxDistance j Hj table.
  assert (Hrow : table !!! j
                 = Strays.sortRow (StraysSpec.unsortedRow N maxDistance P C j)).
  { apply (sortedRows_lookup M N maxDistance P C j Hj). }
  unfold Strays.Candidate in *.
  split; [|split; [|split]].
  - subst table. unfold Strays.SortDistanceStrays, Strays.GetDistanceStrays.
    rewrite !length_fmap, length_seq. reflexivity.
  - rewrite Hrow, sortRow_Permutation. unfold StraysSpec.unsortedRow.
    rewrite <- list_fmap_compose. reflexivity.
  - intros c Hc. rewrite Hrow, sortRow_Permutation in Hc.
    apply list_elem_of_fmap in Hc as (o & -> & _). simpl. rewrite Nat2Z.id. reflexivity.
  - intros n a b Ha Hb. rewrite Hrow in Ha, Hb.
    eapply ascending_lookup; [apply sortRow_ascending|exact Ha|exact Hb].
Qed.

(** The first row of the table of the scenario with three slots and two
    observations. *)
Lemma distance_rows_list_every_observation_in_ascending_order_witness :
  (0 < 3)%nat
  /\ length StraysScenario.table = 3%nat
  /\ (StraysScenario.table !!! 0%nat).*1 ≡ₚ Z.of_nat <$> seq 0 2
  /\ (forall c, c ∈ StraysScenario.table !!! 0%nat ->
        c.2 = if Strays.isObserved (StraysScenario.previous !!! 0%nat)
              then Strays.distanceTo (StraysScenario.previous !!! 0%nat)
                                     (StraysScenario.observed !!! Z.to_nat c.1)
              else Strays.DBL_MAX)
  /\ (forall n a b,
        (StraysScenario.table !!! 0%nat) !! n = Some a ->
        (StraysScenario.table !!! 0%nat) !! S n = Some b ->
        PrimFloat.ltb b.2 a.2 = false).
Proof.
  split; [lia|].
  exact (distance_rows_list_every_observation_in_ascending_order
           3 2 StraysScenario.previous StraysScenario.observed Strays.DBL_MAX 0
           ltac:(lia)).
Defined.

(** X2. On the sorted distance table of at least one observation
    [MatchStrays] returns, given more rounds than the table has entries, and
    in what it returns every slot is either unmatched ([INT_MAX]) or matched
    to the index of an observation that was reported, so that
    [UpdateLastStraysData] reads [straysPos] inside its bounds; and only a
    slot with a previous position other than the zero vector is matched.
    (The count of the observations fits an [int], no distance is the
    sentinel.) *)
Theorem matched_slots_hold_reported_observations :
  forall (fuel : nat) (pos straysPos : list Strays.Pos3),
    (0 < length straysPos)%nat ->
    Z.of_nat (length straysPos) <= Strays.INT_MAX ->
    StraysSpec.noSentinelDistance pos straysPos ->
    (length pos * length straysPos < fuel)%nat ->
    exists matched : list Z,
      Strays.MatchStrays (length pos) (length straysPos) Strays.INT_MAX Strays.DBL_MAX
        (Strays.SortDistanceStrays
           (Strays.GetDistanceStrays (length pos) (length straysPos) pos Strays.DBL_MAX
                                     straysPos))
        fuel = Some matched
      /\ length matched = length pos
      /\ forall i, (i < length pos)%nat ->
           matched !!! i = Strays.INT_MAX
           \/ (0 <= matched !!! i < Z.of_nat (length straysPos)
               /\ Strays.isObserved (pos !!! i) = true
               /\ is_Some (straysPos !! Z.to_nat (matched !!! i))).
Proof.
  intros fuel pos straysPos Hsome Hint Hsentinel Hfuel.
  destruct (matching_ends pos straysPos Hsome Hint Hsentinel fuel Hfuel) as [matched Hmatch].
  exists matched. split; [exact Hmatch|].
  destruct (matched_claims pos straysPos Hsome Hint Hsentinel fuel matched Hmatch)
    as (Hlen & Hheld & _).
  split; [exact Hlen|]. intros i Hi.
  destruct (decide (matched !!! i = Strays.INT_MAX)) as [Hnone|Hne]; [left; exact Hnone|].
  right. destruct (Hheld i Hi Hne) as (Hobs & o & Ho & Heq).
  split; [lia|]. split; [exact Hobs|].
  apply lookup_lt_is_Some_2. lia.
Qed.

(** Three slots, of which only the first has been observed, and two
    observations: the first slot is matched to observation 0. *)
Lemma matched_slots_hold_reported_observations_witness :
  Strays.MatchStrays (length StraysScenario.sparse) (length StraysScenario.sparseObserved)
    Strays.INT_MAX Strays.DBL_MAX
    (Strays.SortDistanceStrays
       (Strays.GetDistanceStrays (length StraysScenario.sparse)
          (length StraysScenario.sparseObserved) StraysScenario.sparse
          Strays.DBL_MAX StraysScenario.sparseObserved))
    7 = Some [0; Strays.INT_MAX; Strays.INT_MAX]
  /\ exists matched : list Z,
       Strays.MatchStrays (length StraysScenario.sparse) (length StraysScenario.sparseObserved)
         Strays.INT_MAX Strays.DBL_MAX
         (Strays.SortDistanceStrays
            (Strays.GetDistanceStrays (length StraysScenario.sparse)
               (length StraysScenario.sparseObserved) StraysScenario.sparse
               Strays.DBL_MAX StraysScenario.sparseObserved))
         7 = Some matched
       /\ length matched = length StraysScenario.sparse
       /\ forall i, (i < length StraysScenario.sparse)%nat ->
            matched !!! i = Strays.INT_MAX
            \/ (0 <= matched !!! i < Z.of_nat (length StraysScenario.sparseObserved)
                /\ Strays.isObserved (StraysScenario.sparse !!! i) = true
                /\ is_Some (StraysScenario.sparseObserved !! Z.to_nat (matched !!! i))).
Proof.
  split; [vm_compute; reflexivity|].
  exact (matched_slots_hold_reported_observations 7 StraysScenario.sparse
           StraysScenario.sparseObserved
           ltac:(simpl; lia) ltac:(vm_compute; discriminate) sparse_no_sentinel
           ltac:(simpl; lia)).
Defined.

(** X3. Conflict resolution gives an observation to the strictly nearer
    slot: [MatchStrays] returns, given more rounds than the table has
    entries, and when two different slots are matched to the same observation
    in what it returns, neither slot's previous position is strictly nearer
    to that observation than the other's.  Two slots end with the same
    observation only on a tie. *)
Theorem shared_observation_only_on_a_tie :
  forall (fuel : nat) (pos straysPos : list Strays.Pos3),
    (0 < length straysPos)%nat ->
    Z.of_nat (length straysPos) <= Strays.INT_MAX ->
    StraysSpec.noSentinelDistance pos straysPos ->
    (length pos * length straysPos < fuel)%nat ->
    exists matched : list Z,
      Strays.MatchStrays (length pos) (length straysPos) Strays.INT_MAX Strays.DBL_MAX
        (Strays.SortDistanceStrays
           (Strays.GetDistanceStrays (length pos) (length straysPos) pos Strays.DBL_MAX
                                     straysPos))
        fuel = Some matched
      /\ forall i k o : nat,
           (i < length pos)%nat -> (k < length pos)%nat -> i <> k ->
           (o < length straysPos)%nat ->
           matched !!! i = Z.of_nat o -> matched !!! k = Z.of_nat o ->
           PrimFloat.ltb (Strays.distanceTo (pos !!! k) (straysPos !!! o))
                         (Strays.distanceTo (pos !!! i) (straysPos !!! o)) = false
           /\ PrimFloat.ltb (Strays.distanceTo (pos !!! i) (straysPos !!! o))
                            (Strays.distanceTo (pos !!! k) (straysPos !!! o)) = false.
Proof.
  intros fuel pos straysPos Hsome Hint Hsentinel Hfuel.
  destruct (matching_ends pos straysPos Hsome Hint Hsentinel fuel Hfuel) as [matched Hmatch].
  exists matched. split; [exact Hmatch|].
  intros i k o Hi Hk Hne Ho Hio Hko.
  destruct (matched_claims pos straysPos Hsome Hint Hsentinel fuel matched Hmatch)
    as (_ & _ & Htie).
  split.
  - apply (Htie i k o); assumption || congruence.
  - apply (Htie k i o); assumption || congruence.
Qed.

Lemma mirrored_no_sentinel :
  StraysSpec.noSentinelDistance StraysScenario.mirrored StraysScenario.between.
Proof.
  intros i j Hi Hj Hobs.
  destruct i as [|[|i]]; simpl in Hi; try lia;
    destruct j as [|j]; simpl in Hj; try lia; vm_compute; reflexivity.
Defined.

(** Two slots one unit away from the only observation, on either side of
    it: both end matched to it. *)
Lemma shared_observation_only_on_a_tie_witness :
  Strays.MatchStrays 2 1 Strays.INT_MAX Strays.DBL_MAX
    (Strays.SortDistanceStrays
       (Strays.GetDistanceStrays 2 1 StraysScenario.mirrored Strays.DBL_MAX
                                 StraysScenario.between))
    3 = Some [0; 0]
  /\ PrimFloat.ltb
       (Strays.distanceTo (StraysScenario.mirrored !!! 1%nat) (StraysScenario.between !!! 0%nat))
       (Strays.distanceTo (StraysScenario.mirrored !!! 0%nat) (StraysScenario.between !!! 0%nat))
     = false
  /\ PrimFloat.ltb
       (Strays.distanceTo (StraysScenario.mirrored !!! 0%nat) (StraysScenario.between !!! 0%nat))
       (Strays.distanceTo (StraysScenario.mirrored !!! 1%nat) (StraysScenario.between !!! 0%nat))
     = false.
Proof.
  assert (Hmatch :
            Strays.MatchStrays (length StraysScenario.mirrored) (length StraysScenario.between)
              Strays.INT_MAX Strays.DBL_MAX
              (Strays.SortDistanceStrays
                 (Strays.GetDistanceStrays (length StraysScenario.mirrored)
                    (length StraysScenario.between) StraysScenario.mirrored Strays.DBL_MAX
                    StraysScenario.between))
              3 = Some [0; 0])
    by (vm_compute; reflexivity).
  split; [exact Hmatch|].
  destruct (shared_observation_only_on_a_tie 3 StraysScenario.mirrored StraysScenario.between
              ltac:(simpl; lia) ltac:(vm_compute; discriminate) mirrored_no_sentinel
              ltac:(simpl; lia)) as (matched & Hmatched & Htie).
  rewrite Hmatch in Hmatched. injection Hmatched as <-.
  exact (Htie 0%nat 1%nat 0%nat ltac:(simpl; lia) ltac:(simpl; lia) ltac:(lia)
           ltac:(simpl; lia) eq_refl eq_refl).
Defined.

(** What a stray pass that returns leaves in the slots. *)
Lemma stray_pass_slots :
  forall (fuel : nat) (pos : list Strays.Pos3) (status : list ToolStatus)
         (straysPos pos' : list Strays.Pos3) (status' : list ToolStatus),
    length status = length pos ->
    (0 < length straysPos)%nat ->
    Z.of_nat (length straysPos) <= Strays.INT_MAX ->
    StraysSpec.noSentinelDistance pos straysPos ->
    Strays.updateStrays fuel (length pos) straysPos pos status = Some (pos', status') ->
    length pos' = length pos
    /\ length status' = length pos
    /\ forall i, (i < length pos)%nat ->
         (status' !! i = Some TOOL_OK
          /\ exists o, (o < length straysPos)%nat /\ pos' !! i = Some (straysPos !!! o))
         \/ (status' !! i = Some TOOL_MISSING /\ pos' !! i = pos !! i).
Proof.
  intros fuel pos status straysPos pos' status' Hstatus Hsome Hint Hsentinel.
  unfold Strays.updateStrays.
  destruct (Nat.ltb_spec 0 (length straysPos)) as [_|Hno]; [|lia].
  destruct (Strays.MatchStrays _ _ _ _ _ fuel) as [matched|] eqn:Hmatch; [|discriminate].
  intros [= <- <-].
  destruct (matched_claims pos straysPos Hsome Hint Hsentinel fuel matched Hmatch)
    as (Hlen & Hheld & _).
  unfold Strays.UpdateLastStraysData.
  set (t0 := {| Strays.LastStraysPos := pos;
                Strays.LastStraysStatus := status;
                Strays.unusedStrays :=
                  Strays.unusedStraysOf (length straysPos) matched |}).
  destruct (updateSlots_length Strays.INT_MAX matched straysPos (seq 0 (length pos)) t0)
    as [Hlp Hls].
  split; [exact Hlp|]. split; [rewrite Hls; exact Hstatus|].
  assert (Hrange : Forall (fun i => (i < length (Strays.LastStraysPos t0))%nat
                                    /\ (i < length (Strays.LastStraysStatus t0))%nat)
                          (seq 0 (length pos))).
  { apply Forall_forall. intros i Hi. apply elem_of_seq in Hi. simpl. lia. }
  pose proof (updateSlots_spec Strays.INT_MAX matched straysPos (seq 0 (length pos)) t0
                (NoDup_seq 0 (length pos)) Hrange) as Hspec.
  intros i Hi. destruct (Hspec i ltac:(apply elem_of_seq; lia)) as [Hmatched Hunmatched].
  destruct (decide (matched !!! i = Strays.INT_MAX)) as [Hnone|Hne].
  - destruct (Hunmatched Hnone) as [Hfill Hkeep].
    destruct (decide (i ∈ (zip (StraysSpec.unmatchedAmong Strays.INT_MAX matched
                                  (seq 0 (length pos)))
                               (Strays.unusedStrays t0)).*1)) as [Hin|Hnot].
    + left. apply list_elem_of_fmap in Hin as ([i' o] & Heq & Hin). simpl in Heq. subst i'.
      destruct (Hfill o Hin) as [Hp Hs]. split; [exact Hs|].
      apply elem_of_zip_r in Hin. simpl in Hin. unfold Strays.unusedStraysOf in Hin.
      apply list_elem_of_filter in Hin as [_ Hin].
      apply list_elem_of_fmap in Hin as (n & -> & Hn). apply elem_of_seq in Hn.
      exists n. split; [lia|]. rewrite Nat2Z.id in Hp. exact Hp.
    + right. destruct (Hkeep Hnot) as [Hp Hs]. split; [exact Hs|exact Hp].
  - left. destruct (Hmatched Hne) as [Hp Hs]. split; [exact Hs|].
    destruct (Hheld i Hi Hne) as (_ & o & Ho & Heq).
    exists o. split; [exact Ho|]. rewrite Heq, Nat2Z.id in Hp. exact Hp.
Qed.

(** X4. A matching pass over at least one observation returns, given more
    rounds than the distance table has entries, and after it every slot is
    either OK at the position of one of the observations of this pass, or
    MISSING at the position it had before; both vectors keep their
    length. *)
Theorem stray_pass_leaves_each_slot_observed_or_missing :
  forall (fuel : nat) (pos : list Strays.Pos3) (status : list ToolStatus)
         (straysPos : list Strays.Pos3),
    length status = length pos ->
    (0 < length straysPos)%nat ->
    Z.of_nat (length straysPos) <= Strays.INT_MAX ->
    StraysSpec.noSentinelDistance pos straysPos ->
    (length pos * length straysPos < fuel)%nat ->
    exists (pos' : list Strays.Pos3) (status' : list ToolStatus),
      Strays.updateStrays fuel (length pos) straysPos pos status = Some (pos', status')
      /\ length pos' = length pos
      /\ length status' = length pos
      /\ forall i, (i < length pos)%nat ->
           (status' !! i = Some TOOL_OK
            /\ exists o, (o < length straysPos)%nat /\ pos' !! i = Some (straysPos !!! o))
           \/ (status' !! i = Some TOOL_MISSING /\ pos' !! i = pos !! i).
Proof.
  intros fuel pos status straysPos Hstatus Hsome Hint Hsentinel Hfuel.
  assert (Hpass : exists pos' status',
            Strays.updateStrays fuel (length pos) straysPos pos status = Some (pos', status')).
  { unfold Strays.updateStrays.
    destruct (Nat.ltb_spec 0 (length straysPos)) as [_|Hno]; [|lia].
    destruct (matching_ends pos straysPos Hsome Hint Hsentinel fuel Hfuel) as [matched Hm].
    unfold StraysSpec.sortedRows in Hm. cbv zeta. rewrite Hm.
    eexists. eexists. reflexivity. }
  destruct Hpass as (pos' & status' & Hpass). exists pos', status'.
  split; [exact Hpass|].
  exact (stray_pass_slots fuel pos status straysPos pos' status' Hstatus Hsome Hint Hsentinel
           Hpass).
Qed.

(** The three slots and two observations again: the first slot follows
    its observation, the other observation goes to the first empty slot, the
    last slot is missing. *)
Lemma stray_pass_leaves_each_slot_observed_or_missing_witness :
  Strays.updateStrays 7 (length StraysScenario.sparse) StraysScenario.sparseObserved
    StraysScenario.sparse [TOOL_OK; TOOL_MISSING; TOOL_MISSING]
  = Some ([(0, 0, 10.5); (5, 5, 5); (0, 0, 0)]%float, [TOOL_OK; TOOL_OK; TOOL_MISSING])
  /\ exists (pos' : list Strays.Pos3) (status' : list ToolStatus),
       Strays.updateStrays 7 (length StraysScenario.sparse) StraysScenario.sparseObserved
         StraysScenario.sparse [TOOL_OK; TOOL_MISSING; TOOL_MISSING]
       = Some (pos', status')
       /\ length pos' = length StraysScenario.sparse
       /\ length status' = length StraysScenario.sparse
       /\ forall i, (i < length StraysScenario.sparse)%nat ->
            (status' !! i = Some TOOL_OK
             /\ exists o, (o < length StraysScenario.sparseObserved)%nat
                          /\ pos' !! i = Some (StraysScenario.sparseObserved !!! o))
            \/ (status' !! i = Some TOOL_MISSING /\ pos' !! i = StraysScenario.sparse !! i).
Proof.
  split; [vm_compute; reflexivity|].
  exact (stray_pass_leaves_each_slot_observed_or_missing 7 StraysScenario.sparse
           [TOOL_OK; TOOL_MISSING; TOOL_MISSING] StraysScenario.sparseObserved
           eq_refl ltac:(simpl; lia) ltac:(vm_compute; discriminate) sparse_no_sentinel
           ltac:(simpl; lia)).
Defined.

(** ** Port management: what [EnableToolPorts] sends and what it keeps *)

Section PortCommands.
Import NDI NDISpec.

(** The device after some port commands. *)
Local Abbreviation talk d d' :=
  (exists sent, sends d d' sent /\ Forall (fun c => portCommand c = true) sent).

Lemma talk_refl (d : NdiDevice) : talk d d.
Proof.
  exists []. split; [split; [reflexivity|rewrite app_nil_r; reflexivity]|constructor].
Qed.

Lemma talk_trans (d1 d2 d3 : NdiDevice) : talk d1 d2 -> talk d2 d3 -> talk d1 d3.
Proof.
  intros (s1 & [Hb1 Hh1] & Hf1) (s2 & [Hb2 Hh2] & Hf2). exists (s1 ++ s2).
  split; [split; [congruence|rewrite Hh2, Hh1, app_assoc; reflexivity]|].
  apply Forall_app. split; assumption.
Qed.

Lemma talk_command (d : NdiDevice) (c : NdiCmd) :
  portCommand c = true -> talk d (ndiCommand d c).
Proof.
  intros H. exists [c]. split; [split; reflexivity|]. constructor; [exact H|constructor].
Qed.

Lemma sameTool_refl (td : NdiToolDescriptor) : sameTool td td.
Proof. split; reflexivity. Qed.

Lemma findWiredPortHandle_talk (remaining : nat) (ndiToolIndex : Z)
    (td : NdiToolDescriptor) (d : NdiDevice) :
  talk d (findWiredPortHandle remaining ndiToolIndex td d).1.1
  /\ sameTool td (findWiredPortHandle remaining ndiToolIndex td d).1.2.
Proof.
  revert ndiToolIndex d. induction remaining as [|remaining IH]; intros idx d;
    cbn [findWiredPortHandle]; [split; [apply talk_refl|apply sameTool_refl]|].
  destruct (negb _).
  - cbv zeta. destruct (WiredPortNumber td =? _).
    + split; [apply talk_command; reflexivity|split; reflexivity].
    + destruct (IH (idx + 1) (ndiCommand d (CmdPHINF (replyPHSRHandle (readers d) idx) 33)))
        as [Ht Hs].
      split; [|exact Hs]. eapply talk_trans; [|exact Ht]; apply talk_command; reflexivity.
  - apply IH.
Qed.

Lemma UpdatePortHandle_talk (td : NdiToolDescriptor) (d : NdiDevice) :
  talk d (UpdatePortHandle td d).1.1 /\ sameTool td (UpdatePortHandle td d).1.2.
Proof.
  unfold UpdatePortHandle. destruct (0 <=? WiredPortNumber td).
  - cbv zeta.
    pose proof (findWiredPortHandle_talk
                  (Z.to_nat (replyPHSRNumberOfHandles (readers (ndiCommand d (CmdPHSR 0)))))
                  0 td (ndiCommand d (CmdPHSR 0))) as [Ht Hs].
    destruct (findWiredPortHandle _ 0 td (ndiCommand d (CmdPHSR 0))) as [[d2 td2] idx].
    simpl in Ht, Hs.
    assert (Htalk : talk d d2)
      by (eapply talk_trans; [|exact Ht]; apply talk_command; reflexivity).
    destruct (idx =? _); [split; assumption|].
    destruct (negb _); split; assumption.
  - cbv zeta. destruct (negb _); (split; [apply talk_command; reflexivity|split; reflexivity]).
Qed.

Lemma uploadBlocks_sends (td : NdiToolDescriptor) (srom : list ascii) (blocks : list nat)
    (d : NdiDevice) :
  sends d
    (fold_left
       (fun d0 block =>
          ndiCommand (ndiCommand d0 CmdVER0)
            (CmdPVWR (PortHandle td) (block * TRANSFER_BLOCK_SIZE)
                     (take TRANSFER_BLOCK_SIZE (drop (block * TRANSFER_BLOCK_SIZE) srom))))
       blocks d)
    (concat ((fun k => [CmdVER0;
                        CmdPVWR (PortHandle td) (k * 64) (take 64 (drop (k * 64) srom))])
               <$> blocks)).
Proof.
  revert d. induction blocks as [|k blocks IH]; intros d; simpl.
  - split; [reflexivity|rewrite app_nil_r; reflexivity].
  - destruct (IH (ndiCommand (ndiCommand d CmdVER0)
                    (CmdPVWR (PortHandle td) (k * TRANSFER_BLOCK_SIZE)
                       (take TRANSFER_BLOCK_SIZE (drop (k * TRANSFER_BLOCK_SIZE) srom)))))
      as [Hb Hh].
    split; [rewrite Hb; reflexivity|]. rewrite Hh. simpl. rewrite <- !app_assoc. reflexivity.
Qed.

Lemma SendSromToTracker_talk (td : NdiToolDescriptor) (d : NdiDevice) :
  talk d (SendSromToTracker td d).1.
Proof.
  unfold SendSromToTracker. destruct (VirtualSROM td) as [srom|]; [|apply talk_refl].
  cbv zeta.
  pose proof (uploadBlocks_sends td srom (seq 0 (VIRTUAL_SROM_SIZE / TRANSFER_BLOCK_SIZE)) d)
    as Hs.
  destruct (negb _); simpl; (eexists; split; [exact Hs|]);
    apply Forall_concat, Forall_fmap, Forall_forall; intros k _;
    repeat constructor.
Qed.

Lemma commandEachHandle_talk (cmd : Z -> NdiCmd) (remaining : nat) (ndiToolIndex : Z)
    (d : NdiDevice) (status : PlusStatus) (errnum : Z) :
  (forall h, portCommand (cmd h) = true) ->
  talk d (commandEachHandle cmd remaining ndiToolIndex d status errnum).1.1.
Proof.
  intros Hcmd. revert ndiToolIndex d status errnum.
  induction remaining as [|remaining IH]; intros idx d status errnum;
    cbn [commandEachHandle]; [apply talk_refl|].
  cbv zeta. eapply talk_trans; [|apply IH]. apply talk_command, Hcmd.
Qed.

Lemma resolvePortHandles_talk (select : NdiToolDescriptor -> bool)
    (m : StringMap NdiToolDescriptor) (d : NdiDevice) :
  talk d (resolvePortHandles select m d).1.2
  /\ configuration (resolvePortHandles select m d).1.1 = configuration m.
Proof.
  revert d. induction m as [|[id td] m IH]; intros d; cbn [resolvePortHandles];
    [split; [apply talk_refl|reflexivity]|].
  destruct (select td).
  - pose proof (UpdatePortHandle_talk td d) as [Hu [Hw Hr]].
    destruct (UpdatePortHandle td d) as [[d1 td1] updated]. simpl in Hu, Hw, Hr.
    assert (Hhead : configuration ((id, td1) :: m) = configuration ((id, td) :: m)).
    { unfold configuration. simpl. rewrite Hw, Hr. reflexivity. }
    destruct updated; [split; [exact Hu|exact Hhead]|].
    pose proof (SendSromToTracker_talk td1 d1) as Hs.
    destruct (SendSromToTracker td1 d1) as [d2 sent]. simpl in Hs.
    destruct sent; [split; [eapply talk_trans; eassumption|exact Hhead]|].
    destruct (IH d2) as [Ht Hc].
    destruct (resolvePortHandles select m d2) as [[m'' d3] status]. simpl in Ht, Hc |- *.
    split; [eapply talk_trans; [exact Hu|eapply talk_trans; eassumption]|].
    unfold configuration in Hc |- *. simpl. rewrite Hw, Hr, Hc. reflexivity.
  - destruct (IH d) as [Ht Hc].
    destruct (resolvePortHandles select m d) as [[m'' d1] status]. simpl in Ht, Hc |- *.
    split; [exact Ht|]. unfold configuration in Hc |- *. simpl. rewrite Hc. reflexivity.
Qed.

Lemma initializePorts_talk (fuel : nat) (d d' : NdiDevice) (status status' : PlusStatus)
    (errnum : Z) :
  initializePorts fuel d status errnum = Ok (d', status') -> talk d d'.
Proof.
  revert d status errnum. induction fuel as [|fuel IH]; intros d status errnum;
    cbn [initializePorts]; [discriminate|].
  cbv zeta.
  pose proof (commandEachHandle_talk CmdPINIT
                (Z.to_nat (replyPHSRNumberOfHandles (readers (ndiCommand d (CmdPHSR 2)))))
                0 (ndiCommand d (CmdPHSR 2)) status errnum (fun _ => eq_refl)) as Hc.
  destruct (commandEachHandle CmdPINIT _ 0 (ndiCommand d (CmdPHSR 2)) status errnum)
    as [[d2 status2] errnum2]. simpl in Hc.
  assert (Htalk : talk d d2)
    by (eapply talk_trans; [|exact Hc]; apply talk_command; reflexivity).
  destruct (_ && _).
  - intros H. eapply talk_trans; [exact Htalk|]. eapply IH. exact H.
  - intros [= <- _]. exact Htalk.
Qed.

Lemma enablePorts_talk (remaining : nat) (ndiToolIndex : Z) (d : NdiDevice)
    (status : PlusStatus) :
  talk d (enablePorts remaining ndiToolIndex d status).1.
Proof.
  revert ndiToolIndex d status. induction remaining as [|remaining IH]; intros idx d status;
    cbn [enablePorts]; [apply talk_refl|].
  cbv zeta. eapply talk_trans; [|apply IH].
  eapply talk_trans; apply talk_command; reflexivity.
Qed.

Lemma kept_refl (t : Tracker) : kept t t.
Proof. split; reflexivity. Qed.

Lemma kept_trans (t1 t2 t3 : Tracker) : kept t1 t2 -> kept t2 t3 -> kept t1 t3.
Proof. intros [] []. split; congruence. Qed.

Lemma kept_withDevice (d : NdiDevice) (t : Tracker) : kept t (withDevice d t).
Proof. split; reflexivity. Qed.

Lemma kept_withDescriptors (m : StringMap NdiToolDescriptor) (t : Tracker) :
  configuration m = configuration (NdiToolDescriptors t) -> kept t (withDescriptors m t).
Proof. intros H. split; try reflexivity. exact H. Qed.

Lemma sources_mapSet (id : string) (tool tool' : DataSource) (m : StringMap DataSource) :
  mapFind id m = Some tool -> sourceType tool' = sourceType tool ->
  sources (mapSet id tool' m) = sources m.
Proof.
  intros Hfind Htype. induction m as [|[k w] m IH]; [reflexivity|].
  cbn [mapFind mapSet] in Hfind |- *. destruct (String.eqb k id).
  - injection Hfind as ->. unfold sources. rewrite !fmap_cons. simpl. rewrite Htype.
    reflexivity.
  - unfold sources in IH |- *. rewrite !fmap_cons. f_equal. apply IH, Hfind.
Qed.

Lemma updateToolInfo_talk (m : StringMap NdiToolDescriptor) (t : Tracker) (status : PlusStatus) :
  talk (Device t) (Device (updateToolInfo m t status).1.2)
  /\ kept t (updateToolInfo m t status).1.2
  /\ NdiToolDescriptors (updateToolInfo m t status).1.2 = NdiToolDescriptors t
  /\ configuration (updateToolInfo m t status).1.1 = configuration m.
Proof.
  revert t status. induction m as [|[id td] m IH]; intros t status; cbn [updateToolInfo].
  - split; [apply talk_refl|]. split; [apply kept_refl|]. split; reflexivity.
  - unfold GetTool. destruct (mapFind id (Tools t)) as [trackerTool|] eqn:Hfind.
    + cbv zeta. destruct (failed (command (CmdPHINF (PortHandle td) 37) t)).
      * destruct (IH (command (CmdPHINF (PortHandle td) 37) t) PLUS_FAIL)
          as (Ht & Hk & Hd & Hc).
        destruct (updateToolInfo m _ PLUS_FAIL) as [[m'' t'] status']. simpl in Ht, Hk, Hd, Hc |- *.
        split; [eapply talk_trans; [|exact Ht]; apply talk_command; reflexivity|].
        split; [eapply kept_trans; [apply kept_withDevice|exact Hk]|].
        split; [exact Hd|]. unfold configuration in Hc |- *. simpl. rewrite Hc. reflexivity.
      * match goal with
        | |- context [updateToolInfo m ?t2 status] =>
            destruct (IH t2 status) as (Ht & Hk & Hd & Hc);
            destruct (updateToolInfo m t2 status) as [[m'' t'] status'];
            assert (Hk2 : kept t t2)
        end.
        { split; try reflexivity. simpl. apply sources_mapSet with (tool := trackerTool);
            [exact Hfind|reflexivity]. }
        simpl in Ht, Hk, Hd, Hc |- *.
        split; [eapply talk_trans; [|exact Ht]; apply talk_command; reflexivity|].
        split; [eapply kept_trans; eassumption|].
        split; [exact Hd|]. unfold configuration in Hc |- *. simpl. rewrite Hc. reflexivity.
    + destruct (IH t PLUS_FAIL) as (Ht & Hk & Hd & Hc).
      destruct (updateToolInfo m t PLUS_FAIL) as [[m'' t'] status']. simpl in Ht, Hk, Hd, Hc |- *.
      split; [exact Ht|]. split; [exact Hk|]. split; [exact Hd|].
      unfold configuration in Hc |- *. simpl. rewrite Hc. reflexivity.
Qed.

Lemma kept_command (c : NdiCmd) (t : Tracker) : kept t (command c t).
Proof. apply kept_withDevice. Qed.

(** What a call of [EnableToolPorts] does to the tracker and says to the
    device. *)
Lemma EnableToolPorts_effect (fuel : nat) (t t' : Tracker) (st : PlusStatus) :
  EnableToolPorts fuel t = Ok (t', st) ->
  kept t t'
  /\ exists (sent : list NdiCmd) (restarted : bool),
       behaviour (Device t') = behaviour (Device t)
       /\ history (Device t')
          = history (Device t) ++ (if IsDeviceTracking t then [CmdTSTOP] else [])
                               ++ sent ++ (if restarted then [CmdTSTART] else [])
       /\ Forall (fun c => portCommand c = true) sent
       /\ (restarted = true -> IsDeviceTracking t = true)
       /\ (IsDeviceTracking t = true -> restarted = false -> st = PLUS_FAIL).
Proof.
  intros H. unfold EnableToolPorts in H.
  (* stop tracking *)
  set (t1 := if IsDeviceTracking t then command CmdTSTOP t else t).
  assert (Hk1 : kept t t1)
    by (subst t1; destruct (IsDeviceTracking t); [apply kept_withDevice|apply kept_refl]).
  assert (Hb1 : behaviour (Device t1) = behaviour (Device t))
    by (subst t1; destruct (IsDeviceTracking t); reflexivity).
  assert (Hh1 : history (Device t1)
                = history (Device t) ++ (if IsDeviceTracking t then [CmdTSTOP] else []))
    by (subst t1; destruct (IsDeviceTracking t); [reflexivity|rewrite app_nil_r; reflexivity]).
  assert (Hfinish : forall (tn : Tracker) (restarted : bool),
            kept t1 tn -> talk (Device t1) (Device tn) ->
            (restarted = true -> IsDeviceTracking t = true) ->
            (IsDeviceTracking t = true -> restarted = false -> st = PLUS_FAIL) ->
            t' = (if restarted then command CmdTSTART tn else tn) ->
            kept t t'
            /\ exists (sent : list NdiCmd) (restarted : bool),
                 behaviour (Device t') = behaviour (Device t)
                 /\ history (Device t')
                    = history (Device t) ++ (if IsDeviceTracking t then [CmdTSTOP] else [])
                                         ++ sent ++ (if restarted then [CmdTSTART] else [])
                 /\ Forall (fun c => portCommand c = true) sent
                 /\ (restarted = true -> IsDeviceTracking t = true)
                 /\ (IsDeviceTracking t = true -> restarted = false -> st = PLUS_FAIL)).
  { intros tn restarted Hkn (sent & [Hbn Hhn] & Hfn) Hr1 Hr2 ->. split.
    - eapply kept_trans; [exact Hk1|]. eapply kept_trans; [exact Hkn|].
      destruct restarted; [apply kept_command|apply kept_refl].
    - exists sent, restarted.
      split; [destruct restarted; simpl; congruence|].
      split; [|split; [exact Hfn|split; assumption]].
      destruct restarted; simpl; rewrite Hhn, Hh1, <- ?app_assoc, ?app_nil_r; reflexivity. }
  assert (Hstart : (let '(t1', status1) :=
                      if IsDeviceTracking t
                      then (command CmdTSTOP t,
                            if failed (command CmdTSTOP t) then PLUS_FAIL else PLUS_SUCCESS)
                      else (t, PLUS_SUCCESS) in t1') = t1)
    by (subst t1; destruct (IsDeviceTracking t); reflexivity).
  cbv zeta in H.
  destruct (if IsDeviceTracking t
            then (command CmdTSTOP t,
                  if failed (command CmdTSTOP t) then PLUS_FAIL else PLUS_SUCCESS)
            else (t, PLUS_SUCCESS)) as [t1' status1].
  subst t1'. clearbody t1.
  (* free ports that are waiting to be freed *)
  match type of H with
  | context [commandEachHandle CmdPHF ?n 0 ?d ?s 0] =>
      pose proof (commandEachHandle_talk CmdPHF n 0 d s 0 (fun _ => eq_refl)) as T3;
      destruct (commandEachHandle CmdPHF n 0 d s 0) as [[d3 status3] errnum3]
  end.
  simpl in T3.
  assert (T3' : talk (Device t1) d3).
  { eapply talk_trans; [|exact T3]. apply talk_command. reflexivity. }
  (* set port handles and send SROM files to tracker *)
  match type of H with
  | context [resolvePortHandles hasVirtualSROM ?m d3] =>
      pose proof (resolvePortHandles_talk hasVirtualSROM m d3) as [T4 C4];
      destruct (resolvePortHandles hasVirtualSROM m d3) as [[m4 d4] resolved4]
  end.
  simpl in T4, C4.
  assert (T4' : talk (Device t1) d4) by (eapply talk_trans; eassumption).
  assert (K4 : kept t1 (withDescriptors m4 (withDevice d4 (command (CmdPHSR 1) t1)))).
  { eapply kept_trans; [apply kept_command|].
    eapply kept_trans; [apply kept_withDevice|]. apply kept_withDescriptors. exact C4. }
  destruct resolved4.
  { injection H as <- <-.
    apply (Hfinish _ false K4 T4'); [discriminate|reflexivity|reflexivity]. }
  (* initialize ports waiting to be initialized *)
  destruct (initializePorts fuel d4 status3 0) as [[d5 status5]| |] eqn:H5; try discriminate.
  pose proof (initializePorts_talk fuel d4 d5 status3 status5 0 H5) as T5.
  (* enable initialized tools *)
  match type of H with
  | context [enablePorts ?n 0 ?d status5] =>
      pose proof (enablePorts_talk n 0 d status5) as T7;
      destruct (enablePorts n 0 d status5) as [d7 status7]
  end.
  simpl in T7.
  assert (T7' : talk (Device t1) d7).
  { eapply talk_trans; [exact T4'|]. eapply talk_trans; [exact T5|].
    eapply talk_trans; [|exact T7]. apply talk_command. reflexivity. }
  (* set wired port handles and send SROM files to tracker *)
  match type of H with
  | context [resolvePortHandles ?sel m4 d7] =>
      pose proof (resolvePortHandles_talk sel m4 d7) as [T8 C8];
      destruct (resolvePortHandles sel m4 d7) as [[m8 d8] resolved8]
  end.
  simpl in T8, C8.
  assert (T8' : talk (Device t1) d8) by (eapply talk_trans; eassumption).
  set (t4 := withDescriptors m4 (withDevice d4 (command (CmdPHSR 1) t1))) in *.
  assert (K8 : kept t1 (withDescriptors m8 (withDevice d8 t4))).
  { eapply kept_trans; [exact K4|].
    eapply kept_trans; [apply kept_withDevice|]. apply kept_withDescriptors. exact C8. }
  destruct resolved8.
  { injection H as <- <-.
    apply (Hfinish _ false K8 T8'); [discriminate|reflexivity|reflexivity]. }
  (* update tool info *)
  set (t9 := command (CmdPHSR 0) (withDescriptors m8 (withDevice d8 t4))) in *.
  pose proof (updateToolInfo_talk (NdiToolDescriptors t9) t9 status7) as (T10 & K10 & D10 & C10).
  destruct (updateToolInfo (NdiToolDescriptors t9) t9 status7) as [[m10 t10] status10].
  simpl in T10, K10, D10, C10.
  assert (K11 : kept t1 (withDescriptors m10 t10)).
  { eapply kept_trans; [exact K8|]. eapply kept_trans; [apply (kept_command (CmdPHSR 0))|].
    fold t9. eapply kept_trans; [exact K10|]. apply kept_withDescriptors.
    rewrite D10. exact C10. }
  assert (T11 : talk (Device t1) (Device (withDescriptors m10 t10))).
  { eapply talk_trans; [exact T8'|]. eapply talk_trans; [|exact T10].
    apply talk_command. reflexivity. }
  assert (Htr : IsDeviceTracking (withDescriptors m10 t10) = IsDeviceTracking t).
  { rewrite (kept_IsDeviceTracking _ _ K11). apply (kept_IsDeviceTracking _ _ Hk1). }
  rewrite Htr in H. destruct (IsDeviceTracking t) eqn:Htracking.
  - injection H as <- <-.
    apply (Hfinish _ true K11 T11); [reflexivity|discriminate|reflexivity].
  - injection H as <- <-.
    apply (Hfinish _ false K11 T11); [discriminate|discriminate|reflexivity].
Qed.

End PortCommands.

(** ** The polling tick: what [InternalUpdate] publishes and what it keeps *)

Section PollingTick.
Import NDI NDISpec.

Lemma sampled_refl (t : Tracker) : sampled t t.
Proof. split; reflexivity. Qed.

Lemma sampled_trans (t1 t2 t3 : Tracker) : sampled t1 t2 -> sampled t2 t3 -> sampled t1 t3.
Proof. intros [] []. split; congruence. Qed.

(** The conversions leave a value of the target type as it is. *)
Lemma toUnsignedLong_small (n : Z) : 0 <= n < 2 ^ 64 -> toUnsignedLong n = n.
Proof. intros H. unfold toUnsignedLong. apply Z.mod_small, H. Qed.

Lemma toInt_small (n : Z) : - 2 ^ 31 <= n < 2 ^ 31 -> toInt n = n.
Proof. intros H. unfold toInt. rewrite Z.mod_small; lia. Qed.

(** One round of the loop over the tools hands one sample to the buffers:
    that of the tool, at the timestamp of the tick. *)
Lemma updateTool_effect (dflt : Z) (ts : float) (t t' : Tracker) (id : string)
    (tool : DataSource) :
  updateTool dflt ts t id tool = Ok t' ->
  sampled t t'
  /\ LastFrameNumber t <= LastFrameNumber t'
  /\ exists u, Published t' = Published t ++ [u]
               /\ updateId u = id /\ updateTimestamp u = ts
               /\ (toUnsignedLong dflt <= LastFrameNumber t ->
                   updateFrameNumber u <= LastFrameNumber t').
Proof.
  unfold updateTool.
  assert (Hplain : forall m f n,
            sampled t (ToolTimeStampedUpdate (mkToolUpdate id m f n ts) t)
            /\ LastFrameNumber t
               <= LastFrameNumber (ToolTimeStampedUpdate (mkToolUpdate id m f n ts) t)
            /\ exists u,
                 Published (ToolTimeStampedUpdate (mkToolUpdate id m f n ts) t)
                 = Published t ++ [u]
                 /\ updateId u = id /\ updateTimestamp u = ts
                 /\ (n <= LastFrameNumber t ->
                     updateFrameNumber u
                     <= LastFrameNumber (ToolTimeStampedUpdate (mkToolUpdate id m f n ts) t))).
  { intros m f n. split; [split; reflexivity|]. split; [simpl; lia|].
    eexists. split; [reflexivity|]. repeat split. simpl. intros H. exact H. }
  destruct (sourceType tool).
  - destruct (mapFind id (NdiToolDescriptors t)) as [td|]; [|intros [= <-]; apply Hplain].
    destruct (PortHandle td <=? 0); [intros [= <-]; apply Hplain|].
    destruct (replyTXTransform _ _ _) as [absent transform].
    destruct ((absent =? 0) && negb (replyTXFrame _ _ =? 0)).
    + destruct (LastFrameNumber t <? replyTXFrame (readers (Device t)) (PortHandle td)) eqn:Hlt;
        intros [= <-].
      * apply Z.ltb_lt in Hlt. split; [split; reflexivity|]. split; [simpl; lia|].
        eexists. split; [reflexivity|]. repeat split. simpl. intros _. lia.
      * apply Z.ltb_ge in Hlt. split; [split; reflexivity|]. split; [simpl; lia|].
        eexists. split; [reflexivity|]. repeat split. simpl. intros _. exact Hlt.
    + intros [= <-]. apply Hplain.
  - destruct (strayMarkerIndexOf id <=? MaxNumberOfStrays t); [|intros [= <-]; apply Hplain].
    destruct (vectorAt (LastStraysPos t) _) as [[[x y] z]|]; [|discriminate].
    destruct (vectorAt (LastStraysStatus t) _) as [lastStatus|]; [|discriminate].
    intros [= <-]. apply Hplain.
  - intros [= <-]. apply Hplain.
Qed.

Lemma updateTools_effect (dflt : Z) (ts : float) (tools : StringMap DataSource)
    (t t' : Tracker) :
  updateTools dflt ts tools t = Ok t' ->
  sampled t t'
  /\ LastFrameNumber t <= LastFrameNumber t'
  /\ exists samples,
       Published t' = Published t ++ samples
       /\ updateId <$> samples = tools.*1
       /\ Forall (fun u => updateTimestamp u = ts) samples
       /\ (toUnsignedLong dflt <= LastFrameNumber t ->
           Forall (fun u => updateFrameNumber u <= LastFrameNumber t') samples).
Proof.
  revert t. induction tools as [|[id tool] tools IH]; intros t; cbn [updateTools].
  - intros [= <-]. split; [apply sampled_refl|]. split; [lia|].
    exists []. rewrite app_nil_r. repeat split; constructor.
  - destruct (updateTool dflt ts t id tool) as [t1| |] eqn:H1; try discriminate.
    intros Hrest.
    destruct (updateTool_effect dflt ts t t1 id tool H1)
      as (Hs1 & Hl1 & u & Hp1 & Hid & Hts & Hf).
    destruct (IH t1 Hrest) as (Hs & Hl & samples & Hp & Hids & Htss & Hfs).
    split; [eapply sampled_trans; eassumption|]. split; [lia|].
    exists (u :: samples).
    split; [rewrite Hp, Hp1, <- app_assoc; reflexivity|].
    split; [rewrite fmap_cons, Hid, Hids; reflexivity|].
    split; [constructor; assumption|].
    intros Hd. constructor; [specialize (Hf Hd); lia|apply Hfs; lia].
Qed.

Lemma updateStrays_length (fuel M : nat) (straysPos pos pos' : list Strays.Pos3)
    (status status' : list ToolStatus) :
  Strays.updateStrays fuel M straysPos pos status = Some (pos', status') ->
  length pos' = length pos /\ length status' = length status.
Proof.
  unfold Strays.updateStrays. destruct (0 <? length straysPos)%nat; [|intros [= <- <-]; tauto].
  destruct (Strays.MatchStrays _ _ _ _ _ fuel) as [matched|]; [|discriminate].
  intros [= <- <-]. unfold Strays.UpdateLastStraysData.
  apply (updateSlots_length Strays.INT_MAX matched straysPos (seq 0 M)).
Qed.

(** What a polling tick does. *)
Lemma InternalUpdate_effect (fuel : nat) (ts : float) (t t' : Tracker) (st : PlusStatus) :
  InternalUpdate fuel ts t = Ok (t', st) ->
  (length (LastStraysPos t') = length (LastStraysPos t)
   /\ length (LastStraysStatus t') = length (LastStraysStatus t)
   /\ MaxNumberOfStrays t' = MaxNumberOfStrays t
   /\ Recording t' = Recording t
   /\ IsDeviceTracking t' = IsDeviceTracking t
   /\ configuration (NdiToolDescriptors t') = configuration (NdiToolDescriptors t)
   /\ sources (Tools t') = sources (Tools t))
  /\ match st with
     | PLUS_FAIL =>
         Published t' = Published t
         /\ LastFrameNumber t' = LastFrameNumber t
         /\ LastStraysPos t' = LastStraysPos t
         /\ LastStraysStatus t' = LastStraysStatus t
         /\ (IsDeviceTracking t = false \/ ndiGetError (Device t') <> 0)
     | PLUS_SUCCESS =>
         IsDeviceTracking t = true
         /\ exists samples,
              Published t' = Published t ++ samples
              /\ updateId <$> samples = (Tools t).*1
              /\ Forall (fun u => updateTimestamp u = ts) samples
              /\ (0 <= LastFrameNumber t < 2147483647 ->
                  LastFrameNumber t < LastFrameNumber t'
                  /\ Forall (fun u => updateFrameNumber u <= LastFrameNumber t') samples)
     end.
Proof.
  unfold InternalUpdate. destruct (IsDeviceTracking t) eqn:Htracking; cbn [negb].
  2: { intros [= <- <-]. repeat split; try reflexivity; try exact Htracking.
       left. reflexivity. }
  set (t1 := command (CmdTX (if 0 <? MaxNumberOfStrays t then 6145 else 2049)) t).
  destruct (failed t1) eqn:Hfailed.
  { intros [= <- <-]. repeat split; try reflexivity; try exact Htracking. right.
    unfold failed in Hfailed. apply negb_true_iff, Z.eqb_neq in Hfailed. exact Hfailed. }
  destruct (if 0 <? MaxNumberOfStrays t1 then _ else _) as [[pos status]|] eqn:Hstrays;
    [|discriminate].
  assert (Hlen : length pos = length (LastStraysPos t)
                 /\ length status = length (LastStraysStatus t)).
  { destruct (0 <? MaxNumberOfStrays t1).
    - apply updateStrays_length in Hstrays. exact Hstrays.
    - injection Hstrays as <- <-. split; reflexivity. }
  cbv zeta.
  set (t3 := withLastFrameNumber
               (toUnsignedLong (LastFrameNumber (withStrays pos status t1) + 1))
               (withStrays pos status t1)).
  destruct (updateTools (toInt (LastFrameNumber t3)) ts (Tools t3) t3) as [t4| |] eqn:Htools;
    try discriminate.
  destruct (updateTools_effect (toInt (LastFrameNumber t3)) ts (Tools t3) t3 t4 Htools)
    as (Hs & Hl & samples & Hp & Hids & Htss & Hfs).
  assert (Hframes : 0 <= LastFrameNumber t < 2147483647 ->
                    LastFrameNumber t < LastFrameNumber t4
                    /\ Forall (fun u => updateFrameNumber u <= LastFrameNumber t4) samples).
  { intros Hrange.
    assert (H3 : LastFrameNumber t3 = LastFrameNumber t + 1).
    { unfold t3. cbn [LastFrameNumber withLastFrameNumber withStrays t1 command withDevice].
      apply toUnsignedLong_small. lia. }
    rewrite H3 in Hl. split; [lia|]. apply Hfs.
    rewrite H3, toInt_small, toUnsignedLong_small by lia. lia. }
  assert (Hall : forall t5, kept t4 t5 ->
            (length (LastStraysPos t5) = length (LastStraysPos t)
             /\ length (LastStraysStatus t5) = length (LastStraysStatus t)
             /\ MaxNumberOfStrays t5 = MaxNumberOfStrays t
             /\ Recording t5 = Recording t
             /\ IsDeviceTracking t5 = true
             /\ configuration (NdiToolDescriptors t5) = configuration (NdiToolDescriptors t)
             /\ sources (Tools t5) = sources (Tools t))
            /\ true = true
            /\ exists samples,
                 Published t5 = Published t ++ samples
                 /\ updateId <$> samples = (Tools t).*1
                 /\ Forall (fun u => updateTimestamp u = ts) samples
                 /\ (0 <= LastFrameNumber t < 2147483647 ->
                     LastFrameNumber t < LastFrameNumber t5
                     /\ Forall (fun u => updateFrameNumber u <= LastFrameNumber t5) samples)).
  { intros t5 [K1 K2 K3 K4 K5 K6 K7 K8 K9]. destruct Hs as [S1 S2 S3 S4 S5 S6 S7 S8].
    split.
    - rewrite K4, K5, K3, K1, K2, K8, K9, S5, S6, S4, S2, S3, S7, S8. simpl.
      destruct Hlen as [-> ->]. rewrite Htracking. repeat split; reflexivity.
    - split; [reflexivity|].
      exists samples. rewrite K7, K6. split; [exact Hp|]. split; [exact Hids|].
      split; assumption. }
  destruct (negb (Z.land (replyTXSystemStatus (readers (Device t4))) NDI_PORT_OCCUPIED =? 0)).
  - destruct (EnableToolPorts fuel t4) as [[t5 st5]| |] eqn:Henable; try discriminate.
    cbn beta iota. intros [= <- <-]. apply Hall.
    apply (EnableToolPorts_effect fuel t4 t5 st5 Henable).
  - intros [= <- <-]. apply Hall. apply kept_refl.
Qed.

End PollingTick.

(** ** The ROM image of a tool *)

Lemma concat_blocks {A : Type} (m n a : nat) (l : list A) :
  concat ((fun k => take m (drop (k * m) l)) <$> seq a n) = take (n * m) (drop (a * m) l).
Proof.
  revert a. induction n as [|n IH]; intros a; [reflexivity|].
  cbn [seq fmap list_fmap concat]. rewrite IH.
  replace (S a * m)%nat with (a * m + m)%nat by lia.
  rewrite <- drop_drop, take_take_drop. f_equal.
Qed.

(** X5. [ReadSromFromFile] makes of a file an image of exactly 1024 bytes,
    the first 1024 bytes of the file followed by zeros when the file is
    shorter, and [SendSromToTracker] uploads that image in sixteen blocks of
    64 bytes, each announced by [VER 0] and written by [PVWR] at its offset
    to the tool's port handle: the blocks put end to end are the image.  The
    result of the upload is the error state of the device after the last
    block only.  A file that cannot be opened leaves the descriptor as it
    is. *)
Theorem rom_file_is_uploaded_in_sixteen_blocks :
  forall (td : NDI.NdiToolDescriptor) (content : list ascii) (d : NDI.NdiDevice),
    let image := take 1024 content ++ replicate (1024 - length content) zero in
    let td1 := (NDIFiles.ReadSromFromFile td (Some content)).1 in
    NDIFiles.ReadSromFromFile td None = (td, PLUS_FAIL)
    /\ (NDIFiles.ReadSromFromFile td (Some content)).2 = PLUS_SUCCESS
    /\ NDI.VirtualSROM td1 = Some image
    /\ NDI.PortHandle td1 = NDI.PortHandle td
    /\ length image = 1024%nat
    /\ concat (NDISpec.sromBlocks image) = image
    /\ Forall (fun block => length block = 64%nat) (NDISpec.sromBlocks image)
    /\ NDISpec.sends d (NDI.SendSromToTracker td1 d).1
                     (NDISpec.sromUpload (NDI.PortHandle td) image)
    /\ (NDI.SendSromToTracker td1 d).2
       = (if NDI.ndiGetError (NDI.SendSromToTracker td1 d).1 =? 0
          then PLUS_SUCCESS else PLUS_FAIL).
Proof.
  intros td content d image td1.
  assert (Himage : NDI.VirtualSROM td1 = Some image).
  { subst td1 image. unfold NDIFiles.ReadSromFromFile, NDIFiles.setVirtualSROM.
    cbv zeta. cbn [fst NDI.VirtualSROM]. unfold NDI.VIRTUAL_SROM_SIZE.
    rewrite drop_replicate, length_take. do 3 f_equal. lia. }
  assert (Hlen : length image = 1024%nat).
  { subst image. rewrite length_app, length_take, length_replicate. lia. }
  split; [reflexivity|]. split; [reflexivity|]. split; [exact Himage|].
  split; [reflexivity|]. split; [exact Hlen|]. split; [|split; [|split]].
  - unfold NDISpec.sromBlocks. rewrite (concat_blocks 64 16 0 image).
    change (0 * 64)%nat with 0%nat. rewrite drop_0. apply take_ge. lia.
  - unfold NDISpec.sromBlocks. apply Forall_fmap, Forall_forall. intros k Hk.
    apply elem_of_seq in Hk. simpl. rewrite length_take, length_drop. lia.
  - unfold NDI.SendSromToTracker. rewrite Himage. cbv zeta.
    pose proof (uploadBlocks_sends td1 image
                  (seq 0 (NDI.VIRTUAL_SROM_SIZE / NDI.TRANSFER_BLOCK_SIZE)) d) as Hs.
    destruct (negb _); exact Hs.
  - unfold NDI.SendSromToTracker. rewrite Himage. cbv zeta.
    match goal with
    | |- context [negb (NDI.ndiGetError ?d1 =? 0)] =>
        destruct (NDI.ndiGetError d1 =? 0) eqn:He
    end; cbn [negb fst snd]; rewrite He; reflexivity.
Qed.

(** ** [EnableToolPorts] *)

(** X6. [EnableToolPorts], whatever it returns, changes nothing of the
    tracker but the port handles and the enabled flags of the descriptors,
    the custom properties of the tools and the conversation with the device:
    the recording and tracking flags, the stray vectors and their size, the
    frame counter and the samples already published stay as they are, no
    descriptor and no tool is added, removed or renamed, and every descriptor
    keeps its wired port number and its ROM image. *)
Theorem EnableToolPorts_changes_only_port_state :
  forall (fuel : nat) (t t' : NDI.Tracker) (st : PlusStatus),
    NDI.EnableToolPorts fuel t = NDI.Ok (t', st) ->
    NDI.Recording t' = NDI.Recording t
    /\ NDI.IsDeviceTracking t' = NDI.IsDeviceTracking t
    /\ NDI.MaxNumberOfStrays t' = NDI.MaxNumberOfStrays t
    /\ NDI.LastStraysPos t' = NDI.LastStraysPos t
    /\ NDI.LastStraysStatus t' = NDI.LastStraysStatus t
    /\ NDI.LastFrameNumber t' = NDI.LastFrameNumber t
    /\ NDI.Published t' = NDI.Published t
    /\ (fun p => (p.1, NDI.WiredPortNumber p.2, NDI.VirtualSROM p.2)) <$> NDI.NdiToolDescriptors t'
       = (fun p => (p.1, NDI.WiredPortNumber p.2, NDI.VirtualSROM p.2)) <$> NDI.NdiToolDescriptors t
    /\ (fun p => (p.1, NDI.sourceType p.2)) <$> NDI.Tools t'
       = (fun p => (p.1, NDI.sourceType p.2)) <$> NDI.Tools t
    /\ NDI.behaviour (NDI.Device t') = NDI.behaviour (NDI.Device t).
Proof.
  intros fuel t t' st H.
  destruct (EnableToolPorts_effect fuel t t' st H)
    as ([K1 K2 K3 K4 K5 K6 K7 K8 K9] & sent & restarted & Hb & _).
  repeat split; assumption.
Qed.

Lemma EnableToolPorts_changes_only_port_state_witness :
  NDI.Recording Runs.stylusEnabled = NDI.Recording Scenarios.stylusTracker
  /\ NDI.IsDeviceTracking Runs.stylusEnabled = NDI.IsDeviceTracking Scenarios.stylusTracker
  /\ NDI.MaxNumberOfStrays Runs.stylusEnabled = NDI.MaxNumberOfStrays Scenarios.stylusTracker
  /\ NDI.LastStraysPos Runs.stylusEnabled = NDI.LastStraysPos Scenarios.stylusTracker
  /\ NDI.LastStraysStatus Runs.stylusEnabled = NDI.LastStraysStatus Scenarios.stylusTracker
  /\ NDI.LastFrameNumber Runs.stylusEnabled = NDI.LastFrameNumber Scenarios.stylusTracker
  /\ NDI.Published Runs.stylusEnabled = NDI.Published Scenarios.stylusTracker
  /\ (fun p => (p.1, NDI.WiredPortNumber p.2, NDI.VirtualSROM p.2))
       <$> NDI.NdiToolDescriptors Runs.stylusEnabled
     = (fun p => (p.1, NDI.WiredPortNumber p.2, NDI.VirtualSROM p.2))
         <$> NDI.NdiToolDescriptors Scenarios.stylusTracker
  /\ (fun p => (p.1, NDI.sourceType p.2)) <$> NDI.Tools Runs.stylusEnabled
     = (fun p => (p.1, NDI.sourceType p.2)) <$> NDI.Tools Scenarios.stylusTracker
  /\ NDI.behaviour (NDI.Device Runs.stylusEnabled)
     = NDI.behaviour (NDI.Device Scenarios.stylusTracker).
Proof.
  assert (Hrun : NDI.EnableToolPorts 2 Scenarios.stylusTracker
                 = NDI.Ok (Runs.stylusEnabled, PLUS_SUCCESS))
    by (vm_compute; reflexivity).
  exact (EnableToolPorts_changes_only_port_state 2 Scenarios.stylusTracker
           Runs.stylusEnabled PLUS_SUCCESS Hrun).
Defined.

(** X7. What [EnableToolPorts] has said to the device when it returns:
    TSTOP first if the device was tracking, then port commands only (PHSR,
    PHF, PHRQ, PINIT, PENA, PHINF, VER, PVWR), then possibly TSTART, and
    TSTART only if the device was tracking.  When the device was tracking
    and TSTART is not sent, the method returns PLUS_FAIL: tracking was
    stopped and is not started again, while [IsDeviceTracking], which the
    method never changes, still says that the device tracks. *)
Theorem EnableToolPorts_brackets_port_commands :
  forall (fuel : nat) (t t' : NDI.Tracker) (st : PlusStatus),
    NDI.EnableToolPorts fuel t = NDI.Ok (t', st) ->
    NDI.IsDeviceTracking t' = NDI.IsDeviceTracking t
    /\ exists (sent : list NDI.NdiCmd) (restarted : bool),
         NDI.history (NDI.Device t')
         = NDI.history (NDI.Device t)
             ++ (if NDI.IsDeviceTracking t then [NDI.CmdTSTOP] else [])
             ++ sent ++ (if restarted then [NDI.CmdTSTART] else [])
         /\ Forall (fun c => NDISpec.portCommand c = true) sent
         /\ (restarted = true -> NDI.IsDeviceTracking t = true)
         /\ (NDI.IsDeviceTracking t = true -> restarted = false -> st = PLUS_FAIL).
Proof.
  intros fuel t t' st H.
  destruct (EnableToolPorts_effect fuel t t' st H)
    as ([K1 K2 K3 K4 K5 K6 K7 K8 K9] & sent & restarted & Hb & Hh & Hf & Hr1 & Hr2).
  split; [exact K2|]. exists sent, restarted. repeat split; assumption.
Qed.

(** The tracking tracker whose wired tool has no port handle listed:
    [EnableToolPorts] fails, having sent TSTOP and no TSTART. *)
Lemma EnableToolPorts_brackets_port_commands_witness :
  NDI.EnableToolPorts 2 Runs.wiredTracker = NDI.Ok (Runs.wiredStopped, PLUS_FAIL)
  /\ NDI.history (NDI.Device Runs.wiredStopped)
     = [NDI.CmdTSTOP; NDI.CmdPHSR 1; NDI.CmdPHSR 2; NDI.CmdPINIT 1; NDI.CmdPHSR 2;
        NDI.CmdPHSR 3; NDI.CmdPHINF 1 1; NDI.CmdPENA 1 "D"; NDI.CmdPHSR 0]
  /\ NDI.IsDeviceTracking Runs.wiredStopped = NDI.IsDeviceTracking Runs.wiredTracker
  /\ exists (sent : list NDI.NdiCmd) (restarted : bool),
       NDI.history (NDI.Device Runs.wiredStopped)
       = NDI.history (NDI.Device Runs.wiredTracker)
           ++ (if NDI.IsDeviceTracking Runs.wiredTracker then [NDI.CmdTSTOP] else [])
           ++ sent ++ (if restarted then [NDI.CmdTSTART] else [])
       /\ Forall (fun c => NDISpec.portCommand c = true) sent
       /\ (restarted = true -> NDI.IsDeviceTracking Runs.wiredTracker = true)
       /\ (NDI.IsDeviceTracking Runs.wiredTracker = true -> restarted = false ->
           PLUS_FAIL = PLUS_FAIL).
Proof.
  assert (Hrun : NDI.EnableToolPorts 2 Runs.wiredTracker
                 = NDI.Ok (Runs.wiredStopped, PLUS_FAIL))
    by (vm_compute; reflexivity).
  split; [exact Hrun|]. split; [vm_compute; reflexivity|].
  exact (EnableToolPorts_brackets_port_commands 2 Runs.wiredTracker Runs.wiredStopped
           PLUS_FAIL Hrun).
Defined.

(** ** The polling tick *)

(** X8. A polling tick that succeeds hands exactly one sample to the
    buffers for each tool of the tracker, in the order of the tool container,
    every one at the timestamp of the tick; this holds for the tools without
    a descriptor or a port handle and for the stray sources too.  A tick that
    fails (the device is not tracking, or it answers TX with an error)
    publishes nothing and leaves the stray vectors as they are. *)
Theorem InternalUpdate_publishes_one_sample_per_tool :
  forall (fuel : nat) (toolTimestamp : float) (t t' : NDI.Tracker) (st : PlusStatus),
    NDI.InternalUpdate fuel toolTimestamp t = NDI.Ok (t', st) ->
    match st with
    | PLUS_SUCCESS =>
        exists samples,
          NDI.Published t' = NDI.Published t ++ samples
          /\ NDI.updateId <$> samples = (NDI.Tools t).*1
          /\ Forall (fun u => NDI.updateTimestamp u = toolTimestamp) samples
    | PLUS_FAIL =>
        NDI.Published t' = NDI.Published t
        /\ NDI.LastStraysPos t' = NDI.LastStraysPos t
        /\ NDI.LastStraysStatus t' = NDI.LastStraysStatus t
        /\ (NDI.IsDeviceTracking t = false \/ NDI.ndiGetError (NDI.Device t') <> 0)
    end.
Proof.
  intros fuel ts t t' st H.
  destruct (InternalUpdate_effect fuel ts t t' st H) as [_ Hst]. destruct st.
  - destruct Hst as (Hp & _ & Hpos & Hstatus & Hwhy). repeat split; assumption.
  - destruct Hst as (_ & samples & Hp & Hids & Hts & _).
    exists samples. repeat split; assumption.
Qed.

Lemma InternalUpdate_publishes_one_sample_per_tool_witness :
  exists samples,
    NDI.Published Runs.ledPolled = NDI.Published (Scenarios.ledTracker true) ++ samples
    /\ NDI.updateId <$> samples = (NDI.Tools (Scenarios.ledTracker true)).*1
    /\ Forall (fun u => NDI.updateTimestamp u = 0%float) samples.
Proof.
  assert (Hrun : NDI.InternalUpdate 1 0%float (Scenarios.ledTracker true)
                 = NDI.Ok (Runs.ledPolled, PLUS_SUCCESS))
    by (vm_compute; reflexivity).
  exact (InternalUpdate_publishes_one_sample_per_tool 1 0%float (Scenarios.ledTracker true)
           Runs.ledPolled PLUS_SUCCESS Hrun).
Defined.

(** The frame numbers past the largest [int]: the counter goes on to
    2^31, which the [int] it is copied to holds as -2^31 and the
    [unsigned long] given to the buffers as 2^64 - 2^31. *)
Lemma default_frame_number_past_INT_MAX :
  NDI.toUnsignedLong (2147483647 + 1) = 2147483648
  /\ NDI.toInt (NDI.toUnsignedLong (2147483647 + 1)) = -2147483648
  /\ NDI.toUnsignedLong (NDI.toInt (NDI.toUnsignedLong (2147483647 + 1)))
     = 18446744071562067968.
Proof. repeat split. Qed.

(** X9. A polling tick that succeeds on a tracker whose [LastFrameNumber]
    is below the largest [int] (so that the default frame number, which the
    tick keeps in an [int], is the counter's value) raises [LastFrameNumber],
    and no sample it publishes carries a frame number above the
    [LastFrameNumber] it leaves; a tick that fails leaves [LastFrameNumber]
    as it is. *)
Theorem InternalUpdate_raises_the_frame_number :
  forall (fuel : nat) (toolTimestamp : float) (t t' : NDI.Tracker) (st : PlusStatus),
    NDI.InternalUpdate fuel toolTimestamp t = NDI.Ok (t', st) ->
    match st with
    | PLUS_SUCCESS =>
        0 <= NDI.LastFrameNumber t < 2147483647 ->
        NDI.LastFrameNumber t < NDI.LastFrameNumber t'
        /\ forall u, u ∈ drop (length (NDI.Published t)) (NDI.Published t') ->
                     NDI.updateFrameNumber u <= NDI.LastFrameNumber t'
    | PLUS_FAIL => NDI.LastFrameNumber t' = NDI.LastFrameNumber t
    end.
Proof.
  intros fuel ts t t' st H.
  destruct (InternalUpdate_effect fuel ts t t' st H) as [_ Hst]. destruct st.
  - destruct Hst as (_ & Hl & _). exact Hl.
  - destruct Hst as (_ & samples & Hp & _ & _ & Hframes). intros Hrange.
    destruct (Hframes Hrange) as [Hl Hf].
    split; [exact Hl|]. intros u Hu. rewrite Hp, drop_app_length in Hu.
    rewrite Forall_forall in Hf. apply Hf, Hu.
Qed.

Lemma InternalUpdate_raises_the_frame_number_witness :
  0 <= NDI.LastFrameNumber (Scenarios.ledTracker true) < 2147483647
  /\ NDI.LastFrameNumber (Scenarios.ledTracker true) < NDI.LastFrameNumber Runs.ledPolled
  /\ forall u, u ∈ drop (length (NDI.Published (Scenarios.ledTracker true)))
                        (NDI.Published Runs.ledPolled) ->
               NDI.updateFrameNumber u <= NDI.LastFrameNumber Runs.ledPolled.
Proof.
  assert (Hrun : NDI.InternalUpdate 1 0%float (Scenarios.ledTracker true)
                 = NDI.Ok (Runs.ledPolled, PLUS_SUCCESS))
    by (vm_compute; reflexivity).
  assert (Hrange : 0 <= NDI.LastFrameNumber (Scenarios.ledTracker true) < 2147483647)
    by (simpl; lia).
  split; [exact Hrange|].
  exact (InternalUpdate_raises_the_frame_number 1 0%float (Scenarios.ledTracker true)
           Runs.ledPolled PLUS_SUCCESS Hrun Hrange).
Defined.

(** X10. The sizes [ReadConfiguration] gives the two stray vectors are kept
    by every polling tick, whatever the tracker reports and whether or not
    the tick goes on to [EnableToolPorts]: both vectors still have
    [MaxNumberOfStrays] elements after it, and the tick changes neither
    [MaxNumberOfStrays], nor the recording and tracking flags, nor the names
    and kinds of the tools, nor the wired port numbers and ROM images of the
    descriptors. *)
Theorem InternalUpdate_keeps_the_stray_vectors_sized :
  forall (fuel : nat) (toolTimestamp : float) (t t' : NDI.Tracker) (st : PlusStatus),
    NDISpec.sized t ->
    NDI.InternalUpdate fuel toolTimestamp t = NDI.Ok (t', st) ->
    NDISpec.sized t'
    /\ NDI.MaxNumberOfStrays t' = NDI.MaxNumberOfStrays t
    /\ NDI.Recording t' = NDI.Recording t
    /\ NDI.IsDeviceTracking t' = NDI.IsDeviceTracking t
    /\ NDISpec.configuration (NDI.NdiToolDescriptors t')
       = NDISpec.configuration (NDI.NdiToolDescriptors t)
    /\ NDISpec.sources (NDI.Tools t') = NDISpec.sources (NDI.Tools t).
Proof.
  intros fuel ts t t' st [Hp Hs] H.
  destruct (InternalUpdate_effect fuel ts t t' st H)
    as [(Hlp & Hls & Hmax & Hrec & Htr & Hconf & Hsrc) _].
  split; [split; congruence|]. repeat split; assumption.
Qed.

Lemma strayTracker_sized (id : string) : NDISpec.sized (Scenarios.strayTracker id).
Proof. split; reflexivity. Defined.

(** The tracker with three stray slots and the source of slot 2, after a
    tick in which no stray is reported. *)
Lemma InternalUpdate_keeps_the_stray_vectors_sized_witness :
  exists t',
    NDI.InternalUpdate 1 0%float (Scenarios.strayTracker "Stray02ToTracker")
    = NDI.Ok (t', PLUS_SUCCESS)
    /\ NDISpec.sized t'
    /\ NDI.MaxNumberOfStrays t' = NDI.MaxNumberOfStrays (Scenarios.strayTracker "Stray02ToTracker")
    /\ NDI.Recording t' = NDI.Recording (Scenarios.strayTracker "Stray02ToTracker")
    /\ NDI.IsDeviceTracking t'
       = NDI.IsDeviceTracking (Scenarios.strayTracker "Stray02ToTracker")
    /\ NDISpec.configuration (NDI.NdiToolDescriptors t')
       = NDISpec.configuration
           (NDI.NdiToolDescriptors (Scenarios.strayTracker "Stray02ToTracker"))
    /\ NDISpec.sources (NDI.Tools t')
       = NDISpec.sources (NDI.Tools (Scenarios.strayTracker "Stray02ToTracker")).
Proof.
  eexists. split; [vm_compute; reflexivity|].
  refine (InternalUpdate_keeps_the_stray_vectors_sized 1 0%float
            (Scenarios.strayTracker "Stray02ToTracker") _ PLUS_SUCCESS
            (strayTracker_sized _) _).
  vm_compute. reflexivity.
Defined.

(** X11. A stray source whose index [n] (the two digits of its id after
    "Stray") is at least 1 is published, on a tracker whose stray vectors are
    sized, without any read outside the vectors: when [n] is at most
    [MaxNumberOfStrays], with the last position of slot [n] as its
    translation and with the status of that slot (MISSING if the slot is
    MISSING, OK otherwise); when [n] is larger, with the identity and
    MISSING.  The frame number is the default one of the tick, an [int],
    converted to the [unsigned long] the buffers take.  (The index is read
    with the characters as the signed values they are on the build
    platforms.) *)
Theorem stray_source_reports_its_slot :
  forall (t : NDI.Tracker) (toolSourceId : string) (trackerTool : NDI.DataSource)
         (defaultToolFrameNumber : Z) (toolTimestamp : float),
    NDI.sourceType trackerTool = NDI.DATA_SOURCE_TYPE_STRAYMARKER ->
    NDISpec.sized t ->
    1 <= NDI.strayMarkerIndexOf toolSourceId ->
    let n := NDI.strayMarkerIndexOf toolSourceId in
    let slot := Z.to_nat (n - 1) in
    NDI.updateTool defaultToolFrameNumber toolTimestamp t toolSourceId trackerTool
    = NDI.Ok
        (NDI.ToolTimeStampedUpdate
           (if n <=? NDI.MaxNumberOfStrays t
            then NDI.mkToolUpdate toolSourceId
                   (NDI.FromNdiTransform
                      [1; 0; 0; 0; (NDI.LastStraysPos t !!! slot).1.1;
                       (NDI.LastStraysPos t !!! slot).1.2;
                       (NDI.LastStraysPos t !!! slot).2; 0]%float)
                   (match NDI.LastStraysStatus t !!! slot with
                    | TOOL_MISSING => TOOL_MISSING
                    | _ => TOOL_OK
                    end)
                   (NDI.toUnsignedLong defaultToolFrameNumber) toolTimestamp
            else NDI.mkToolUpdate toolSourceId NDI.IdentityMatrix TOOL_MISSING
                   (NDI.toUnsignedLong defaultToolFrameNumber) toolTimestamp)
           t).
Proof.
  intros t id tool dflt ts Htype [Hpos Hstatus] Hlow n slot. subst n slot.
  unfold NDI.updateTool. rewrite Htype.
  destruct (NDI.strayMarkerIndexOf id <=? NDI.MaxNumberOfStrays t) eqn:Hle; [|reflexivity].
  apply Z.leb_le in Hle. unfold NDI.vectorAt.
  destruct (NDI.strayMarkerIndexOf id - 1 <? 0) eqn:Hneg; [apply Z.ltb_lt in Hneg; lia|].
  destruct (lookup_lt_is_Some_2 (NDI.LastStraysPos t)
              (Z.to_nat (NDI.strayMarkerIndexOf id - 1))) as [[[x y] z] Hp]; [lia|].
  destruct (lookup_lt_is_Some_2 (NDI.LastStraysStatus t)
              (Z.to_nat (NDI.strayMarkerIndexOf id - 1))) as [status Hs]; [lia|].
  rewrite Hp, Hs.
  rewrite (list_lookup_total_correct _ _ _ Hp), (list_lookup_total_correct _ _ _ Hs).
  destruct status; reflexivity.
Qed.

Lemma stray_source_reports_its_slot_witness :
  NDI.updateTool 1 0%float (Scenarios.strayTracker "Stray02ToTracker") "Stray02ToTracker"
                 (NDI.mkDataSource NDI.DATA_SOURCE_TYPE_STRAYMARKER [])
  = NDI.Ok
      (NDI.ToolTimeStampedUpdate
         (NDI.mkToolUpdate "Stray02ToTracker"
            (NDI.FromNdiTransform [1; 0; 0; 0; 10; 0; 10; 0]%float) TOOL_OK 1 0%float)
         (Scenarios.strayTracker "Stray02ToTracker")).
Proof.
  exact (stray_source_reports_its_slot (Scenarios.strayTracker "Stray02ToTracker")
           "Stray02ToTracker" (NDI.mkDataSource NDI.DATA_SOURCE_TYPE_STRAYMARKER [])
           1 0%float eq_refl (strayTracker_sized _) ltac:(vm_compute; discriminate)).
Defined.

(** X12. A tool for which no descriptor is found, or whose descriptor has
    no port handle above zero, is still given a sample in the tick: the
    identity, the default frame number of the tick (an [int]) converted to
    the [unsigned long] the buffers take, and the status OK. *)
Theorem tool_without_port_handle_is_reported_ok :
  forall (t : NDI.Tracker) (toolSourceId : string) (trackerTool : NDI.DataSource)
         (defaultToolFrameNumber : Z) (toolTimestamp : float),
    NDI.sourceType trackerTool = NDI.DATA_SOURCE_TYPE_TOOL ->
    (NDI.mapFind toolSourceId (NDI.NdiToolDescriptors t) = None
     \/ exists td, NDI.mapFind toolSourceId (NDI.NdiToolDescriptors t) = Some td
                   /\ NDI.PortHandle td <= 0) ->
    NDI.updateTool defaultToolFrameNumber toolTimestamp t toolSourceId trackerTool
    = NDI.Ok
        (NDI.ToolTimeStampedUpdate
           (NDI.mkToolUpdate toolSourceId NDI.IdentityMatrix TOOL_OK
                             (NDI.toUnsignedLong defaultToolFrameNumber) toolTimestamp)
           t).
Proof.
  intros t id tool dflt ts Htype [Hnone|(td & Hsome & Hle)];
    unfold NDI.updateTool; rewrite Htype.
  - rewrite Hnone. reflexivity.
  - rewrite Hsome. apply Z.leb_le in Hle. rewrite Hle. reflexivity.
Qed.

(** The stylus before [EnableToolPorts] has given it a port handle. *)
Lemma tool_without_port_handle_is_reported_ok_witness :
  NDI.updateTool 1 0%float Scenarios.stylusTracker "Stylus"
                 (NDI.mkDataSource NDI.DATA_SOURCE_TYPE_TOOL [])
  = NDI.Ok
      (NDI.ToolTimeStampedUpdate
         (NDI.mkToolUpdate "Stylus" NDI.IdentityMatrix TOOL_OK 1 0%float)
         Scenarios.stylusTracker).
Proof.
  apply (tool_without_port_handle_is_reported_ok Scenarios.stylusTracker "Stylus"
           (NDI.mkDataSource NDI.DATA_SOURCE_TYPE_TOOL []) 1 0%float eq_refl).
  right. exists Scenarios.stylusDescriptor. split; [reflexivity|simpl; lia].
Defined.

(** ** [Beep] and [SetToolLED] *)

(** X13. On a tracker that is not recording [Beep] sends exactly one BEEP
    command, whose count is [n] brought into the range from 0 to 9, and
    returns PLUS_SUCCESS whatever the device answers. *)
Theorem Beep_sends_a_count_from_zero_to_nine :
  forall (n : Z) (t : NDI.Tracker),
    NDI.Recording t = false ->
    NDI.Beep n t = (NDI.command (NDI.CmdBEEP (Z.max 0 (Z.min n 9))) t, PLUS_SUCCESS)
    /\ NDI.history (NDI.Device (NDI.Beep n t).1)
       = NDI.history (NDI.Device t) ++ [NDI.CmdBEEP (Z.max 0 (Z.min n 9))]
    /\ 0 <= Z.max 0 (Z.min n 9) <= 9
    /\ (0 <= n <= 9 -> Z.max 0 (Z.min n 9) = n).
Proof.
  intros n t Hrec.
  assert (Hbeep : NDI.Beep n t
                  = (NDI.command (NDI.CmdBEEP (Z.max 0 (Z.min n 9))) t, PLUS_SUCCESS)).
  { unfold NDI.Beep. rewrite Hrec.
    destruct (9 <? n) eqn:H9; [apply Z.ltb_lt in H9|apply Z.ltb_ge in H9].
    - replace (Z.max 0 (Z.min n 9)) with 9 by lia. reflexivity.
    - destruct (n <? 0) eqn:H0; [apply Z.ltb_lt in H0|apply Z.ltb_ge in H0].
      + replace (Z.max 0 (Z.min n 9)) with 0 by lia. reflexivity.
      + replace (Z.max 0 (Z.min n 9)) with n by lia. reflexivity. }
  split; [exact Hbeep|]. split; [rewrite Hbeep; reflexivity|]. split; lia.
Qed.

Lemma Beep_sends_a_count_from_zero_to_nine_witness :
  NDI.Beep 12 (Scenarios.ledTracker false)
  = (NDI.command (NDI.CmdBEEP (Z.max 0 (Z.min 12 9))) (Scenarios.ledTracker false),
     PLUS_SUCCESS)
  /\ NDI.history (NDI.Device (NDI.Beep 12 (Scenarios.ledTracker false)).1)
     = NDI.history (NDI.Device (Scenarios.ledTracker false))
         ++ [NDI.CmdBEEP (Z.max 0 (Z.min 12 9))]
  /\ 0 <= Z.max 0 (Z.min 12 9) <= 9
  /\ (0 <= 12 <= 9 -> Z.max 0 (Z.min 12 9) = 12).
Proof.
  exact (Beep_sends_a_count_from_zero_to_nine 12 (Scenarios.ledTracker false) eq_refl).
Defined.

(** X14. For an LED number below the largest [int] (its successor is
    taken in [int]), [SetToolLED] either fails and leaves the tracker and the
    device as they were (nothing is sent), or succeeds having sent exactly
    one LED command: it succeeds exactly when the tracker is recording, the
    tool has a descriptor with a port handle above zero and the state is OFF,
    ON or FLASH; the command carries that port handle, the LED number plus
    one and the letter of the state, and the answer of the device is not
    looked at. *)
Theorem SetToolLED_sends_one_command_or_nothing :
  forall (sourceId : string) (led : Z) (state : NDI.LedState) (t t' : NDI.Tracker)
         (st : PlusStatus),
    -2147483648 <= led < 2147483647 ->
    NDI.SetToolLED sourceId led state t = (t', st) ->
    match st with
    | PLUS_FAIL =>
        t' = t
        /\ (NDI.Recording t = false
            \/ NDI.mapFind sourceId (NDI.NdiToolDescriptors t) = None
            \/ (exists td, NDI.mapFind sourceId (NDI.NdiToolDescriptors t) = Some td
                           /\ NDI.PortHandle td <= 0)
            \/ state = NDI.TR_LED_other)
    | PLUS_SUCCESS =>
        NDI.Recording t = true
        /\ exists td plstate,
             NDI.mapFind sourceId (NDI.NdiToolDescriptors t) = Some td
             /\ 0 < NDI.PortHandle td
             /\ (state = NDI.TR_LED_OFF /\ plstate = NDI.NDI_BLANK
                 \/ state = NDI.TR_LED_ON /\ plstate = NDI.NDI_SOLID
                 \/ state = NDI.TR_LED_FLASH /\ plstate = NDI.NDI_FLASH)
             /\ t' = NDI.command (NDI.CmdLED (NDI.PortHandle td) (led + 1) plstate) t
    end.
Proof.
  intros sourceId led state t t' st Hled. unfold NDI.SetToolLED.
  rewrite (toInt_small (led + 1)) by lia.
  destruct (NDI.Recording t) eqn:Hrec; simpl.
  2: { intros [= <- <-]. split; [reflexivity|]. left. reflexivity. }
  destruct (NDI.mapFind sourceId (NDI.NdiToolDescriptors t)) as [td|] eqn:Hfind.
  2: { intros [= <- <-]. split; [reflexivity|]. right. left. reflexivity. }
  destruct (NDI.PortHandle td <=? 0) eqn:Hle.
  { intros [= <- <-]. split; [reflexivity|]. right. right. left.
    exists td. split; [reflexivity|]. apply Z.leb_le. exact Hle. }
  apply Z.leb_gt in Hle.
  destruct state; intros [= <- <-].
  - split; [reflexivity|]. exists td, NDI.NDI_BLANK.
    split; [reflexivity|]. split; [lia|]. split; [|reflexivity]. left. split; reflexivity.
  - split; [reflexivity|]. exists td, NDI.NDI_SOLID.
    split; [reflexivity|]. split; [lia|]. split; [|reflexivity].
    right. left. split; reflexivity.
  - split; [reflexivity|]. exists td, NDI.NDI_FLASH.
    split; [reflexivity|]. split; [lia|]. split; [|reflexivity].
    right. right. split; reflexivity.
  - split; [reflexivity|]. right. right. right. reflexivity.
Qed.

Lemma SetToolLED_sends_one_command_or_nothing_witness :
  NDI.SetToolLED "Stylus" 2 NDI.TR_LED_FLASH (Scenarios.ledTracker true)
  = (NDI.command (NDI.CmdLED 1 3 NDI.NDI_FLASH) (Scenarios.ledTracker true), PLUS_SUCCESS)
  /\ NDI.Recording (Scenarios.ledTracker true) = true
  /\ exists td plstate,
       NDI.mapFind "Stylus" (NDI.NdiToolDescriptors (Scenarios.ledTracker true)) = Some td
       /\ 0 < NDI.PortHandle td
       /\ (NDI.TR_LED_FLASH = NDI.TR_LED_OFF /\ plstate = NDI.NDI_BLANK
           \/ NDI.TR_LED_FLASH = NDI.TR_LED_ON /\ plstate = NDI.NDI_SOLID
           \/ NDI.TR_LED_FLASH = NDI.TR_LED_FLASH /\ plstate = NDI.NDI_FLASH)
       /\ NDI.command (NDI.CmdLED 1 3 NDI.NDI_FLASH) (Scenarios.ledTracker true)
          = NDI.command (NDI.CmdLED (NDI.PortHandle td) (2 + 1) plstate)
                        (Scenarios.ledTracker true).
Proof.
  split; [reflexivity|].
  exact (SetToolLED_sends_one_command_or_nothing "Stylus" 2 NDI.TR_LED_FLASH
           (Scenarios.ledTracker true)
           (NDI.command (NDI.CmdLED 1 3 NDI.NDI_FLASH) (Scenarios.ledTracker true))
           PLUS_SUCCESS ltac:(lia) eq_refl).
Defined.

(** ** The names of the stray transforms *)

Lemma stray_ids_read_back (StrayReferenceFrame : string) :
  forallb (fun i => NDI.strayMarkerIndexOf (Service.strayMarkerId i StrayReferenceFrame)
                    =? Z.of_nat i + 1)
          (seq 0 99) = true.
Proof. vm_compute. reflexivity. Qed.

(** X15. The transform names the server's [ReadConfiguration] makes up for
    the stray markers ("Stray01To...", ..., "Stray99To...") fit the way the
    polling tick of the tracker reads the id of a stray source, which takes
    the characters at positions 5 and 6 as a two-digit number: for each of
    the first 99 markers the name of marker [i] (counted from 0) is read as
    the index [i + 1], whatever the reference frame is called. *)
Theorem stray_names_of_the_server_are_read_back_by_the_tracker :
  forall (i : nat) (StrayReferenceFrame : string),
    (i < 99)%nat ->
    NDI.strayMarkerIndexOf (Service.strayMarkerId i StrayReferenceFrame) = Z.of_nat i + 1.
Proof.
  intros i ref Hi. pose proof (stray_ids_read_back ref) as H.
  rewrite forallb_forall in H. apply Z.eqb_eq, H, in_seq. lia.
Qed.

Lemma stray_names_of_the_server_are_read_back_by_the_tracker_witness :
  Service.strayMarkerId 11 "Tracker" = "Stray12ToTracker"%string
  /\ NDI.strayMarkerIndexOf (Service.strayMarkerId 11 "Tracker") = Z.of_nat 11 + 1.
Proof.
  split; [reflexivity|].
  exact (stray_names_of_the_server_are_read_back_by_the_tracker 11 "Tracker" ltac:(lia)).
Defined.

(** The name of the hundredth marker has three digits, of which the tracker
    reads the first two. *)
Lemma hundredth_stray_name_is_read_as_ten (StrayReferenceFrame : string) :
  NDI.strayMarkerIndexOf (Service.strayMarkerId 99 StrayReferenceFrame) = 10.
Proof. vm_compute. reflexivity. Qed.

(** ** The client registry *)

Section Registry.
Import Server Service ServerSpec.

Lemma filter_all {A : Type} (P : A -> Prop) `{forall x, Decision (P x)} (l : list A) :
  Forall P l -> filter P l = l.
Proof.
  induction 1 as [|x l Hx _ IH]; [reflexivity|].
  rewrite filter_cons, IH. destruct (decide (P x)); [reflexivity|contradiction].
Qed.

Lemma findClient_None (clientId : Z) (clients : list ClientData) :
  findClient clientId clients = None <-> clientId ∉ ClientId <$> clients.
Proof.
  induction clients as [|c clients IH]; simpl.
  - split; [intros _ H; apply elem_of_nil in H; contradiction|reflexivity].
  - rewrite not_elem_of_cons. destruct (Z.eqb_spec (ClientId c) clientId) as [Heq|Hne].
    + split; [discriminate|]. intros [H _]. congruence.
    + rewrite IH. split; [intros H; split; [congruence|exact H]|intros [_ H]; exact H].
Qed.

Lemma findClient_Some (clientId : Z) (clients : list ClientData) (c : ClientData) :
  findClient clientId clients = Some c -> c ∈ clients /\ ClientId c = clientId.
Proof.
  induction clients as [|c0 clients IH]; simpl; [discriminate|].
  destruct (Z.eqb_spec (ClientId c0) clientId) as [Heq|Hne].
  - intros [= <-]. split; [left|exact Heq].
  - intros H. destruct (IH H) as [Hin Hid]. split; [right; exact Hin|exact Hid].
Qed.

Lemma findClient_app (clientId : Z) (clients : list ClientData) (c : ClientData) :
  findClient clientId (clients ++ [c])
  = match findClient clientId clients with
    | Some found => Some found
    | None => if ClientId c =? clientId then Some c else None
    end.
Proof.
  induction clients as [|c0 clients IH]; simpl; [reflexivity|].
  destruct (ClientId c0 =? clientId); [reflexivity|exact IH].
Qed.

Lemma connected_elem (clientId : Z) (s : ServerState) :
  connected clientId s = true <-> clientId ∈ ClientId <$> IgtlClients s.
Proof.
  unfold connected. rewrite existsb_exists, list_elem_of_fmap. split.
  - intros (c & Hin & Heq). apply Z.eqb_eq in Heq. exists c.
    split; [congruence|apply list_elem_of_In; exact Hin].
  - intros (c & Heq & Hin). exists c. split; [apply list_elem_of_In; exact Hin|].
    apply Z.eqb_eq. congruence.
Qed.

Lemma eraseClient_other (clientId other : Z) (clients : list ClientData) :
  other <> clientId ->
  findClient other (eraseClient clientId clients) = findClient other clients.
Proof.
  intros Hne. induction clients as [|c clients IH]; simpl; [reflexivity|].
  destruct (Z.eqb_spec (ClientId c) clientId) as [Heq|Hc]; simpl.
  - destruct (Z.eqb_spec (ClientId c) other) as [Ho|_]; [congruence|reflexivity].
  - rewrite IH. reflexivity.
Qed.

Lemma eraseClient_filter (clientId : Z) (clients : list ClientData) :
  uniqueIds clients ->
  eraseClient clientId clients = filter (fun c => ClientId c <> clientId) clients.
Proof.
  unfold uniqueIds. induction clients as [|c clients IH]; intros Hu; simpl; [reflexivity|].
  rewrite fmap_cons in Hu. apply NoDup_cons in Hu as [Hc Hu]. rewrite filter_cons.
  destruct (Z.eqb_spec (ClientId c) clientId) as [Heq|Hne]; simpl.
  - destruct (decide (ClientId c <> clientId)) as [H|_]; [congruence|].
    symmetry. apply filter_all, Forall_forall. intros c' Hin Heq'. apply Hc.
    apply list_elem_of_fmap. exists c'. split; [congruence|exact Hin].
  - destruct (decide (ClientId c <> clientId)) as [_|H]; [|contradiction].
    rewrite (IH Hu). reflexivity.
Qed.

Lemma uniqueIds_filter (P : ClientData -> Prop) `{forall c, Decision (P c)}
    (clients : list ClientData) :
  uniqueIds clients -> uniqueIds (filter P clients).
Proof.
  unfold uniqueIds. intros Hu. eapply sublist_NoDup; [exact Hu|].
  apply fmap_sublist, sublist_filter.
Qed.

Lemma uniqueIds_eraseClient (clientId : Z) (clients : list ClientData) :
  uniqueIds clients -> uniqueIds (eraseClient clientId clients).
Proof. intros Hu. rewrite eraseClient_filter by exact Hu. apply uniqueIds_filter, Hu. Qed.

Lemma length_eraseClient (clientId : Z) (clients : list ClientData) :
  Z.of_nat (length (eraseClient clientId clients))
  = Z.of_nat (length clients)
    - (if existsb (fun c => ClientId c =? clientId) clients then 1 else 0).
Proof.
  induction clients as [|c clients IH]; simpl; [reflexivity|].
  destruct (ClientId c =? clientId); simpl; [lia|].
  cbn [length]. destruct (existsb _ clients); lia.
Qed.

(** With unique ids, disconnecting a list of clients leaves those whose id
    is not in the list, in their order. *)
Lemma disconnectAll_filter (ids : list Z) (s : ServerState) :
  uniqueIds (IgtlClients s) ->
  IgtlClients (disconnectAll ids s) = filter (fun c => ClientId c ∉ ids) (IgtlClients s).
Proof.
  revert s. induction ids as [|id ids IH]; intros s Hu.
  - simpl. symmetry. apply filter_all, Forall_forall. intros c _ H.
    apply elem_of_nil in H. contradiction.
  - cbn [disconnectAll fold_left]. fold (disconnectAll ids (DisconnectClient id s)).
    rewrite IH by (apply uniqueIds_eraseClient, Hu).
    unfold DisconnectClient. cbn [IgtlClients withClients].
    rewrite eraseClient_filter by exact Hu. rewrite list_filter_filter.
    apply filter_agree, Forall_forall. intros c _. rewrite not_elem_of_cons. tauto.
Qed.

Lemma filter_fmap {A B : Type} (f : A -> B) (P : B -> Prop) `{forall y, Decision (P y)}
    (l : list A) :
  filter P (f <$> l) = f <$> filter (fun x => P (f x)) l.
Proof.
  induction l as [|x l IH]; [reflexivity|].
  rewrite fmap_cons, !filter_cons, IH. destruct (decide (P (f x))); reflexivity.
Qed.

Lemma uniqueIds_inj (clients : list ClientData) (c c' : ClientData) :
  uniqueIds clients -> c ∈ clients -> c' ∈ clients -> ClientId c = ClientId c' -> c = c'.
Proof.
  unfold uniqueIds. intros Hu Hc Hc' Heq.
  apply list_elem_of_lookup in Hc as [i Hi]. apply list_elem_of_lookup in Hc' as [j Hj].
  assert (i = j) as ->.
  { eapply NoDup_lookup; [exact Hu| |]; rewrite list_lookup_fmap.
    - rewrite Hi. reflexivity.
    - rewrite Hj. simpl. congruence. }
  congruence.
Qed.

(** The clients left when those of a kind are disconnected by their
    ids. *)
Lemma disconnect_the_failed (failed : ClientData -> bool) (after : ClientData -> ClientData)
    (clients : list ClientData) (s : ServerState) :
  (forall c, ClientId (after c) = ClientId c) ->
  uniqueIds clients ->
  IgtlClients s = after <$> clients ->
  IgtlClients (disconnectAll (ClientId <$> filter (fun c => failed c = true) clients) s)
  = after <$> filter (fun c => failed c = false) clients.
Proof.
  intros Hid Hu Hs.
  assert (Hu' : uniqueIds (IgtlClients s)).
  { unfold uniqueIds. rewrite Hs, <- list_fmap_compose.
    erewrite list_fmap_ext; [exact Hu|]. intros i c _. apply Hid. }
  rewrite disconnectAll_filter by exact Hu'. rewrite Hs. clear Hs Hu'.
  assert (Hagree : Forall (fun c => ClientId (after c)
                                      ∉ ClientId <$> filter (fun c => failed c = true) clients
                                    <-> failed c = false) clients).
  { apply Forall_forall. intros c Hc. rewrite Hid. split.
    - intros Hnot. destruct (failed c) eqn:Hf; [|reflexivity]. exfalso. apply Hnot.
      apply list_elem_of_fmap. exists c. split; [reflexivity|].
      apply list_elem_of_filter. split; assumption.
    - intros Hf Hin. apply list_elem_of_fmap in Hin as (c' & Heq & Hin).
      apply list_elem_of_filter in Hin as [Hf' Hin].
      assert (c = c') by (eapply uniqueIds_inj; eassumption). subst c'. congruence. }
  rewrite filter_fmap. f_equal. apply filter_agree. exact Hagree.
Qed.

Lemma clientInfoOf_findClient (clientId : Z) (clients : list ClientData) :
  Forall (fun c => 0 <= ClientId c < 2 ^ 32) clients ->
  clientInfoOf clientId clients = ClientInfo <$> findClient clientId clients.
Proof.
  induction 1 as [|c clients Hc _ IH]; simpl; [reflexivity|].
  unfold asUnsigned. rewrite Z.mod_small by exact Hc.
  destruct (ClientId c =? clientId); [reflexivity|exact IH].
Qed.

Lemma wellFormed_range (sv : ServiceState) :
  wellFormed sv -> Forall (fun c => 0 <= ClientId c < 2 ^ 32) (IgtlClients (server sv)).
Proof.
  intros (_ & Hr & Hc). eapply Forall_impl; [exact Hr|]. intros c Hlt. simpl in Hlt. lia.
Qed.

Lemma findClient_elem (clients : list ClientData) (c : ClientData) :
  uniqueIds clients -> c ∈ clients -> findClient (ClientId c) clients = Some c.
Proof.
  intros Hu Hc. destruct (findClient (ClientId c) clients) as [c'|] eqn:Hf.
  - apply findClient_Some in Hf as [Hin Hid]. f_equal. eapply uniqueIds_inj; eassumption.
  - apply findClient_None in Hf. exfalso. apply Hf, list_elem_of_fmap.
    exists c. split; [reflexivity|exact Hc].
Qed.

Lemma connected_findClient (clientId : Z) (s : ServerState) :
  connected clientId s
  = match findClient clientId (IgtlClients s) with Some _ => true | None => false end.
Proof.
  unfold connected. induction (IgtlClients s) as [|c clients IH]; simpl; [reflexivity|].
  destruct (ClientId c =? clientId); [reflexivity|exact IH].
Qed.

Lemma disconnectAll_fields (ids : list Z) (s : ServerState) :
  Wire (disconnectAll ids s) = Wire s
  /\ TransformRepository (disconnectAll ids s) = TransformRepository s.
Proof.
  revert s. induction ids as [|id ids IH]; intros s; [split; reflexivity|].
  cbn [disconnectAll fold_left]. fold (disconnectAll ids (DisconnectClient id s)).
  destruct (IH (DisconnectClient id s)) as [-> ->]. split; reflexivity.
Qed.

Lemma disconnectAll_own_ids (clients : list ClientData) (s : ServerState) :
  IgtlClients s = clients -> IgtlClients (disconnectAll (ClientId <$> clients) s) = [].
Proof.
  revert s. induction clients as [|c clients IH]; intros s Hs; [exact Hs|].
  rewrite fmap_cons. cbn [disconnectAll fold_left].
  fold (disconnectAll (ClientId <$> clients) (DisconnectClient (ClientId c) s)).
  apply IH. unfold DisconnectClient. cbn [IgtlClients withClients]. rewrite Hs.
  cbn [eraseClient]. rewrite Z.eqb_refl. reflexivity.
Qed.

Lemma eraseClient_sublist (clientId : Z) (clients : list ClientData) :
  eraseClient clientId clients `sublist_of` clients.
Proof.
  induction clients as [|c clients IH]; simpl; [constructor|].
  destruct (negb _); [apply sublist_skip, IH|apply sublist_cons; reflexivity].
Qed.

Lemma disconnectAll_sublist (ids : list Z) (s : ServerState) :
  IgtlClients (disconnectAll ids s) `sublist_of` IgtlClients s.
Proof.
  revert s. induction ids as [|id ids IH]; intros s; [reflexivity|].
  cbn [disconnectAll fold_left]. fold (disconnectAll ids (DisconnectClient id s)).
  etransitivity; [apply IH|]. apply eraseClient_sublist.
Qed.

(** *** The response queue *)

Lemma queuedFor_cons (clientId : Z) (e : Z * list Message) (q : list (Z * list Message)) :
  queuedFor clientId (e :: q)
  = (if decide (e.1 = clientId) then e.2 else []) ++ queuedFor clientId q.
Proof.
  unfold queuedFor. rewrite filter_cons. destruct (decide (e.1 = clientId)); reflexivity.
Qed.

Lemma queuedFor_absent (clientId : Z) (q : list (Z * list Message)) :
  Forall (fun e => e.1 <> clientId) q -> queuedFor clientId q = [].
Proof.
  induction 1 as [|e q He _ IH]; [reflexivity|].
  rewrite queuedFor_cons, IH. destruct (decide (e.1 = clientId)); [contradiction|reflexivity].
Qed.

Lemma queuePush_other (clientId other : Z) (message : Message) (q : list (Z * list Message)) :
  other <> clientId -> queuedFor other (queuePush clientId message q) = queuedFor other q.
Proof.
  intros Hne. induction q as [|[k messages] q IH]; simpl.
  - rewrite queuedFor_cons. simpl. destruct (decide (clientId = other)); [congruence|reflexivity].
  - destruct (Z.ltb_spec clientId k) as [Hlt|Hge].
    + rewrite queuedFor_cons. simpl. destruct (decide (clientId = other)); [congruence|reflexivity].
    + destruct (Z.eqb_spec clientId k) as [Heq|Hk].
      * rewrite !queuedFor_cons. simpl. destruct (decide (k = other)); [congruence|reflexivity].
      * rewrite !queuedFor_cons, IH. reflexivity.
Qed.

Lemma queuePush_same (clientId : Z) (message : Message) (q : list (Z * list Message)) :
  keysAscend q ->
  queuedFor clientId (queuePush clientId message q) = queuedFor clientId q ++ [message].
Proof.
  induction q as [|[k messages] q IH]; intros Hq; simpl.
  - rewrite queuedFor_cons. simpl. destruct (decide (clientId = clientId)); [reflexivity|congruence].
  - destruct Hq as [Hk Hq]. destruct (Z.ltb_spec clientId k) as [Hlt|Hge].
    + rewrite queuedFor_cons. simpl.
      destruct (decide (clientId = clientId)); [|congruence].
      rewrite queuedFor_absent; [reflexivity|]. constructor; [simpl; lia|].
      eapply Forall_impl; [exact Hk|]. intros e' He. simpl in He. lia.
    + destruct (Z.eqb_spec clientId k) as [Heq|Hne].
      * subst k. rewrite !queuedFor_cons. simpl.
        destruct (decide (clientId = clientId)); [|congruence].
        rewrite queuedFor_absent; [rewrite !app_nil_r; reflexivity|].
        eapply Forall_impl; [exact Hk|]. intros e' He. simpl in He. lia.
      * rewrite !queuedFor_cons, IH by exact Hq. simpl.
        destruct (decide (k = clientId)); [congruence|reflexivity].
Qed.

Lemma queuePush_above (k clientId : Z) (message : Message) (q : list (Z * list Message)) :
  k < clientId -> Forall (fun e => k < e.1) q ->
  Forall (fun e => k < e.1) (queuePush clientId message q).
Proof.
  intros Hk. induction 1 as [|[k' messages] q He Hq IH]; simpl.
  - constructor; [exact Hk|constructor].
  - destruct (clientId <? k'); [constructor; [exact Hk|constructor; assumption]|].
    destruct (clientId =? k'); constructor; assumption.
Qed.

Lemma queuePush_keysAscend (clientId : Z) (message : Message) (q : list (Z * list Message)) :
  keysAscend q -> keysAscend (queuePush clientId message q).
Proof.
  induction q as [|[k messages] q IH]; intros Hq; simpl.
  - split; [constructor|exact I].
  - destruct Hq as [Hk Hq]. destruct (Z.ltb_spec clientId k) as [Hlt|Hge].
    + split; [|split; assumption]. constructor; [exact Hlt|].
      eapply Forall_impl; [exact Hk|]. intros e He. simpl in He. lia.
    + destruct (Z.eqb_spec clientId k) as [Heq|Hne].
      * split; assumption.
      * split; [apply queuePush_above; [lia|exact Hk]|apply IH, Hq].
Qed.

Lemma sendEach_records (clientId : Z) (messages : list Message) (sock : Socket) :
  Forall (fun r => sentTo r = clientId) (sendEach clientId messages sock).2
  /\ sentMessage <$> (sendEach clientId messages sock).2 = messages.
Proof.
  revert sock. induction messages as [|m messages IH]; intros sock; simpl.
  - split; [constructor|reflexivity].
  - destruct (Send sock) as [sock1 result]. specialize (IH sock1).
    destruct (sendEach clientId messages sock1) as [sock2 records]. simpl in *.
    destruct IH as [IH1 IH2]. split; [constructor; [reflexivity|exact IH1]|].
    f_equal. exact IH2.
Qed.

Lemma sameButSocket_refl (c : ClientData) : sameButSocket c c.
Proof. destruct c. reflexivity. Qed.

Lemma sameButSocket_trans (c c' c'' : ClientData) :
  sameButSocket c c' -> sameButSocket c' c'' -> sameButSocket c c''.
Proof. unfold sameButSocket. intros H1 H2. rewrite H2, H1. reflexivity. Qed.

Lemma sameButSocket_all_refl (clients : list ClientData) :
  Forall2 sameButSocket clients clients.
Proof. induction clients; constructor; [apply sameButSocket_refl|assumption]. Qed.

Lemma sameButSocket_all_trans (l l' l'' : list ClientData) :
  Forall2 sameButSocket l l' -> Forall2 sameButSocket l' l'' -> Forall2 sameButSocket l l''.
Proof.
  intros H. revert l''. induction H as [|c c' l l' Hc _ IH]; intros l'' H'.
  - inversion H'. constructor.
  - inversion H' as [|? c'' ? l0 Hc' Hl']; subst. constructor.
    + eapply sameButSocket_trans; eassumption.
    + apply IH. assumption.
Qed.

Lemma sameButSocket_ids (l l' : list ClientData) :
  Forall2 sameButSocket l l' -> ClientId <$> l' = ClientId <$> l.
Proof.
  induction 1 as [|c c' l l' Hc _ IH]; [reflexivity|].
  rewrite !fmap_cons, IH. f_equal. rewrite Hc. reflexivity.
Qed.

Lemma connected_ids (clientId : Z) (s s' : ServerState) :
  ClientId <$> IgtlClients s' = ClientId <$> IgtlClients s ->
  connected clientId s' = connected clientId s.
Proof.
  unfold connected. generalize (IgtlClients s) (IgtlClients s'). intros l l'. revert l.
  induction l' as [|c' l' IH]; intros [|c l] H; try discriminate; [reflexivity|].
  rewrite !fmap_cons in H. injection H as Hc Hl. simpl. rewrite Hc, (IH l Hl). reflexivity.
Qed.

Lemma setSocket_sameButSocket (clientId : Z) (sock : Socket) (clients : list ClientData) :
  Forall2 sameButSocket clients (setSocket clientId sock clients).
Proof.
  induction clients as [|c clients IH]; simpl; [constructor|].
  destruct (ClientId c =? clientId).
  - constructor; [reflexivity|apply sameButSocket_all_refl].
  - constructor; [apply sameButSocket_refl|exact IH].
Qed.

Lemma sendResponsesTo_step (s : ServerState) (e : Z * list Message) :
  Forall2 sameButSocket (IgtlClients s) (IgtlClients (sendResponsesTo s e))
  /\ exists records,
       Wire (sendResponsesTo s e) = Wire s ++ records
       /\ Forall (fun r => sentTo r = e.1) records
       /\ sentMessage <$> records = if connected e.1 s then e.2 else [].
Proof.
  unfold sendResponsesTo. rewrite connected_findClient.
  destruct (findClient e.1 (IgtlClients s)) as [c|].
  - pose proof (sendEach_records e.1 e.2 (ClientSocket c)) as [H1 H2].
    destruct (sendEach e.1 e.2 (ClientSocket c)) as [sock records]. simpl in *.
    split; [apply setSocket_sameButSocket|]. exists records. repeat split; assumption.
  - split; [apply sameButSocket_all_refl|]. exists []. rewrite app_nil_r.
    repeat split. constructor.
Qed.

Lemma recordsTo_app (clientId : Z) (l l' : list SendRecord) :
  recordsTo clientId (l ++ l') = recordsTo clientId l ++ recordsTo clientId l'.
Proof. apply filter_app. Qed.

Lemma recordsTo_all (clientId : Z) (l : list SendRecord) :
  Forall (fun r => sentTo r = clientId) l -> recordsTo clientId l = l.
Proof. apply filter_all. Qed.

Lemma recordsTo_none (clientId other : Z) (l : list SendRecord) :
  other <> clientId -> Forall (fun r => sentTo r = other) l -> recordsTo clientId l = [].
Proof.
  intros Hne. induction 1 as [|r l Hr _ IH]; [reflexivity|].
  unfold recordsTo in *. rewrite filter_cons, IH.
  destruct (decide (sentTo r = clientId)); [congruence|reflexivity].
Qed.

Lemma drain_fold (q : list (Z * list Message)) (s : ServerState) :
  Forall2 sameButSocket (IgtlClients s) (IgtlClients (fold_left sendResponsesTo q s))
  /\ exists records,
       Wire (fold_left sendResponsesTo q s) = Wire s ++ records
       /\ forall clientId,
            sentMessage <$> recordsTo clientId records
            = if connected clientId s then queuedFor clientId q else [].
Proof.
  revert s. induction q as [|e q IH]; intros s.
  - simpl. split; [apply sameButSocket_all_refl|]. exists []. rewrite app_nil_r.
    split; [reflexivity|]. intros clientId. destruct (connected clientId s); reflexivity.
  - cbn [fold_left].
    destruct (sendResponsesTo_step s e) as (Hsame & records & Hwire & Hto & Hmsgs).
    destruct (IH (sendResponsesTo s e)) as (Hsame' & records' & Hwire' & Hrest).
    split; [eapply sameButSocket_all_trans; eassumption|].
    exists (records ++ records'). split; [rewrite Hwire', Hwire, app_assoc; reflexivity|].
    intros clientId. rewrite recordsTo_app, fmap_app, Hrest.
    rewrite (connected_ids clientId s) by (apply sameButSocket_ids, Hsame).
    rewrite queuedFor_cons. destruct (decide (e.1 = clientId)) as [Heq|Hne].
    + rewrite recordsTo_all by (rewrite <- Heq; exact Hto). rewrite Hmsgs, Heq.
      destruct (connected clientId s); reflexivity.
    + rewrite (recordsTo_none clientId e.1) by assumption. reflexivity.
Qed.

End Registry.

(** X16. When the connection thread accepts a client in a well-formed
    registry whose counter is below the largest [int], the client is
    registered under the value of the counter, which no client had: asking
    for the client info of that id fails before and gives the default client
    info after, the client info of every other id is as before, there is one
    client more, the counter is one higher, and the registry is well formed
    again. *)
Theorem accepted_client_is_registered_under_a_fresh_id :
  forall (newClient : Server.ClientData) (newClientSocket : Server.Socket) (threadId : Z)
         (sv : Service.ServiceState),
    ServerSpec.wellFormed sv ->
    Service.ClientIdCounter sv < 2147483647 ->
    let sv' := Service.acceptClient newClient newClientSocket threadId sv in
    ServerSpec.wellFormed sv'
    /\ Service.GetClientInfo (Service.ClientIdCounter sv) (Service.server sv) = None
    /\ Service.GetClientInfo (Service.ClientIdCounter sv) (Service.server sv')
       = Some (Service.DefaultClientInfo sv)
    /\ (forall other : Z,
          other <> Service.ClientIdCounter sv ->
          Service.GetClientInfo other (Service.server sv')
          = Service.GetClientInfo other (Service.server sv))
    /\ length (Server.IgtlClients (Service.server sv'))
       = S (length (Server.IgtlClients (Service.server sv)))
    /\ Service.ClientIdCounter sv' = Service.ClientIdCounter sv + 1.
Proof.
  intros newClient sock threadId sv Hwf Hcounter sv'.
  assert (Hwf' : ServerSpec.wellFormed sv').
  { destruct Hwf as (Hu & Hr & Hc). unfold ServerSpec.wellFormed, sv', Service.acceptClient.
    cbn [Service.server Service.ClientIdCounter Server.IgtlClients Server.withClients].
    split; [|split; [|lia]].
    - unfold ServerSpec.uniqueIds. rewrite fmap_app. apply NoDup_app. split; [exact Hu|].
      split; [|apply NoDup_singleton]. intros id Hin Hin'.
      apply list_elem_of_fmap in Hin as (c & -> & Hin).
      rewrite Forall_forall in Hr. specialize (Hr c Hin).
      simpl in Hin'. apply list_elem_of_singleton in Hin'. lia.
    - apply Forall_app. split.
      + eapply Forall_impl; [exact Hr|]. intros c Hlt. simpl in Hlt. lia.
      + constructor; [simpl; lia|constructor]. }
  assert (Hfresh : Service.findClient (Service.ClientIdCounter sv)
                     (Server.IgtlClients (Service.server sv)) = None).
  { apply findClient_None. intros Hin. apply list_elem_of_fmap in Hin as (c & Heq & Hin).
    destruct Hwf as (_ & Hr & _). rewrite Forall_forall in Hr. specialize (Hr c Hin). lia. }
  split; [exact Hwf'|]. unfold Service.GetClientInfo.
  rewrite !(clientInfoOf_findClient _ _ (wellFormed_range sv Hwf)).
  rewrite (clientInfoOf_findClient _ _ (wellFormed_range sv' Hwf')).
  split; [rewrite Hfresh; reflexivity|].
  split; [|split].
  - unfold sv', Service.acceptClient.
    cbn [Service.server Server.IgtlClients Server.withClients].
    rewrite findClient_app, Hfresh. cbn [Server.ClientId]. rewrite Z.eqb_refl. reflexivity.
  - intros other Hother.
    rewrite (clientInfoOf_findClient _ _ (wellFormed_range sv' Hwf')).
    rewrite (clientInfoOf_findClient _ _ (wellFormed_range sv Hwf)).
    unfold sv', Service.acceptClient.
    cbn [Service.server Server.IgtlClients Server.withClients].
    rewrite findClient_app.
    destruct (Service.findClient other _); [reflexivity|].
    cbn [Server.ClientId]. destruct (Z.eqb_spec (Service.ClientIdCounter sv) other); [|reflexivity].
    congruence.
  - split; [|reflexivity]. unfold sv', Service.acceptClient.
    cbn [Service.server Server.IgtlClients Server.withClients].
    rewrite length_app. simpl. lia.
Qed.

Lemma service_wellFormed : ServerSpec.wellFormed ServiceScenarios.service.
Proof.
  split; [|split].
  - unfold ServerSpec.uniqueIds. simpl. apply NoDup_cons. split.
    + intros H. apply list_elem_of_singleton in H. discriminate.
    + apply NoDup_singleton.
  - simpl. repeat constructor.
  - simpl. lia.
Qed.

Lemma accepted_client_is_registered_under_a_fresh_id_witness :
  let sv' := Service.acceptClient (ServerScenarios.subscriber 0 []) [1; 1] 7
               ServiceScenarios.service in
  Service.GetClientInfo 3 (Service.server ServiceScenarios.service) = None
  /\ Service.GetClientInfo 3 (Service.server sv')
     = Some (Service.DefaultClientInfo ServiceScenarios.service).
Proof.
  pose proof (accepted_client_is_registered_under_a_fresh_id
                (ServerScenarios.subscriber 0 []) [1; 1] 7 ServiceScenarios.service
                service_wellFormed ltac:(simpl; lia)) as (_ & Hbefore & Hafter & _).
  split; [exact Hbefore|exact Hafter].
Defined.

(** X17. Disconnecting a client of a well-formed registry removes that
    client and no other: asking for the client info of its id fails
    afterwards, the client info of every other id is as before, the number of
    clients goes down by one if the id was connected and stays if it was not,
    and the registry stays well formed. *)
Theorem disconnected_client_is_no_longer_found :
  forall (clientId : Z) (sv : Service.ServiceState),
    ServerSpec.wellFormed sv ->
    let s' := Server.DisconnectClient clientId (Service.server sv) in
    ServerSpec.wellFormed (Service.withServer s' sv)
    /\ Service.GetClientInfo clientId s' = None
    /\ (forall other : Z,
          other <> clientId ->
          Service.GetClientInfo other s' = Service.GetClientInfo other (Service.server sv))
    /\ Z.of_nat (length (Server.IgtlClients s'))
       = Z.of_nat (length (Server.IgtlClients (Service.server sv)))
         - (if ServerSpec.connected clientId (Service.server sv) then 1 else 0).
Proof.
  intros clientId sv Hwf s'.
  assert (Hclients : Server.IgtlClients s'
                     = filter (fun c => Server.ClientId c <> clientId)
                              (Server.IgtlClients (Service.server sv))).
  { destruct Hwf as (Hu & _). apply eraseClient_filter, Hu. }
  assert (Hwf' : ServerSpec.wellFormed (Service.withServer s' sv)).
  { destruct Hwf as (Hu & Hr & Hc). unfold ServerSpec.wellFormed.
    cbn [Service.server Service.withServer Service.ClientIdCounter].
    split; [|split; [|exact Hc]].
    - apply uniqueIds_eraseClient, Hu.
    - rewrite Hclients. apply Forall_forall. intros c Hin.
      apply list_elem_of_filter in Hin as [_ Hin]. rewrite Forall_forall in Hr. apply Hr, Hin. }
  split; [exact Hwf'|]. unfold Service.GetClientInfo.
  pose proof (wellFormed_range _ Hwf') as Hrange'.
  cbn [Service.server Service.withServer] in Hrange'.
  split; [|split].
  - rewrite (clientInfoOf_findClient _ _ Hrange').
    assert (Hnone : Service.findClient clientId (Server.IgtlClients s') = None).
    { apply findClient_None. rewrite Hclients. intros Hin.
      apply list_elem_of_fmap in Hin as (c & Heq & Hin).
      apply list_elem_of_filter in Hin as [Hne _]. congruence. }
    rewrite Hnone. reflexivity.
  - intros other Hother.
    rewrite (clientInfoOf_findClient _ _ Hrange').
    rewrite (clientInfoOf_findClient _ _ (wellFormed_range sv Hwf)).
    unfold s', Server.DisconnectClient. cbn [Server.IgtlClients Server.withClients].
    rewrite eraseClient_other by exact Hother. reflexivity.
  - apply length_eraseClient.
Qed.

Lemma disconnected_client_is_no_longer_found_witness :
  Service.GetClientInfo 2 (Service.server ServiceScenarios.service) <> None
  /\ Service.GetClientInfo 2
       (Server.DisconnectClient 2 (Service.server ServiceScenarios.service)) = None.
Proof.
  split; [discriminate|].
  exact (proj1 (proj2 (disconnected_client_is_no_longer_found 2 ServiceScenarios.service
                         service_wellFormed))).
Defined.

(** X18. A response is queued only for a connected client: for an id that
    is not connected the call fails and changes nothing; for a connected one
    it succeeds, the message becomes the last of those queued for that
    client, what is queued for every other client stays, the clients are not
    touched and the queue keeps the order of its ids. *)
Theorem QueueMessageResponseForClient_appends_for_a_connected_client :
  forall (clientId : Z) (message : Server.Message) (sv : Service.ServiceState),
    ServerSpec.keysAscend (Service.MessageResponseQueue sv) ->
    let result := Service.QueueMessageResponseForClient clientId message sv in
    (ServerSpec.connected clientId (Service.server sv) = false -> result = (sv, PLUS_FAIL))
    /\ (ServerSpec.connected clientId (Service.server sv) = true ->
        result.2 = PLUS_SUCCESS
        /\ Service.server result.1 = Service.server sv
        /\ ServerSpec.queuedFor clientId (Service.MessageResponseQueue result.1)
           = ServerSpec.queuedFor clientId (Service.MessageResponseQueue sv) ++ [message]
        /\ (forall other : Z,
              other <> clientId ->
              ServerSpec.queuedFor other (Service.MessageResponseQueue result.1)
              = ServerSpec.queuedFor other (Service.MessageResponseQueue sv))
        /\ ServerSpec.keysAscend (Service.MessageResponseQueue result.1)).
Proof.
  intros clientId message sv Hq result. unfold result, Service.QueueMessageResponseForClient.
  unfold ServerSpec.connected.
  destruct (existsb _ _); simpl; split; try discriminate; intros _.
  - split; [reflexivity|]. split; [reflexivity|].
    split; [apply queuePush_same, Hq|].
    split; [intros other Hother; apply queuePush_other, Hother|].
    apply queuePush_keysAscend, Hq.
  - reflexivity.
Qed.

Lemma QueueMessageResponseForClient_appends_for_a_connected_client_witness :
  let result := Service.QueueMessageResponseForClient 2 (Server.RTSPolyDataMessage true)
                  ServiceScenarios.service in
  ServerSpec.queuedFor 2 (Service.MessageResponseQueue result.1)
  = [Server.RTSTrackingDataMessage 0; Server.RTSPolyDataMessage true]
  /\ Service.QueueMessageResponseForClient 5 (Server.RTSPolyDataMessage true)
       ServiceScenarios.service
     = (ServiceScenarios.service, PLUS_FAIL).
Proof.
  assert (Hq : ServerSpec.keysAscend (Service.MessageResponseQueue ServiceScenarios.service)).
  { simpl. repeat split; repeat constructor. }
  pose proof (QueueMessageResponseForClient_appends_for_a_connected_client 2
                (Server.RTSPolyDataMessage true) ServiceScenarios.service Hq) as [_ Hyes].
  pose proof (QueueMessageResponseForClient_appends_for_a_connected_client 5
                (Server.RTSPolyDataMessage true) ServiceScenarios.service Hq) as [Hno _].
  split.
  - destruct (Hyes eq_refl) as (_ & _ & Hsame & _). exact Hsame.
  - exact (Hno eq_refl).
Defined.

(** X19. [SendMessageResponses] empties the queue and hands every
    connected client the messages queued for it, each once and in the order
    they were queued; what is queued for an id that is not connected is
    dropped. No send is looked at: whatever the sockets return, no client is
    disconnected, and the clients change in their sockets only. *)
Theorem SendMessageResponses_hands_each_connected_client_its_messages :
  forall sv : Service.ServiceState,
    let sv' := Service.SendMessageResponses sv in
    Service.MessageResponseQueue sv' = []
    /\ Forall2 ServerSpec.sameButSocket (Server.IgtlClients (Service.server sv))
                                        (Server.IgtlClients (Service.server sv'))
    /\ exists records : list Server.SendRecord,
         Server.Wire (Service.server sv') = Server.Wire (Service.server sv) ++ records
         /\ forall clientId : Z,
              Server.sentMessage <$> ServerSpec.recordsTo clientId records
              = if ServerSpec.connected clientId (Service.server sv)
                then ServerSpec.queuedFor clientId (Service.MessageResponseQueue sv)
                else [].
Proof.
  intros sv sv'. split; [reflexivity|].
  exact (drain_fold (Service.MessageResponseQueue sv) (Service.server sv)).
Qed.

(** X20. Stopping the service disconnects every client, whatever their
    ids, and sends nothing. *)
Theorem StopOpenIGTLinkService_leaves_no_client :
  forall s : Server.ServerState,
    Server.IgtlClients (Service.StopOpenIGTLinkService s) = []
    /\ Server.Wire (Service.StopOpenIGTLinkService s) = Server.Wire s.
Proof.
  intros s. unfold Service.StopOpenIGTLinkService. split.
  - apply disconnectAll_own_ids. reflexivity.
  - apply disconnectAll_fields.
Qed.

(** ** Who stays connected after a keep-alive and after a frame *)

Section Broadcast.
Import Server Service ServerSpec.

Variable SetTransforms : Repository -> Frame -> Repository * PlusStatus.
Variable PackMessages :
  ClientInfoT -> Frame -> bool -> option Repository -> PlusStatus * list (option Message).
Variable GetUniversalTimeFromSystemTime : float -> float.

(** A retry loop that makes no try returns 0, the initial [retValue]. *)
Lemma retryUntilSent_sent (attempts : nat) (sock : Socket) :
  (retryUntilSent attempts sock 0).2 <> 0 -> (0 < attempts)%nat.
Proof. destruct attempts; [simpl; congruence|lia]. Qed.

Lemma concat_singletons {A B : Type} (f : A -> B) (l : list A) :
  concat ((fun x => [f x]) <$> l) = f <$> l.
Proof. induction l as [|x l IH]; [reflexivity|]. rewrite !fmap_cons. simpl. f_equal. exact IH. Qed.

Lemma concat_nils {A B : Type} (l : list A) :
  concat ((fun _ => @nil B) <$> l) = [].
Proof. induction l as [|x l IH]; [reflexivity|]. rewrite fmap_cons. simpl. exact IH. Qed.

Lemma keepAliveClients_shape (attempts : nat) (clients : list ClientData) :
  keepAliveClients attempts clients
  = (afterKeepAlive attempts <$> clients,
     concat ((fun c => handed attempts
                         (mkSendRecord (ClientId c) (StatusMessage STATUS_OK)
                                       (keepAliveResult attempts c)))
               <$> clients),
     ClientId <$> filter (fun c => (keepAliveResult attempts c =? 0) = true) clients).
Proof.
  induction clients as [|c clients IH]; [reflexivity|].
  cbn [keepAliveClients]. rewrite IH. unfold afterKeepAlive, keepAliveResult.
  rewrite !fmap_cons, filter_cons.
  destruct (retryUntilSent attempts (ClientSocket c) 0) as [sock retValue].
  cbn [fst snd concat].
  destruct (retValue =? 0).
  - destruct (decide (true = true)); [reflexivity|congruence].
  - destruct (decide (false = true)); [discriminate|reflexivity].
Qed.

Lemma withLast_again (ts : float) (info : ClientInfoT) :
  withLastTDATASentTimeStamp ts (withLastTDATASentTimeStamp ts info)
  = withLastTDATASentTimeStamp ts info.
Proof. reflexivity. Qed.

(** What the sends to one client leave behind. *)
Lemma sendMessages_outcome (attempts : nat) (clientId : Z) (frame : Frame)
    (igtlMessages : list (option Message)) (sock : Socket) (info : ClientInfoT) :
  let result := sendMessages attempts clientId frame igtlMessages sock info in
  Forall (fun r => sentTo r = clientId) result.1.2
  /\ quietAfterFailure result.1.2
  /\ ((0 < attempts)%nat -> result.2 = existsb (fun r => sentResult r =? 0) result.1.2)
  /\ result.1.1.2
     = if existsb (fun r => negb (sentResult r =? 0)) result.1.2
       then withLastTDATASentTimeStamp (GetTimestamp frame) info else info.
Proof.
  revert sock info.
  induction igtlMessages as [|[m|] ms IH]; intros sock info; cbn [sendMessages].
  - cbn. split; [constructor|]. split; [|split; reflexivity].
    intros i r Hi. destruct i; discriminate.
  - destruct (retryUntilSent attempts sock 0) as [sock1 retValue] eqn:Hretry.
    destruct (retValue =? 0) eqn:Hret.
    + destruct attempts as [|attempts']; cbn.
      * split; [constructor|]. split; [intros i r Hi; destruct i; discriminate|].
        split; [lia|reflexivity].
      * rewrite Hret. cbn. split; [constructor; [reflexivity|constructor]|].
        split; [|split; reflexivity].
        intros i r Hi _. destruct i as [|i]; [reflexivity|destruct i; discriminate].
    + assert (Hpos : (0 < attempts)%nat).
      { apply (retryUntilSent_sent attempts sock). rewrite Hretry. cbn.
        apply Z.eqb_neq, Hret. }
      specialize (IH sock1 (withLastTDATASentTimeStamp (GetTimestamp frame) info)).
      destruct (sendMessages attempts clientId frame ms sock1 _) as [[[sock2 info2] records] d].
      cbv zeta in IH |- *. cbn [fst snd] in IH |- *.
      destruct IH as (Hto & Hquiet & Hd & Hinfo).
      destruct attempts as [|attempts']; [lia|]. cbn [handed app].
      cbn [existsb sentResult]. rewrite Hret. cbn [negb orb].
      split; [constructor; [reflexivity|exact Hto]|].
      split; [|split; [exact Hd|]].
      * intros i r Hi Hr. destruct i as [|i].
        -- injection Hi as <-. cbn in Hr. apply Z.eqb_neq in Hret. contradiction.
        -- cbn [length]. f_equal. apply (Hquiet i r Hi Hr).
      * rewrite Hinfo.
        destruct (existsb (fun r => negb (sentResult r =? 0)) records); reflexivity.
  - apply IH.
Qed.

Lemma sendFrameToClients_shape (attempts : nat) (validOnly : bool)
    (repo : option Repository) (frame : Frame) (clients : list ClientData) :
  sendFrameToClients PackMessages attempts validOnly repo frame clients
  = (afterFrame PackMessages attempts validOnly repo frame <$> clients,
     concat ((fun c => (served PackMessages attempts validOnly repo frame c).1.2) <$> clients),
     ClientId <$> filter (fun c => (served PackMessages attempts validOnly repo frame c).2 = true)
                         clients).
Proof.
  induction clients as [|c clients IH]; [reflexivity|].
  cbn [sendFrameToClients]. rewrite IH. unfold afterFrame, served.
  rewrite !fmap_cons, filter_cons.
  destruct (PackMessages (ClientInfo c) frame validOnly repo) as [status igtlMessages].
  cbn [snd].
  destruct (sendMessages attempts (ClientId c) frame igtlMessages (ClientSocket c)
              (ClientInfo c)) as [[[sock info] records] disconnected].
  cbn [fst snd concat]. destruct disconnected.
  - destruct (decide (true = true)); [reflexivity|congruence].
  - destruct (decide (false = true)); [discriminate|reflexivity].
Qed.

Lemma existsb_recordsTo (p : SendRecord -> bool) (clientId : Z) (records : list SendRecord) :
  existsb (fun r => (sentTo r =? clientId) && p r) records
  = existsb p (recordsTo clientId records).
Proof.
  unfold recordsTo. induction records as [|r records IH]; [reflexivity|].
  rewrite filter_cons. cbn [existsb]. rewrite IH.
  destruct (decide (sentTo r = clientId)) as [Heq|Hne].
  - apply Z.eqb_eq in Heq. rewrite Heq. reflexivity.
  - apply Z.eqb_neq in Hne. rewrite Hne. reflexivity.
Qed.

(** With unique ids, the records of the sends to a client among those of
    all the clients are the records of that client. *)
Lemma recordsTo_concat (recs : ClientData -> list SendRecord) (clients : list ClientData)
    (clientId : Z) :
  (forall c, Forall (fun r => sentTo r = ClientId c) (recs c)) ->
  uniqueIds clients ->
  recordsTo clientId (concat (recs <$> clients))
  = match findClient clientId clients with Some c => recs c | None => [] end.
Proof.
  intros Hrecs. induction clients as [|c clients IH]; intros Hu; [reflexivity|].
  unfold uniqueIds in Hu. rewrite fmap_cons in Hu. apply NoDup_cons in Hu as [Hc Hu].
  rewrite fmap_cons. cbn [concat findClient]. rewrite recordsTo_app, (IH Hu).
  destruct (Z.eqb_spec (ClientId c) clientId) as [Heq|Hne].
  - rewrite recordsTo_all by (rewrite <- Heq; apply Hrecs).
    assert (Hnone : findClient clientId clients = None)
      by (apply findClient_None; rewrite <- Heq; exact Hc).
    rewrite Hnone, app_nil_r. reflexivity.
  - rewrite (recordsTo_none clientId (ClientId c)) by (assumption || apply Hrecs). reflexivity.
Qed.

Lemma served_records (attempts : nat) (validOnly : bool) (repo : option Repository)
    (frame : Frame) (c : ClientData) :
  Forall (fun r => sentTo r = ClientId c)
         (served PackMessages attempts validOnly repo frame c).1.2.
Proof. apply sendMessages_outcome. Qed.

(** [SendTrackedFrame] as its two loops: the loop over the clients, which
    leaves the server [s2], then the loop that disconnects. *)
Lemma SendTrackedFrame_steps (frame : Frame) (s : ServerState) :
  let utcFrame := SetTimestamp (GetUniversalTimeFromSystemTime (GetTimestamp frame)) frame in
  let attempts := Z.to_nat (NumberOfRetryAttempts s) in
  let validOnly := SendValidTransformsOnly s in
  exists s2 : ServerState,
    let repo := TransformRepository s2 in
    (SendTrackedFrame SetTransforms PackMessages GetUniversalTimeFromSystemTime frame s).1.1
    = disconnectAll
        (ClientId <$> filter (fun c => (served PackMessages attempts validOnly repo utcFrame c).2
                                       = true) (IgtlClients s)) s2
    /\ IgtlClients s2 = afterFrame PackMessages attempts validOnly repo utcFrame <$> IgtlClients s
    /\ Wire s2
       = Wire s ++ concat ((fun c => (served PackMessages attempts validOnly repo utcFrame c).1.2)
                             <$> IgtlClients s).
Proof.
  unfold SendTrackedFrame.
  set (s1 := match TransformRepository s with
             | Some repo0 =>
                 let '(repo', set) := SetTransforms repo0 frame in
                 (withRepository (Some repo') s,
                  match set with PLUS_SUCCESS => 0 | PLUS_FAIL => 0 + 1 end)
             | None => (s, 0)
             end).
  assert (Hs1 : IgtlClients s1.1 = IgtlClients s /\ Wire s1.1 = Wire s
                /\ NumberOfRetryAttempts s1.1 = NumberOfRetryAttempts s
                /\ SendValidTransformsOnly s1.1 = SendValidTransformsOnly s).
  { unfold s1. destruct (TransformRepository s) as [repo0|]; [|repeat split].
    destruct (SetTransforms repo0 frame) as [repo' set]. repeat split. }
  destruct s1 as [s1' errors]. cbn [fst] in Hs1. destruct Hs1 as (Hc1 & Hw1 & Hn1 & Hv1).
  cbv zeta. rewrite sendFrameToClients_shape. cbn [fst snd].
  rewrite Hc1, Hw1, Hn1, Hv1.
  match goal with
  | |- exists s2, disconnectAll _ ?after = _ /\ _ => exists after
  end.
  split; [reflexivity|]. split; reflexivity.
Qed.

(** The server after [SendTrackedFrame], in terms of what is done for each
    client. *)
Lemma SendTrackedFrame_shape (frame : Frame) (s : ServerState) :
  uniqueIds (IgtlClients s) ->
  let s' := (SendTrackedFrame SetTransforms PackMessages GetUniversalTimeFromSystemTime
               frame s).1.1 in
  let utcFrame := SetTimestamp (GetUniversalTimeFromSystemTime (GetTimestamp frame)) frame in
  let attempts := Z.to_nat (NumberOfRetryAttempts s) in
  let validOnly := SendValidTransformsOnly s in
  let repo := TransformRepository s' in
  IgtlClients s'
  = afterFrame PackMessages attempts validOnly repo utcFrame
      <$> filter (fun c => (served PackMessages attempts validOnly repo utcFrame c).2 = false)
                 (IgtlClients s)
  /\ Wire s'
     = Wire s ++ concat ((fun c => (served PackMessages attempts validOnly repo utcFrame c).1.2)
                           <$> IgtlClients s).
Proof.
  intros Hu. destruct (SendTrackedFrame_steps frame s) as (s2 & Hs' & Hclients & Hwire).
  cbv zeta in *. rewrite Hs'.
  match goal with
  | |- context [disconnectAll ?ids s2] => destruct (disconnectAll_fields ids s2) as [Hw Hr]
  end.
  rewrite Hr, Hw. split; [|exact Hwire].
  apply (disconnect_the_failed
           (fun c => (served PackMessages (Z.to_nat (NumberOfRetryAttempts s))
                        (SendValidTransformsOnly s) (TransformRepository s2)
                        (SetTimestamp (GetUniversalTimeFromSystemTime (GetTimestamp frame))
                                      frame) c).2)); [|exact Hu|exact Hclients].
  intros c. reflexivity.
Qed.

(** Who had a failed send, who had a delivered one, and the records of a
    client, read off the records of a frame. *)
Lemma failedIn_served (attempts : nat) (validOnly : bool) (repo : option Repository)
    (frame : Frame) (clients : list ClientData) (c : ClientData) :
  (0 < attempts)%nat -> uniqueIds clients -> c ∈ clients ->
  failedIn (concat ((fun c => (served PackMessages attempts validOnly repo frame c).1.2)
                      <$> clients)) (ClientId c)
  = (served PackMessages attempts validOnly repo frame c).2.
Proof.
  intros Hpos Hu Hc. unfold failedIn. rewrite existsb_recordsTo.
  rewrite (recordsTo_concat
             (fun c => (served PackMessages attempts validOnly repo frame c).1.2))
    by (exact Hu || intros c'; apply served_records).
  rewrite findClient_elem by assumption. symmetry. apply sendMessages_outcome, Hpos.
Qed.

Lemma deliveredIn_served (attempts : nat) (validOnly : bool) (repo : option Repository)
    (frame : Frame) (clients : list ClientData) (c : ClientData) :
  uniqueIds clients -> c ∈ clients ->
  deliveredIn (concat ((fun c => (served PackMessages attempts validOnly repo frame c).1.2)
                         <$> clients)) (ClientId c)
  = existsb (fun r => negb (sentResult r =? 0))
            (served PackMessages attempts validOnly repo frame c).1.2.
Proof.
  intros Hu Hc. unfold deliveredIn. rewrite existsb_recordsTo.
  rewrite (recordsTo_concat
             (fun c => (served PackMessages attempts validOnly repo frame c).1.2))
    by (exact Hu || intros c'; apply served_records).
  rewrite findClient_elem by assumption. reflexivity.
Qed.

(** No client is added and no record is taken back. *)
Lemma KeepAlive_monotone (s : ServerState) :
  ClientId <$> IgtlClients (KeepAlive s) `sublist_of` ClientId <$> IgtlClients s
  /\ continues (Wire s) (Wire (KeepAlive s)).
Proof.
  unfold KeepAlive. rewrite keepAliveClients_shape. split.
  - etransitivity; [apply fmap_sublist, disconnectAll_sublist|].
    cbn [IgtlClients withWire withClients]. rewrite <- list_fmap_compose. reflexivity.
  - eexists. rewrite (proj1 (disconnectAll_fields _ _)). reflexivity.
Qed.

Lemma SendTrackedFrame_monotone (frame : Frame) (s : ServerState) :
  let s' := (SendTrackedFrame SetTransforms PackMessages GetUniversalTimeFromSystemTime
               frame s).1.1 in
  ClientId <$> IgtlClients s' `sublist_of` ClientId <$> IgtlClients s
  /\ continues (Wire s) (Wire s').
Proof.
  destruct (SendTrackedFrame_steps frame s) as (s2 & Hs' & Hclients & Hwire).
  cbv zeta in *. rewrite Hs'. split.
  - etransitivity; [apply fmap_sublist, disconnectAll_sublist|].
    rewrite Hclients, <- list_fmap_compose. reflexivity.
  - eexists. rewrite (proj1 (disconnectAll_fields _ _)). exact Hwire.
Qed.

Lemma continues_trans {A : Type} (l l' l'' : list A) :
  continues l l' -> continues l' l'' -> continues l l''.
Proof. intros [a ->] [b ->]. exists (a ++ b). rewrite app_assoc. reflexivity. Qed.

Lemma sendFrames_monotone (frames : list Frame) (s : ServerState) :
  let s' := sendFrames SetTransforms PackMessages GetUniversalTimeFromSystemTime frames s in
  ClientId <$> IgtlClients s' `sublist_of` ClientId <$> IgtlClients s
  /\ continues (Wire s) (Wire s').
Proof.
  revert s. induction frames as [|frame frames IH]; intros s.
  - split; [reflexivity|]. exists []. symmetry. apply app_nil_r.
  - cbv zeta. unfold sendFrames. cbn [fold_left].
    destruct (SendTrackedFrame_monotone frame s) as [H1 H2].
    destruct (IH (SendTrackedFrame SetTransforms PackMessages GetUniversalTimeFromSystemTime
                    frame s).1.1) as [H3 H4].
    split; [etransitivity; [exact H3|exact H1]|eapply continues_trans; [exact H2|exact H4]].
Qed.

End Broadcast.

(** X21. With unique ids, [KeepAlive] disconnects exactly the clients it
    cannot reach.  When it makes a try ([NumberOfRetryAttempts] is positive),
    every client is handed one STATUS OK message, in the order of the
    registry, and the clients that remain are those whose send returned
    non-zero, in their order.  When it makes no try, nothing is handed to any
    socket and no client remains.  The clients that remain are changed in
    their sockets only. *)
Theorem KeepAlive_disconnects_exactly_the_clients_it_cannot_reach :
  forall s : Server.ServerState,
    ServerSpec.uniqueIds (Server.IgtlClients s) ->
    exists records : list Server.SendRecord,
      Server.Wire (Server.KeepAlive s) = Server.Wire s ++ records
      /\ Forall (fun r => Server.sentMessage r = Server.StatusMessage Server.STATUS_OK) records
      /\ (0 < Server.NumberOfRetryAttempts s ->
          Server.sentTo <$> records = Server.ClientId <$> Server.IgtlClients s
          /\ Server.ClientId <$> Server.IgtlClients (Server.KeepAlive s)
             = Server.sentTo <$> filter (fun r => Server.sentResult r <> 0) records)
      /\ (Server.NumberOfRetryAttempts s <= 0 ->
          records = [] /\ Server.IgtlClients (Server.KeepAlive s) = [])
      /\ Forall (fun c' => exists c, c ∈ Server.IgtlClients s /\ ServerSpec.sameButSocket c c')
                (Server.IgtlClients (Server.KeepAlive s)).
Proof.
  intros s Hu. unfold Server.KeepAlive. rewrite keepAliveClients_shape.
  set (attempts := Z.to_nat (Server.NumberOfRetryAttempts s)).
  pose (record := fun c => Server.mkSendRecord (Server.ClientId c)
                             (Server.StatusMessage Server.STATUS_OK)
                             (ServerSpec.keepAliveResult attempts c)).
  set (records := concat ((fun c => Server.handed attempts
                                      (Server.mkSendRecord (Server.ClientId c)
                                         (Server.StatusMessage Server.STATUS_OK)
                                         (ServerSpec.keepAliveResult attempts c)))
                            <$> Server.IgtlClients s)).
  exists records.
  assert (Hclients :
    Server.IgtlClients
      (Server.disconnectAll
         (Server.ClientId <$> filter (fun c => (ServerSpec.keepAliveResult attempts c =? 0) = true)
                                     (Server.IgtlClients s))
         (Server.withWire (Server.Wire s ++ records)
            (Server.withClients (ServerSpec.afterKeepAlive attempts <$> Server.IgtlClients s) s)))
    = ServerSpec.afterKeepAlive attempts
        <$> filter (fun c => (ServerSpec.keepAliveResult attempts c =? 0) = false)
                   (Server.IgtlClients s)).
  { apply (disconnect_the_failed (fun c => ServerSpec.keepAliveResult attempts c =? 0));
      [intros c; reflexivity|exact Hu|reflexivity]. }
  split; [apply disconnectAll_fields|].
  split.
  { unfold records. apply Forall_concat, Forall_fmap, Forall_forall. intros c _.
    destruct attempts; repeat constructor. }
  rewrite Hclients. split; [|split].
  - intros Hpos.
    assert (Hrecords : records = record <$> Server.IgtlClients s).
    { unfold records, record. destruct attempts as [|attempts'] eqn:Hattempts; [lia|].
      cbn [Server.handed]. apply concat_singletons. }
    rewrite Hrecords. split; [rewrite <- list_fmap_compose; reflexivity|].
    rewrite filter_fmap, <- !list_fmap_compose.
    rewrite (filter_agree (fun c => (ServerSpec.keepAliveResult attempts c =? 0) = false)
                          (fun c => Server.sentResult (record c) <> 0));
      [reflexivity|].
    apply Forall_forall. intros c _. unfold record. cbn [Server.sentResult].
    rewrite Z.eqb_neq. reflexivity.
  - intros Hnone.
    assert (Hattempts : attempts = 0%nat) by (unfold attempts; lia).
    split.
    + unfold records. rewrite Hattempts. cbn [Server.handed]. apply concat_nils.
    + rewrite Hattempts. rewrite filter_none; [reflexivity|].
      apply Forall_forall. intros c _. unfold ServerSpec.keepAliveResult. simpl. discriminate.
  - apply Forall_forall. intros c' Hc'. apply list_elem_of_fmap in Hc' as (c & -> & Hc).
    apply list_elem_of_filter in Hc as [_ Hc]. exists c. split; [exact Hc|reflexivity].
Qed.

(** Of the two clients of the scenario server, which makes three tries,
    the second, whose socket takes nothing, is disconnected by the
    keep-alive. *)
Lemma KeepAlive_disconnects_exactly_the_clients_it_cannot_reach_witness :
  Server.ClientId <$> Server.IgtlClients (Server.KeepAlive (ServerScenarios.server None)) = [1]
  /\ exists records : list Server.SendRecord,
       Server.Wire (Server.KeepAlive (ServerScenarios.server None))
       = Server.Wire (ServerScenarios.server None) ++ records
       /\ Server.sentTo <$> records
          = Server.ClientId <$> Server.IgtlClients (ServerScenarios.server None)
       /\ Server.ClientId <$> Server.IgtlClients (Server.KeepAlive (ServerScenarios.server None))
          = Server.sentTo <$> filter (fun r => Server.sentResult r <> 0) records.
Proof.
  split; [reflexivity|].
  destruct (KeepAlive_disconnects_exactly_the_clients_it_cannot_reach
              (ServerScenarios.server None) (proj1 service_wellFormed))
    as (records & Hwire & _ & Hsent & _).
  destruct (Hsent ltac:(simpl; lia)) as [Hto Hids].
  exists records. split; [exact Hwire|]. split; [exact Hto|exact Hids].
Defined.

(** X22. With unique ids and a server that makes at least one attempt at
    a send ([NumberOfRetryAttempts] is positive), [SendTrackedFrame]
    disconnects exactly the clients a send failed for: the clients that
    remain are, in their order, those to which no send of this call
    returned 0. *)
Theorem SendTrackedFrame_disconnects_exactly_the_clients_a_send_failed_for :
  forall (SetTransforms : Server.Repository -> Server.Frame -> Server.Repository * PlusStatus)
         (PackMessages : Server.ClientInfoT -> Server.Frame -> bool ->
                         option Server.Repository -> PlusStatus * list (option Server.Message))
         (GetUniversalTimeFromSystemTime : float -> float)
         (trackedFrame : Server.Frame) (s : Server.ServerState),
    ServerSpec.uniqueIds (Server.IgtlClients s) ->
    0 < Server.NumberOfRetryAttempts s ->
    let s' := (Server.SendTrackedFrame SetTransforms PackMessages
                 GetUniversalTimeFromSystemTime trackedFrame s).1.1 in
    exists records : list Server.SendRecord,
      Server.Wire s' = Server.Wire s ++ records
      /\ Server.ClientId <$> Server.IgtlClients s'
         = filter (fun clientId => ServerSpec.failedIn records clientId = false)
                  (Server.ClientId <$> Server.IgtlClients s).
Proof.
  intros SetTransforms PackMessages utc frame s Hu Hpos s'.
  destruct (SendTrackedFrame_shape SetTransforms PackMessages utc frame s Hu)
    as [Hclients Hwire].
  cbv zeta in Hclients, Hwire. fold s' in Hclients, Hwire.
  eexists. split; [exact Hwire|].
  rewrite Hclients, filter_fmap, <- list_fmap_compose.
  erewrite (filter_agree (fun c => ServerSpec.failedIn _ (Server.ClientId c) = false)).
  - reflexivity.
  - assert (Hattempts : (0 < Z.to_nat (Server.NumberOfRetryAttempts s))%nat) by lia.
    apply Forall_forall. intros c Hc.
    rewrite (failedIn_served PackMessages _ _ _ _ _ c Hattempts Hu Hc). reflexivity.
Qed.

Lemma SendTrackedFrame_disconnects_exactly_the_clients_a_send_failed_for_witness :
  let s' := (Server.SendTrackedFrame ServerScenarios.SetTransforms ServerScenarios.PackMessages
               ServerScenarios.GetUniversalTimeFromSystemTime (Server.mkFrame 3 [])
               (ServerScenarios.server None)).1.1 in
  Server.ClientId <$> Server.IgtlClients s' = [1]
  /\ exists records : list Server.SendRecord,
       Server.Wire s' = Server.Wire (ServerScenarios.server None) ++ records
       /\ Server.ClientId <$> Server.IgtlClients s'
          = filter (fun clientId => ServerSpec.failedIn records clientId = false)
                   (Server.ClientId <$> Server.IgtlClients (ServerScenarios.server None)).
Proof.
  split; [reflexivity|].
  exact (SendTrackedFrame_disconnects_exactly_the_clients_a_send_failed_for
           ServerScenarios.SetTransforms ServerScenarios.PackMessages
           ServerScenarios.GetUniversalTimeFromSystemTime (Server.mkFrame 3 [])
           (ServerScenarios.server None) (proj1 service_wellFormed) ltac:(simpl; lia)).
Defined.

(** X23. With unique ids, [SendTrackedFrame] sends a client nothing more
    once a send to it has failed: among the records of the sends to one
    client in a call, only the last can be of a send that returned 0. *)
Theorem SendTrackedFrame_sends_nothing_after_a_failed_send :
  forall (SetTransforms : Server.Repository -> Server.Frame -> Server.Repository * PlusStatus)
         (PackMessages : Server.ClientInfoT -> Server.Frame -> bool ->
                         option Server.Repository -> PlusStatus * list (option Server.Message))
         (GetUniversalTimeFromSystemTime : float -> float)
         (trackedFrame : Server.Frame) (s : Server.ServerState),
    ServerSpec.uniqueIds (Server.IgtlClients s) ->
    let s' := (Server.SendTrackedFrame SetTransforms PackMessages
                 GetUniversalTimeFromSystemTime trackedFrame s).1.1 in
    exists records : list Server.SendRecord,
      Server.Wire s' = Server.Wire s ++ records
      /\ forall clientId : Z,
           ServerSpec.quietAfterFailure (ServerSpec.recordsTo clientId records).
Proof.
  intros SetTransforms PackMessages utc frame s Hu s'.
  destruct (SendTrackedFrame_shape SetTransforms PackMessages utc frame s Hu)
    as [_ Hwire].
  cbv zeta in Hwire. fold s' in Hwire.
  eexists. split; [exact Hwire|]. intros clientId.
  rewrite (recordsTo_concat
             (fun c => (ServerSpec.served PackMessages _ _ _ _ c).1.2))
    by (exact Hu || intros c'; apply served_records).
  destruct (Service.findClient clientId (Server.IgtlClients s)) as [c|].
  - apply sendMessages_outcome.
  - intros i r Hi. destruct i; discriminate.
Qed.

Lemma SendTrackedFrame_sends_nothing_after_a_failed_send_witness :
  let s' := (Server.SendTrackedFrame ServerScenarios.SetTransforms ServerScenarios.PackMessages
               ServerScenarios.GetUniversalTimeFromSystemTime (Server.mkFrame 3 [])
               (ServerScenarios.server None)).1.1 in
  Server.sentResult <$> Server.Wire s' = [1; 0]
  /\ exists records : list Server.SendRecord,
       Server.Wire s' = Server.Wire (ServerScenarios.server None) ++ records
       /\ forall clientId : Z,
            ServerSpec.quietAfterFailure (ServerSpec.recordsTo clientId records).
Proof.
  split; [reflexivity|].
  exact (SendTrackedFrame_sends_nothing_after_a_failed_send
           ServerScenarios.SetTransforms ServerScenarios.PackMessages
           ServerScenarios.GetUniversalTimeFromSystemTime (Server.mkFrame 3 [])
           (ServerScenarios.server None) (proj1 service_wellFormed)).
Defined.

(** X24. With unique ids, a client that remains after [SendTrackedFrame]
    is a client of before, changed in its socket and its client info at
    most, and its client info is changed only in [LastTDATASentTimeStamp]:
    if a message of this call was delivered to it, that field holds the UTC
    conversion of the frame's timestamp (not the frame's own timestamp),
    and otherwise the client info is as it was. *)
Theorem SendTrackedFrame_stamps_the_clients_it_delivered_to :
  forall (SetTransforms : Server.Repository -> Server.Frame -> Server.Repository * PlusStatus)
         (PackMessages : Server.ClientInfoT -> Server.Frame -> bool ->
                         option Server.Repository -> PlusStatus * list (option Server.Message))
         (GetUniversalTimeFromSystemTime : float -> float)
         (trackedFrame : Server.Frame) (s : Server.ServerState),
    ServerSpec.uniqueIds (Server.IgtlClients s) ->
    let s' := (Server.SendTrackedFrame SetTransforms PackMessages
                 GetUniversalTimeFromSystemTime trackedFrame s).1.1 in
    let utc := GetUniversalTimeFromSystemTime (Server.GetTimestamp trackedFrame) in
    exists records : list Server.SendRecord,
      Server.Wire s' = Server.Wire s ++ records
      /\ forall c' : Server.ClientData,
           c' ∈ Server.IgtlClients s' ->
           exists c : Server.ClientData,
             c ∈ Server.IgtlClients s
             /\ ServerSpec.sameButSocketAndInfo c c'
             /\ Server.ClientInfo c'
                = if ServerSpec.deliveredIn records (Server.ClientId c)
                  then Server.withLastTDATASentTimeStamp utc (Server.ClientInfo c)
                  else Server.ClientInfo c.
Proof.
  intros SetTransforms PackMessages utc frame s Hu s' stamp.
  destruct (SendTrackedFrame_shape SetTransforms PackMessages utc frame s Hu)
    as [Hclients Hwire].
  cbv zeta in Hclients, Hwire. fold s' in Hclients, Hwire.
  eexists. split; [exact Hwire|]. intros c' Hc'.
  rewrite Hclients in Hc'. apply list_elem_of_fmap in Hc' as (c & -> & Hc).
  apply list_elem_of_filter in Hc as [_ Hc]. exists c.
  split; [exact Hc|]. split; [reflexivity|].
  rewrite (deliveredIn_served PackMessages _ _ _ _ _ c Hu Hc).
  unfold ServerSpec.afterFrame. cbn [Server.ClientInfo Server.withClientInfo].
  apply sendMessages_outcome.
Qed.

Lemma SendTrackedFrame_stamps_the_clients_it_delivered_to_witness :
  let s' := (Server.SendTrackedFrame ServerScenarios.SetTransforms ServerScenarios.PackMessages
               ServerScenarios.GetUniversalTimeFromSystemTime (Server.mkFrame 3 [])
               (ServerScenarios.server None)).1.1 in
  Server.LastTDATASentTimeStamp <$> (Server.ClientInfo <$> Server.IgtlClients s')
  = [1000003%float]
  /\ exists records : list Server.SendRecord,
       Server.Wire s' = Server.Wire (ServerScenarios.server None) ++ records
       /\ forall c' : Server.ClientData,
            c' ∈ Server.IgtlClients s' ->
            exists c : Server.ClientData,
              c ∈ Server.IgtlClients (ServerScenarios.server None)
              /\ ServerSpec.sameButSocketAndInfo c c'
              /\ Server.ClientInfo c'
                 = if ServerSpec.deliveredIn records (Server.ClientId c)
                   then Server.withLastTDATASentTimeStamp
                          (ServerScenarios.GetUniversalTimeFromSystemTime
                             (Server.GetTimestamp (Server.mkFrame 3 [])))
                          (Server.ClientInfo c)
                   else Server.ClientInfo c.
Proof.
  split; [vm_compute; reflexivity|].
  exact (SendTrackedFrame_stamps_the_clients_it_delivered_to
           ServerScenarios.SetTransforms ServerScenarios.PackMessages
           ServerScenarios.GetUniversalTimeFromSystemTime (Server.mkFrame 3 [])
           (ServerScenarios.server None) (proj1 service_wellFormed)).
Defined.

(** X25. A cycle of the sender adds no client and takes back nothing that
    was sent: the ids of the clients after the cycle are among those of
    before, in the same order, and the record of the sends is continued. A
    cycle that reports failure has sent nothing and disconnected no one, and
    a cycle that reports success has reset the elapsed time to zero. *)
Theorem sender_cycle_adds_no_client_and_fails_only_when_idle :
  forall (SetTransforms : Server.Repository -> Server.Frame -> Server.Repository * PlusStatus)
         (PackMessages : Server.ClientInfoT -> Server.Frame -> bool ->
                         option Server.Repository -> PlusStatus * list (option Server.Message))
         (GetUniversalTimeFromSystemTime : float -> float)
         (s : Server.ServerState)
         (elapsedTimeSinceLastPacketSentSec startTimeSec endTimeSec : float),
    let result := Server.SendLatestFramesToClients SetTransforms PackMessages
                    GetUniversalTimeFromSystemTime s elapsedTimeSinceLastPacketSentSec
                    startTimeSec endTimeSec in
    Server.ClientId <$> Server.IgtlClients result.1.1
      `sublist_of` Server.ClientId <$> Server.IgtlClients s
    /\ ServerSpec.continues (Server.Wire s) (Server.Wire result.1.1)
    /\ (result.2 = PLUS_FAIL ->
        Server.IgtlClients result.1.1 = Server.IgtlClients s
        /\ Server.Wire result.1.1 = Server.Wire s
        /\ (Server.pullFrames s).2 = [])
    /\ (result.2 = PLUS_SUCCESS -> result.1.2 = 0%float).
Proof.
  intros SetTransforms PackMessages utc s elapsed startT endT result.
  destruct (pullFrames_keeps s) as (Hc & Hw & _).
  unfold result, Server.SendLatestFramesToClients.
  destruct (Server.pullFrames s) as [s1 frames]. cbn [fst snd] in Hc, Hw |- *.
  destruct frames as [|frame frames].
  - destruct (PrimFloat.ltb _ _); cbn [fst snd].
    + destruct (KeepAlive_monotone s1) as [H1 H2]. rewrite Hc, Hw in *.
      split; [exact H1|]. split; [exact H2|]. split; [discriminate|reflexivity].
    + rewrite Hc, Hw. split; [reflexivity|].
      split; [exists []; symmetry; apply app_nil_r|].
      split; [intros _; repeat split|discriminate].
  - cbn [fst snd]. cbn [Server.IgtlClients Server.Wire Server.withLastProcessingTimePerFrameMs].
    destruct (sendFrames_monotone SetTransforms PackMessages utc (frame :: frames) s1)
      as [H1 H2].
    cbv zeta in H1, H2. rewrite Hc, Hw in *.
    split; [exact H1|]. split; [exact H2|]. split; [discriminate|reflexivity].
Qed.

(** ** What a receiver thread does on behalf of its client *)

Section ReceiverTraffic.
Import Server ServerSpec.

Variable IsCommandDeviceName : string -> bool.
Variable GetUidFromCommandDeviceName : string -> string.
Variable GetPrefixFromCommandDeviceName : string -> string.
Variable DEVICE_NAME_REPLY : string.
Variable stoi : string -> StoiResult.
Variable ReadNameAttribute : string -> option (option string).
Variable IGTLProtocolVersion : Z.

Local Abbreviation round :=
  (receiverRound IsCommandDeviceName GetUidFromCommandDeviceName
     GetPrefixFromCommandDeviceName DEVICE_NAME_REPLY stoi ReadNameAttribute
     IGTLProtocolVersion).
Local Abbreviation rounds :=
  (receiverRounds IsCommandDeviceName GetUidFromCommandDeviceName
     GetPrefixFromCommandDeviceName DEVICE_NAME_REPLY stoi ReadNameAttribute
     IGTLProtocolVersion).

Lemma continues_refl {A : Type} (l : list A) : continues l l.
Proof. exists []. symmetry. apply app_nil_r. Qed.

Lemma ownTraffic_refl (r : Receiver) : ownTraffic r r.
Proof.
  split; [reflexivity|].
  split; [exists []; split; [symmetry; apply app_nil_r|constructor]|].
  split; [exists []; split; [symmetry; apply app_nil_r|constructor]|].
  split; [exists []; split; [symmetry; apply app_nil_r|constructor]|].
  apply continues_refl.
Qed.

Lemma ownTraffic_trans (r r' r'' : Receiver) :
  ownTraffic r r' -> ownTraffic r' r'' -> ownTraffic r r''.
Proof.
  intros (Hid & (c & Hc & Hcs) & (m & Hm & Hms) & (p & Hp & Hps) & Hs)
         (Hid' & (c' & Hc' & Hcs') & (m' & Hm' & Hms') & (p' & Hp' & Hps') & Hs').
  rewrite Hid in *. split; [exact Hid'|].
  split; [exists (c ++ c'); split; [rewrite Hc', Hc, app_assoc; reflexivity|
                                    apply Forall_app; split; assumption]|].
  split; [exists (m ++ m'); split; [rewrite Hm', Hm, app_assoc; reflexivity|
                                    apply Forall_app; split; assumption]|].
  split; [exists (p ++ p'); split; [rewrite Hp', Hp, app_assoc; reflexivity|
                                    apply Forall_app; split; assumption]|].
  eapply continues_trans; eassumption.
Qed.

Lemma ownTraffic_withClientInfo (info : ClientInfoT) (r : Receiver) :
  ownTraffic r (withClient (withClientInfo info (client r)) r).
Proof.
  split; [reflexivity|].
  split; [exists []; split; [symmetry; apply app_nil_r|constructor]|].
  split; [exists []; split; [symmetry; apply app_nil_r|constructor]|].
  split; [exists []; split; [symmetry; apply app_nil_r|constructor]|].
  apply continues_refl.
Qed.

Lemma ownTraffic_QueueStringResponse (q : QueuedStringResponse) (r : Receiver) :
  ownTraffic r (QueueStringResponse q r).
Proof.
  split; [reflexivity|].
  split; [exists []; split; [symmetry; apply app_nil_r|constructor]|].
  split; [exists []; split; [symmetry; apply app_nil_r|constructor]|].
  split; [exists []; split; [symmetry; apply app_nil_r|constructor]|].
  exists [q]. reflexivity.
Qed.

Lemma ownTraffic_QueueMessageResponse (clientId : Z) (msg : Message) (r : Receiver) :
  clientId = ClientId (client r) ->
  ownTraffic r (Server.QueueMessageResponseForClient clientId msg r).
Proof.
  intros ->. split; [reflexivity|].
  split; [exists []; split; [symmetry; apply app_nil_r|constructor]|].
  split; [exists [(ClientId (client r), msg)]; split; [reflexivity|repeat constructor]|].
  split; [exists []; split; [symmetry; apply app_nil_r|constructor]|].
  apply continues_refl.
Qed.

Lemma ownTraffic_rememberAndQueue (uid : Z) (q : QueuedCommand) (r : Receiver) :
  commandClientId q = ClientId (client r) -> ownTraffic r (rememberAndQueue uid q r).
Proof.
  intros Hq. split; [reflexivity|].
  split; [exists [q]; split; [reflexivity|repeat constructor; exact Hq]|].
  split; [exists []; split; [symmetry; apply app_nil_r|constructor]|].
  split; [exists []; split; [symmetry; apply app_nil_r|constructor]|].
  apply continues_refl.
Qed.

Lemma ownTraffic_reply (sock : Socket) (retValue : Z) (r : Receiver) :
  ownTraffic r
    {| previousCommandIds := previousCommandIds r;
       client := withSocket sock (client r);
       QueuedCommands := QueuedCommands r;
       QueuedStringResponses := QueuedStringResponses r;
       QueuedMessageResponses := QueuedMessageResponses r;
       Replied := Replied r ++ [mkSendRecord (ClientId (client r)) (StatusMessage STATUS_OK)
                                             retValue] |}.
Proof.
  split; [reflexivity|].
  split; [exists []; split; [symmetry; apply app_nil_r|constructor]|].
  split; [exists []; split; [symmetry; apply app_nil_r|constructor]|].
  split; [eexists; split; [reflexivity|repeat constructor]|].
  apply continues_refl.
Qed.

(** The receiver a round ends in, when it does not end in an exception. *)
Lemma receiverRound_ownTraffic (incoming : Incoming) (r r' : Receiver) :
  round incoming r = Continue r' \/ round incoming r = Return r' -> ownTraffic r r'.
Proof.
  unfold receiverRound.
  destruct incoming as [|hv dn body];
    [intros [[= <-]|H]; [apply ownTraffic_refl|discriminate]|].
  set (r1 := withClient
               (withClientInfo (setHeaderVersion (Z.min IGTLProtocolVersion hv)
                                                 (ClientInfo (client r))) (client r)) r).
  assert (H1 : ownTraffic r r1) by apply ownTraffic_withClientInfo.
  assert (Hstay : forall r0, Continue r1 = Continue r0 \/ Continue r1 = Return r0 ->
                             ownTraffic r r0).
  { intros r0 [[= <-]|H]; [exact H1|discriminate]. }
  assert (Hthen : forall r2 r0, ownTraffic r1 r2 ->
                                Continue r2 = Continue r0 \/ Continue r2 = Return r0 ->
                                ownTraffic r r0).
  { intros r2 r0 H2 [[= <-]|H]; [|discriminate]. exact (ownTraffic_trans _ _ _ H1 H2). }
  destruct body as [|u info| |u content|u cid name content|u res| |meta poly fits| |].
  - apply Hstay.
  - destruct u; [|apply Hstay]. apply Hthen, ownTraffic_withClientInfo.
  - destruct (Send (ClientSocket (client r1))) as [sock ret].
    apply Hthen. change (ClientId (client r)) with (ClientId (client r1)).
    apply ownTraffic_reply.
  - destruct (IsCommandDeviceName dn); [|apply Hstay].
    destruct u; [|apply Hstay].
    destruct (String.eqb dn EmptyString); [apply Hthen, ownTraffic_QueueStringResponse|].
    destruct (stoi _) as [n| |].
    + destruct (alreadyReceived _ _); [apply Hstay|].
      destruct (ReadNameAttribute content) as [attribute|].
      * apply Hthen, ownTraffic_rememberAndQueue. reflexivity.
      * intros [H|H]; discriminate.
    + apply Hthen, ownTraffic_QueueStringResponse.
    + intros [H|H]; discriminate.
  - destruct u; [|apply Hstay].
    destruct (alreadyReceived _ _); [apply Hstay|].
    apply Hthen, ownTraffic_rememberAndQueue. reflexivity.
  - destruct u.
    + apply Hthen.
      apply (ownTraffic_trans _ _ _
               (ownTraffic_withClientInfo (setTDATA true res (ClientInfo (client r1))) r1)).
      apply ownTraffic_QueueMessageResponse. reflexivity.
    + intros [H|[= <-]]; [discriminate|exact H1].
  - apply Hthen.
    apply (ownTraffic_trans _ _ _
             (ownTraffic_withClientInfo
                (setTDATA false (Resolution (ClientInfo (client r1))) (ClientInfo (client r1)))
                r1)).
    apply ownTraffic_QueueMessageResponse. reflexivity.
  - destruct (if IGTL_HEADER_VERSION_1 <? hv then _ else _); [|apply Hstay].
    destruct poly; [destruct fits; [|apply Hstay]|];
      apply Hthen; apply ownTraffic_QueueMessageResponse; reflexivity.
  - apply Hstay.
  - apply Hstay.
Qed.

Lemma receiverRounds_ownTraffic (incoming : list Incoming) (r r' : Receiver) :
  rounds incoming r = Continue r' \/ rounds incoming r = Return r' -> ownTraffic r r'.
Proof.
  revert r. induction incoming as [|i incoming IH]; intros r; cbn [receiverRounds].
  - intros [[= <-]|H]; [apply ownTraffic_refl|discriminate].
  - destruct (round i r) as [r1|r1|] eqn:H1.
    + intros H. eapply ownTraffic_trans; [|apply IH, H].
      apply (receiverRound_ownTraffic i). left. exact H1.
    + intros [H|[= <-]]; [discriminate|].
      apply (receiverRound_ownTraffic i). right. exact H1.
    + intros [H|H]; discriminate.
Qed.

End ReceiverTraffic.

(** X26. Whatever a client sends, its receiver thread acts under the id
    of that client only: as long as the thread goes on or when it returns,
    the id of its client is the one it started with, every command and every
    message response it has queued since carries that id, every reply it has
    written to the socket is a STATUS OK to that id, and nothing that was
    queued or sent before is removed. *)
Theorem receiver_thread_queues_only_under_its_own_client_id :
  forall (IsCommandDeviceName : string -> bool)
         (GetUidFromCommandDeviceName GetPrefixFromCommandDeviceName : string -> string)
         (DEVICE_NAME_REPLY : string) (stoi : string -> Server.StoiResult)
         (ReadNameAttribute : string -> option (option string)) (IGTLProtocolVersion : Z)
         (incoming : list Server.Incoming) (r r' : Server.Receiver),
    Server.receiverRounds IsCommandDeviceName GetUidFromCommandDeviceName
      GetPrefixFromCommandDeviceName DEVICE_NAME_REPLY stoi ReadNameAttribute
      IGTLProtocolVersion incoming r = Server.Continue r'
    \/ Server.receiverRounds IsCommandDeviceName GetUidFromCommandDeviceName
         GetPrefixFromCommandDeviceName DEVICE_NAME_REPLY stoi ReadNameAttribute
         IGTLProtocolVersion incoming r = Server.Return r' ->
    ServerSpec.ownTraffic r r'.
Proof.
  intros IsCommandDeviceName GetUid GetPrefix reply stoi ReadName version incoming r r'.
  apply receiverRounds_ownTraffic.
Qed.

(** The twelve commands of the scenario, followed by a request for
    tracking data: the eleven commands queued and the acknowledgement are all
    under the id 1. *)
Lemma receiver_thread_queues_only_under_its_own_client_id_witness :
  exists r' : Server.Receiver,
    ServerScenarios.rounds
      (ServerScenarios.traffic
         ++ [Server.Header 3 "Plus" (Server.BodyStartTrackingData true 50)])
      (ServerScenarios.freshReceiver (ServerScenarios.subscriber 1 []))
    = Server.Continue r'
    /\ Server.commandClientId <$> Server.QueuedCommands r' = replicate 11 1
    /\ Server.QueuedMessageResponses r' = [(1, Server.RTSTrackingDataMessage 0)]
    /\ ServerSpec.ownTraffic (ServerScenarios.freshReceiver (ServerScenarios.subscriber 1 [])) r'.
Proof.
  eexists.
  assert (Hrun : ServerScenarios.rounds
                   (ServerScenarios.traffic
                      ++ [Server.Header 3 "Plus" (Server.BodyStartTrackingData true 50)])
                   (ServerScenarios.freshReceiver (ServerScenarios.subscriber 1 []))
                 = Server.Continue _) by (vm_compute; reflexivity).
  split; [exact Hrun|]. split; [reflexivity|]. split; [reflexivity|].
  exact (receiver_thread_queues_only_under_its_own_client_id _ _ _ _ _ _ _ _ _ _
           (or_introl Hrun)).
Defined.
